(** * Test-report generators: aggregation, run-over-run diff, delivery

    A shallow embedding of the aggregation / comparison core of
    [src/framework/utils/html-report-generator.py] and
    [src/framework/utils/pdf-report-generator.py], followed by the
    properties of the specification that it satisfies, and the concrete
    inputs at which it departs from it.

    Conventions of the embedding:
    - a fetched JSON object (a test outcome, a database row) is a Python
      [dict]: a finite map from key strings to values [pyval];
    - the values of these dictionaries are [None], integers and strings;
    - Python integers are unbounded, hence [Z];
    - a finite Python [float] (IEEE-754 binary64) is the rational number it
      denotes, and an arithmetic operation returns the exact result rounded
      to 53 significant bits, ties to even.  The operations on [Q]
      ([fl_round], [int_truediv], [float_mul], [py_truediv]) leave the
      exponent range out: they are those of Python for results that are
      zero or of a magnitude between 2^-1022 and 2^1024, and what is
      proved of them is stated within that range or of the results that
      they return.  The operations on [float] ([to_float], [Z_truediv],
      [fsub], [fmul], [fdiv]) have the whole range: gradual underflow, the
      infinities, NaN, and the [OverflowError] of an integer division or
      conversion;
    - an operation that may raise is a computation in the [result] monad;
      a procedure that prints or touches files is a computation in [M].

    The embedding goes on with the [.env] loader, the decoding of the
    reply of the module query and the timing columns of the test table on
    decoded JSON (where floats, booleans, arrays and objects occur as
    well), the module table of the printable report and the element ids of
    the module cards, and with properties that the code shows for them and
    for the parts above. *)

From Stdlib Require Import ZArith QArith Qabs Qround Qpower Lia Lqa SpecFloat.
From stdpp Require Import gmap strings list fin_maps pretty.

Local Open Scope Z_scope.

(** ** Python values, dictionaries, exceptions and floats *)

Module Py.

Inductive pyval : Type :=
| PNone
| PInt (z : Z)
| PStr (s : string).

#[global] Instance pyval_eq_dec : EqDecision pyval.
Proof. solve_decision. Defined.

Definition pyval_to_sum (v : pyval) : unit + (Z + string) :=
  match v with
  | PNone => inl tt
  | PInt z => inr (inl z)
  | PStr s => inr (inr s)
  end.

Definition pyval_of_sum (x : unit + (Z + string)) : pyval :=
  match x with
  | inl _ => PNone
  | inr (inl z) => PInt z
  | inr (inr s) => PStr s
  end.

#[global] Instance pyval_countable : Countable pyval.
Proof.
  refine (inj_countable' pyval_to_sum pyval_of_sum _).
  intros []; reflexivity.
Defined.

(** [x == y] on the values above. *)
Definition py_eq (x y : pyval) : bool := bool_decide (x = y).

(** Truth value of an object in a condition ([if x:]). *)
Definition truthy (v : pyval) : bool :=
  match v with
  | PNone => false
  | PInt z => negb (z =? 0)
  | PStr s => negb (bool_decide (s = EmptyString))
  end.

(** [str(x)], as an f-string interpolates it. *)
Definition py_str (v : pyval) : string :=
  match v with
  | PNone => "None"
  | PInt z => pretty z
  | PStr s => s
  end.

(** A [dict] with string keys. *)
Abbreviation dict := (gmap string pyval).

(** [d.get(k)] *)
Definition get (d : dict) (k : string) : pyval := default PNone (d !! k).

(** [d.get(k, dflt)] *)
Definition get_or (d : dict) (k : string) (dflt : pyval) : pyval :=
  default dflt (d !! k).

(** Truth value of a dictionary: it is false exactly for [{}]. *)
Definition dict_truthy (d : dict) : bool := negb (bool_decide (d = ∅)).

(** [sum(1 for t in l if f t)] *)
Fixpoint count_if {A : Type} (f : A → bool) (l : list A) : Z :=
  match l with
  | [] => 0
  | x :: l' => (if f x then 1 else 0) + count_if f l'
  end.

(** [len(l)] *)
Definition len {A : Type} (l : list A) : Z := Z.of_nat (length l).

(** *** Exceptions *)

Inductive exn : Type :=
| TypeError
| KeyError
| AttributeError
| ZeroDivisionError
| OSError
| RequestException
| ValueError
| OverflowError
| SystemExit (code : Z).

(** [isinstance(e, Exception)]: [SystemExit] derives from [BaseException]
    only, so that [except Exception] lets it through. *)
Definition is_Exception (e : exn) : bool :=
  match e with
  | SystemExit _ => false
  | _ => true
  end.

Inductive result (A : Type) : Type :=
| Ok (a : A)
| Raise (e : exn).
Arguments Ok {A} a.
Arguments Raise {A} e.

#[global] Instance result_ret : MRet result := @Ok.
#[global] Instance result_bind : MBind result := λ A B f m,
  match m with
  | Ok a => f a
  | Raise e => Raise e
  end.
#[global] Instance result_fmap : FMap result := λ A B f m,
  match m with
  | Ok a => Ok (f a)
  | Raise e => Raise e
  end.

(** *** Integer arithmetic on values *)

(** [a - b]: defined on two integers, a [TypeError] otherwise. *)
Definition py_sub (a b : pyval) : result Z :=
  match a, b with
  | PInt x, PInt y => Ok (x - y)
  | _, _ => Raise TypeError
  end.

(** [a > n] for an integer literal [n]. *)
Definition py_gt (a : pyval) (n : Z) : result bool :=
  match a with
  | PInt x => Ok (n <? x)
  | _ => Raise TypeError
  end.

(** [sum(l)], from the start value [0], left to right. *)
Fixpoint py_sum_from (acc : Z) (l : list pyval) : result Z :=
  match l with
  | [] => Ok acc
  | PInt x :: l' => py_sum_from (acc + x) l'
  | _ :: _ => Raise TypeError
  end.
Definition py_sum (l : list pyval) : result Z := py_sum_from 0 l.

(** *** Floats *)

Local Open Scope Q_scope.

Definition pow2 (e : Z) : Q := 2 ^ e.

(** The integer nearest to [x], the even one of the two when [x] lies
    halfway. *)
Definition Qround_half_even (x : Q) : Z :=
  let f := Qfloor x in
  match Qcompare (x - inject_Z f) (1 # 2) with
  | Lt => f
  | Gt => (f + 1)%Z
  | Eq => if Z.even f then f else (f + 1)%Z
  end.

(** For [0 < x], the exponent [k] with [2^k <= x < 2^(k+1)]. *)
Definition floor_log2 (x : Q) : Z :=
  let k := (Z.log2 (Qnum x) - Z.log2 (Zpos (Qden x)))%Z in
  if Qle_bool (pow2 k) x then k else (k - 1)%Z.

(** Round to nearest, ties to even, at 53 bits of precision: the float
    that an operation with exact result [x] returns. *)
Definition fl_round (x : Q) : Q :=
  if Qeq_bool x 0 then 0
  else
    let e := (floor_log2 (Qabs x) - 52)%Z in
    Qred (inject_Z (Qround_half_even (x / pow2 e)) * pow2 e).

(** [float(n)] *)
Definition float_of_int (n : Z) : Q := fl_round (inject_Z n).

(** [a / b] on two integers, [b] non-zero: the correctly rounded quotient. *)
Definition int_truediv (a b : Z) : Q := fl_round (inject_Z a / inject_Z b).

(** [x * y] on two floats. *)
Definition float_mul (x y : Q) : Q := fl_round (x * y).

(** [round(x)] on a float: an integer, ties to even. *)
Definition py_round (x : Q) : Z := Qround_half_even x.

(** Half a unit in the last place, relative to the value: [2^-53]. *)
Definition half_ulp : Q := 1 # 9007199254740992.

(** [a / b] on values, for a quotient within the range of a float (beyond
    it Python raises [OverflowError]; see [Z_truediv]). *)
Definition py_truediv (a b : pyval) : result Q :=
  match a, b with
  | PInt x, PInt y =>
      if (y =? 0)%Z then Raise ZeroDivisionError else Ok (int_truediv x y)
  | _, _ => Raise TypeError
  end.

(** *** Floats with their exponent range

    A [float] is a binary64 value: a finite one, an infinity or a NaN.  A
    finite value is the rational it denotes; the sign of a zero is not
    kept, it shows only when the number is printed. *)
Inductive float : Type :=
| FFinite (q : Q)
| FInf (negative : bool)
| FNaN.

(** Round to nearest, ties to even, into the finite binary64 values and
    their continuation above: 53 bits, the exponent of the last place not
    below -1074 (gradual underflow). *)
Definition b64_round (x : Q) : Q :=
  if Qeq_bool x 0 then 0
  else
    let e := Z.max (floor_log2 (Qabs x) - 52) (-1074) in
    Qred (inject_Z (Qround_half_even (x / pow2 e)) * pow2 e).

Definition is_negative (x : Q) : bool := negb (Qle_bool 0 x).

(** The float that an operation with exact result [x] returns: the
    rounded value, an infinity once that reaches [2^1024]. *)
Definition to_float (x : Q) : float :=
  let r := b64_round x in
  if Qle_bool (pow2 1024) (Qabs r) then FInf (is_negative x) else FFinite r.

(** [float(n)], as a mixed operation converts an integer operand. *)
Definition float_of_Z (n : Z) : result float :=
  match to_float (inject_Z n) with
  | FInf _ => Raise OverflowError
  | x => Ok x
  end.

(** [a / b] on two integers: the correctly rounded quotient. *)
Definition Z_truediv (a b : Z) : result float :=
  if (b =? 0)%Z then Raise ZeroDivisionError
  else match to_float (inject_Z a / inject_Z b) with
       | FInf _ => Raise OverflowError
       | x => Ok x
       end.

Definition is_zero (x : float) : bool :=
  match x with
  | FFinite q => Qeq_bool q 0
  | _ => false
  end.

(** [x - y] on two floats. *)
Definition fsub (x y : float) : float :=
  match x, y with
  | FNaN, _ | _, FNaN => FNaN
  | FFinite a, FFinite b => to_float (a - b)
  | FInf s, FFinite _ => FInf s
  | FFinite _, FInf s => FInf (negb s)
  | FInf s, FInf t => if Bool.eqb s t then FNaN else FInf s
  end.

(** [x * y] on two floats. *)
Definition fmul (x y : float) : float :=
  match x, y with
  | FNaN, _ | _, FNaN => FNaN
  | FFinite a, FFinite b => to_float (a * b)
  | FInf s, FFinite b | FFinite b, FInf s =>
      if Qeq_bool b 0 then FNaN else FInf (xorb s (is_negative b))
  | FInf s, FInf t => FInf (xorb s t)
  end.

(** [x / y] on two floats, [y] not zero. *)
Definition fdiv (x y : float) : float :=
  match x, y with
  | FNaN, _ | _, FNaN => FNaN
  | FFinite a, FFinite b => to_float (a / b)
  | FFinite _, FInf _ => FFinite 0
  | FInf s, FFinite b => FInf (xorb s (is_negative b))
  | FInf _, FInf _ => FNaN
  end.

(** [x / y] on two floats. *)
Definition float_truediv (x y : float) : result float :=
  if is_zero y then Raise ZeroDivisionError else Ok (fdiv x y).

(** [abs(x)], [x > 0] and [x < 0] on a float. *)
Definition fabs (x : float) : float :=
  match x with
  | FFinite q => FFinite (Qabs q)
  | FInf _ => FInf false
  | FNaN => FNaN
  end.

Definition float_gt0 (x : float) : bool :=
  match x with
  | FFinite q => negb (Qle_bool q 0)
  | FInf negative => negb negative
  | FNaN => false
  end.

Definition float_lt0 (x : float) : bool :=
  match x with
  | FFinite q => negb (Qle_bool 0 q)
  | FInf negative => negative
  | FNaN => false
  end.

(** A Python number: an [int] or a [float]. *)
Inductive number : Type :=
| NInt (z : Z)
| NFloat (x : float).

Definition number_to_float (n : number) : result float :=
  match n with
  | NInt z => float_of_Z z
  | NFloat x => Ok x
  end.

(** [a - b] on two numbers: exact on integers, in binary64 as soon as one
    operand is a float. *)
Definition num_sub (a b : number) : result number :=
  match a, b with
  | NInt x, NInt y => Ok (NInt (x - y))
  | _, _ =>
      x ← number_to_float a;
      y ← number_to_float b;
      Ok (NFloat (fsub x y))
  end.

(** [a / b] on two numbers. *)
Definition num_truediv (a b : number) : result float :=
  match a, b with
  | NInt x, NInt y => Z_truediv x y
  | _, _ =>
      x ← number_to_float a;
      y ← number_to_float b;
      float_truediv x y
  end.

(** [x * n] for a float [x] and an integer [n]. *)
Definition float_mul_int (x : float) (n : Z) : result float :=
  y ← float_of_Z n;
  Ok (fmul x y).

Definition num_abs (a : number) : number :=
  match a with
  | NInt z => NInt (Z.abs z)
  | NFloat x => NFloat (fabs x)
  end.

Definition num_gt0 (a : number) : bool :=
  match a with
  | NInt z => (0 <? z)%Z
  | NFloat x => float_gt0 x
  end.

Definition num_lt0 (a : number) : bool :=
  match a with
  | NInt z => (z <? 0)%Z
  | NFloat x => float_lt0 x
  end.

Local Close Scope Q_scope.

(** *** Binary64 as the Standard Library specifies it

    Used only to cross-check [fl_round] and the operations on [float]
    against [SFsub], [SFmul] and [SFdiv]. *)

Definition b64_of_Z (z : Z) : spec_float := binary_normalize 53 1024 z 0 false.

Definition SF2Q (x : spec_float) : option Q :=
  match x with
  | S754_zero _ => Some 0%Q
  | S754_finite s m e =>
      Some ((if s then -1 else 1) * inject_Z (Zpos m) * pow2 e)%Q
  | _ => None
  end.

(** [(p / t) * 100] computed by both models: do they agree? *)
Definition agrees_with_binary64 (p t : Z) : bool :=
  let d := SFdiv 53 1024 (b64_of_Z p) (b64_of_Z t) in
  let f := SFmul 53 1024 d (b64_of_Z 100) in
  match SF2Q d, SF2Q f with
  | Some qd, Some qf =>
      Qeq_bool qd (int_truediv p t)
      && Qeq_bool qf (float_mul (int_truediv p t) (float_of_int 100))
  | _, _ => false
  end.

(** All pairs [(p, t)] with [0 <= p <= t] and [1 <= t <= n]. *)
Definition grid (n : nat) : list (Z * Z) :=
  flat_map (λ t, map (λ p, (Z.of_nat p, Z.of_nat t)) (seq 0 (S t))) (seq 1 n).

(** The value [m * 2^e] rounded into binary64, by the Standard Library. *)
Definition SF_of (me : Z * Z) : spec_float :=
  binary_normalize 53 1024 me.1 me.2 false.

Definition float_of_SF (x : spec_float) : float :=
  match x with
  | S754_zero _ => FFinite 0
  | S754_finite s m e =>
      FFinite (Qred ((if s then -1 else 1) * inject_Z (Zpos m) * pow2 e))
  | S754_infinity s => FInf s
  | S754_nan => FNaN
  end.

Definition float_eqb (x y : float) : bool :=
  match x, y with
  | FFinite a, FFinite b => Qeq_bool a b
  | FInf s, FInf t => Bool.eqb s t
  | FNaN, FNaN => true
  | _, _ => false
  end.

(** Rounding, [-], [*] and [/] computed by both models on [x] and [y]: do
    they agree? *)
Definition float_ops_agree (x y : Z * Z) : bool :=
  let fx := to_float (inject_Z x.1 * pow2 x.2) in
  let fy := to_float (inject_Z y.1 * pow2 y.2) in
  float_eqb fx (float_of_SF (SF_of x))
  && float_eqb (fsub fx fy) (float_of_SF (SFsub 53 1024 (SF_of x) (SF_of y)))
  && float_eqb (fmul fx fy) (float_of_SF (SFmul 53 1024 (SF_of x) (SF_of y)))
  && (is_zero fy
      || float_eqb (fdiv fx fy) (float_of_SF (SFdiv 53 1024 (SF_of x) (SF_of y)))).

(** Values [m * 2^e] across the range: small integers, halves, values
    that need rounding, the subnormal numbers, the largest floats and
    values beyond them; and second operands for them. *)
Definition samples : list (Z * Z) :=
  [ (0, 0); (1, 0); (-7, 0); (1200, 0); (2401, -1); (9007199254740993, 0);
    (-9007199254740995, 3); (1, -1074); (-5, -1074); (3, -1075); (1, -1075);
    (4503599627370497, -1074); (9007199254740991, -1075); (1, -1022);
    (9007199254740991, 971); (18014398509481983, 970); (1, 1024); (3, -600) ].

Definition operands : list (Z * Z) :=
  [ (0, 0); (1000, 0); (100, 0); (3, 0); (-7, -1074); (1, -600);
    (-9007199254740991, 971); (1, 1024) ].

End Py.

Import Py.

(** ** Run-level summary, common to both generators *)

Module Summary.

Record summary : Type := {
  total_modules : Z;
  total_tests : Z;
  total_passed : Z;
  total_failed : Z;
  total_skipped : Z;
  pass_rate : Z
}.

(** [round((total_passed / total_tests) * 100) if total_tests > 0 else 0] *)
Definition pass_rate_of (total_passed total_tests : Z) : Z :=
  if 0 <? total_tests
  then py_round (float_mul (int_truediv total_passed total_tests) (float_of_int 100))
  else 0.

(** [sum(record.get(key, 0) for record in records)] *)
Definition sum_field (key : string) (records : list dict) : result Z :=
  py_sum (map (λ record, get_or record key (PInt 0)) records).

Definition summarize (records : list dict) : result summary :=
  let total_modules := len records in
  total_tests ← sum_field "test_cases_run" records;
  total_passed ← sum_field "test_cases_passed" records;
  total_failed ← sum_field "test_cases_failed" records;
  total_skipped ← sum_field "test_cases_skipped" records;
  let pass_rate := pass_rate_of total_passed total_tests in
  Ok {| total_modules := total_modules;
        total_tests := total_tests;
        total_passed := total_passed;
        total_failed := total_failed;
        total_skipped := total_skipped;
        pass_rate := pass_rate |}.

(** [records[0].get('runenv', 'Unknown') if records else 'Unknown'] *)
Definition first_runenv (records : list dict) : pyval :=
  match records with
  | record :: _ => get_or record "runenv" (PStr "Unknown")
  | [] => PStr "Unknown"
  end.

End Summary.

Import Summary.

(** ** Processes: standard output, files, exceptions and exit codes *)

Module Proc.

(** What a run can observe and change: the lines printed so far and the
    paths of the files on disk. *)
Record world : Type := {
  stdout : list string;
  files : gset string
}.

Definition M (A : Type) : Type := world → result A * world.

#[global] Instance M_ret : MRet M := λ A a w, (Ok a, w).
#[global] Instance M_bind : MBind M := λ A B f m w,
  match m w with
  | (Ok a, w') => f a w'
  | (Raise e, w') => (Raise e, w')
  end.

(** [print(line)] *)
Definition print (line : string) : M unit := λ w,
  (Ok (), {| stdout := stdout w ++ [line]; files := files w |}).

(** [raise e] *)
Definition raise {A : Type} (e : exn) : M A := λ w, (Raise e, w).

(** [sys.exit(code)] *)
Definition sys_exit {A : Type} (code : Z) : M A := raise (SystemExit code).

(** A value or exception computed without effect. *)
Definition lift {A : Type} (r : result A) : M A := λ w, (r, w).

(** [try: body / except Exception as e: handler e] *)
Definition try_except {A : Type} (body : M A) (handler : exn → M A) : M A := λ w,
  match body w with
  | (Raise e, w') => if is_Exception e then handler e w' else (Raise e, w')
  | (Ok a, w') => (Ok a, w')
  end.

(** [open(path, 'rb')]: the file must exist. *)
Definition open_rb (path : string) : M unit := λ w,
  if bool_decide (path ∈ files w) then (Ok (), w) else (Raise OSError, w).

(** The exit status of the interpreter once the top-level call returns
    or raises. *)
Definition exit_code {A : Type} (r : result A) : Z :=
  match r with
  | Ok _ => 0
  | Raise (SystemExit code) => code
  | Raise _ => 1
  end.

(** [f"{e}"] for a caught exception: the class name stands for the message. *)
Definition exn_str (e : exn) : string :=
  match e with
  | TypeError => "TypeError"
  | KeyError => "KeyError"
  | AttributeError => "AttributeError"
  | ZeroDivisionError => "ZeroDivisionError"
  | OSError => "OSError"
  | RequestException => "RequestException"
  | ValueError => "ValueError"
  | OverflowError => "OverflowError"
  | SystemExit code => pretty code
  end.

(** [needle in haystack] on strings. *)
Definition contains (needle haystack : string) : bool :=
  match String.index 0 needle haystack with
  | Some _ => true
  | None => false
  end.

(** Truth value of a string ([if s:]) and of an optional string. *)
Definition str_truthy (s : string) : bool := negb (bool_decide (s = EmptyString)).
Definition opt_truthy (o : option string) : bool :=
  match o with
  | Some s => str_truthy s
  | None => false
  end.

(** The ['file'] entry of the reply of Slack's [files.upload]: missing, a
    dictionary, of which the code reads the ['permalink'] entry, or a value
    that has no method [get] (null, a number, a string, a list). *)
Inductive file_entry : Type :=
| FileMissing
| FileDict (permalink : option string)
| FileOther.

(** The reply of Slack's [files.upload], as far as the code reads it:
    [result.get('ok')], [result.get('error', 'Unknown error')] and
    [result.get('file', {})]. *)
Record upload_json : Type := {
  upload_ok : bool;
  upload_error : string;
  upload_file : file_entry
}.

(** [result.get('file', {}).get('permalink')] *)
Definition upload_permalink (reply : upload_json) : result (option string) :=
  match upload_file reply with
  | FileMissing => Ok None
  | FileDict permalink => Ok permalink
  | FileOther => Raise AttributeError
  end.

(** A [requests] response: [response.ok], [response.status_code],
    [response.text], and the decoded body, [None] when the body is not
    JSON. *)
Record response (J : Type) : Type := {
  resp_ok : bool;
  resp_status_code : Z;
  resp_text : string;
  resp_json : option J
}.
Arguments resp_ok {J} _.
Arguments resp_status_code {J} _.
Arguments resp_text {J} _.
Arguments resp_json {J} _.

(** [response.json()] *)
Definition response_json {J : Type} (r : response J) : M J :=
  match resp_json r with
  | Some j => mret j
  | None => raise ValueError
  end.

(** A collaborator of the delivery step is well behaved when it neither
    removes files nor terminates the interpreter; it may print, return
    anything and raise any [Exception]. *)
Definition well_behaved {A : Type} (c : M A) : Prop :=
  ∀ w, files (c w).2 = files w ∧ ∀ code, (c w).1 ≠ Raise (SystemExit code).

(** The computation returns a value and removes no file. *)
Definition returns {A : Type} (c : M A) : Prop :=
  ∀ w, ∃ a w', c w = (Ok a, w') ∧ files w' = files w.

(** The output of a run ends with the given line. *)
Definition last_line (w : world) (line : string) : Prop :=
  last (stdout w) = Some line.

End Proc.

Import Proc.

(** ** The interactive (HTML) report generator *)

Module Html.

(** One row of [xyne_test_module] as the query service returns it:
    the scalar columns, and the [tests] array of the (decoded)
    [run_data] column, [run_data.get('tests', [])]. *)
Record module_row : Type := {
  row_fields : dict;
  row_tests : list dict
}.

(** A module dictionary as [create_html] receives it: its scalar entries
    and its ['tests'] entry ([None] when the key is missing). *)
Record module_dict : Type := {
  m_fields : dict;
  m_tests : option (list dict)
}.

(** [module.get('tests', [])] *)
Definition module_tests (m : module_dict) : list dict := default [] (m_tests m).

(** Truth value of a module dictionary ([if prev_module:]). *)
Definition module_truthy (m : module_dict) : bool :=
  dict_truthy (m_fields m)
  || match m_tests m with Some _ => true | None => false end.

(** *** Aggregator ([fetch_current_run_data], the body of the loop) *)

(** [t.get('status') == s] *)
Definition status_is (s : string) (t : dict) : bool :=
  py_eq (get t "status") (PStr s).

(** [t.get('status') == 'failed' and t.get('priority') == p] *)
Definition failed_with_priority (p : string) (t : dict) : bool :=
  status_is "failed" t && py_eq (get t "priority") (PStr p).

Definition test_cases_run (tests : list dict) : Z := len tests.
Definition test_cases_passed (tests : list dict) : Z :=
  count_if (status_is "passed") tests.
Definition test_cases_failed (tests : list dict) : Z :=
  count_if (status_is "failed") tests.
Definition test_cases_skipped (tests : list dict) : Z :=
  count_if (status_is "skipped") tests.

Definition highest_priority_failed (tests : list dict) : Z :=
  count_if (failed_with_priority "highest") tests.
Definition high_priority_failed (tests : list dict) : Z :=
  count_if (failed_with_priority "high") tests.
Definition medium_priority_failed (tests : list dict) : Z :=
  count_if (failed_with_priority "medium") tests.
Definition low_priority_failed (tests : list dict) : Z :=
  count_if (failed_with_priority "low") tests.

(** The dictionary [parsed_module] built for one row. *)
Definition parsed_module (r : module_row) : module_dict :=
  let tests := row_tests r in
  {| m_fields :=
       <["module_name" := get (row_fields r) "module_name"]>
       (<["test_cases_run" := PInt (test_cases_run tests)]>
       (<["test_cases_passed" := PInt (test_cases_passed tests)]>
       (<["test_cases_failed" := PInt (test_cases_failed tests)]>
       (<["test_cases_skipped" := PInt (test_cases_skipped tests)]>
       (<["highest_priority_failed" := PInt (highest_priority_failed tests)]>
       (<["high_priority_failed" := PInt (high_priority_failed tests)]>
       (<["medium_priority_failed" := PInt (medium_priority_failed tests)]>
       (<["low_priority_failed" := PInt (low_priority_failed tests)]>
       (<["slack_report_link" := get (row_fields r) "slack_report_link"]>
       (<["started_at" := get (row_fields r) "started_at"]>
       (<["completed_at" := get (row_fields r) "completed_at"]>
       (<["runenv" := get (row_fields r) "runenv"]>
       (<["username" := get (row_fields r) "username"]> ∅)))))))))))));
     m_tests := Some tests |}.

(** [fetch_current_run_data], given the rows of the query response. *)
Definition fetch_current_run_data (rows : list module_row) : list module_dict :=
  map parsed_module rows.

(** The dictionary [parsed_prev_module] of [fetch_previous_run_data]. *)
Definition parsed_prev_module (r : module_row) : module_dict :=
  let tests := row_tests r in
  {| m_fields :=
       <["module_name" := get (row_fields r) "module_name"]>
       (<["test_cases_run" := PInt (test_cases_run tests)]>
       (<["test_cases_passed" := PInt (test_cases_passed tests)]>
       (<["test_cases_failed" := PInt (test_cases_failed tests)]>
       (<["test_cases_skipped" := PInt (test_cases_skipped tests)]>
       (<["started_at" := get (row_fields r) "started_at"]>
       (<["completed_at" := get (row_fields r) "completed_at"]> ∅))))));
     m_tests := Some tests |}.

(** The comparison map of [generate_html_report]:
    [for module in previous_data: prev_map[module['module_name']] = module];
    [previous_data] is [None] when there is no previous run.  A module of
    [fetch_previous_run_data] always has the key, so that the subscript is
    [get]. *)
Definition prev_map_of (previous_data : option (list module_dict)) : gmap pyval module_dict :=
  match previous_data with
  | Some (m :: ms) =>
      foldl (λ prev_map module,
               <[get (m_fields module) "module_name" := module]> prev_map)
            ∅ (m :: ms)
  | _ => ∅
  end.

(** *** Differ, per test ([generate_test_list_html]) *)

(** [test.get('name', test.get('title', dflt))] *)
Definition test_name (dflt : string) (test : dict) : pyval :=
  get_or test "name" (get_or test "title" (PStr dflt)).

(** [test.get('duration_ms', test.get('duration', 0))] *)
Definition duration_of (test : dict) : pyval :=
  get_or test "duration_ms" (get_or test "duration" (PInt 0)).

(** The map of the previous tests by name: each test of the previous module
    is stored under its name, in sequence order. *)
Definition prev_tests_map (prev_module : option module_dict) : gmap pyval dict :=
  match prev_module with
  | Some pm =>
      if module_truthy pm
      then foldl (λ acc test, <[test_name EmptyString test := test]> acc) ∅ (module_tests pm)
      else ∅
  | None => ∅
  end.

(** A time column: ["N/A"], or seconds printed as [f"{x:.2f}s"]. *)
Inductive time_cell : Type :=
| TimeNA
| TimeSeconds (secs : Q).

(** The "Time Diff" column, named after the CSS class of its span.  The
    constructors carry the variables [time_diff] and [percent_change];
    the template prints [abs(time_diff) / 1000] with two decimals after a
    sign, and [percent_change] ([abs(percent_change)] for "better") with
    one decimal; "same" is printed as [0s (0%)]. *)
Inductive time_diff_cell : Type :=
| DiffNA
| DiffWorse (time_diff : Z) (percent_change : Q)
| DiffBetter (time_diff : Z) (percent_change : Q)
| DiffSame.

Record test_row : Type := {
  row_test_name : pyval;
  row_status : pyval;
  row_priority : pyval;
  row_current_time : time_cell;
  row_prev_time : time_cell;
  row_time_diff : time_diff_cell
}.

(** [f"{ms / 1000:.2f}s"] *)
Definition seconds (ms : pyval) : result time_cell :=
  secs ← py_truediv ms (PInt 1000);
  Ok (TimeSeconds secs).

(** The block guarded by [if duration and prev_duration:]. *)
Definition time_diff_html (duration prev_duration : pyval) : result time_diff_cell :=
  if truthy duration && truthy prev_duration then
    time_diff ← py_sub duration prev_duration;
    _ ← py_truediv (PInt (Z.abs time_diff)) (PInt 1000);
    prev_positive ← py_gt prev_duration 0;
    percent_change ←
      (if (prev_positive : bool)
       then (q ← py_truediv (PInt time_diff) prev_duration;
             Ok (float_mul q (float_of_int 100)))
       else Ok 0%Q);
    if 0 <? time_diff then Ok (DiffWorse time_diff percent_change)
    else if time_diff <? 0 then Ok (DiffBetter time_diff percent_change)
    else Ok DiffSame
  else Ok DiffNA.

(** The previous-time and time-diff columns, given the matched previous
    test ([prev_tests_map.get(test_name)]). *)
Definition prev_columns (duration : pyval) (prev_test : option dict)
    : result (time_cell * time_diff_cell) :=
  match prev_test with
  | Some pt =>
      if dict_truthy pt then
        let prev_duration := duration_of pt in
        if truthy prev_duration then
          prev_time ← seconds prev_duration;
          diff ← time_diff_html duration prev_duration;
          Ok (prev_time, diff)
        else Ok (TimeNA, DiffNA)
      else Ok (TimeNA, DiffNA)
  | None => Ok (TimeNA, DiffNA)
  end.

(** One iteration of [for test in tests:]. *)
Definition test_row_for (test : dict) (prev_test : option dict) : result test_row :=
  let name := test_name "Unknown Test" test in
  let status := get_or test "status" (PStr "unknown") in
  let priority := get_or test "priority" (PStr "medium") in
  let duration := duration_of test in
  current_time ← (if truthy duration then seconds duration else Ok TimeNA);
  cols ← prev_columns duration prev_test;
  Ok {| row_test_name := name;
        row_status := status;
        row_priority := priority;
        row_current_time := current_time;
        row_prev_time := cols.1;
        row_time_diff := cols.2 |}.

Inductive test_list : Type :=
| NoTestData
| TestTable (rows : list test_row).

Definition generate_test_list_html (module : module_dict) (prev_module : option module_dict)
    : result test_list :=
  let tests := module_tests module in
  match tests with
  | [] => Ok NoTestData
  | _ :: _ =>
      let prev := prev_tests_map prev_module in
      rows ← mapM (λ test,
                test_row_for test (prev !! test_name "Unknown Test" test)) tests;
      Ok (TestTable rows)
  end.

(** *** Differ, per module (the loop of [create_html]) *)

Record module_delta : Type := {
  prev_passed : pyval;
  prev_failed : pyval;
  prev_skipped : pyval;
  passed_diff : Z;
  failed_diff : Z;
  skipped_diff : Z;
  passed_class : string;
  failed_class : string
}.

(** The block guarded by [if prev_module:]. *)
Definition module_comparison (tests_passed tests_failed tests_skipped : pyval)
    (prev_module : option module_dict) : result (option module_delta) :=
  match prev_module with
  | Some pm =>
      if module_truthy pm then
        let prev_passed := get_or (m_fields pm) "test_cases_passed" (PInt 0) in
        let prev_failed := get_or (m_fields pm) "test_cases_failed" (PInt 0) in
        let prev_skipped := get_or (m_fields pm) "test_cases_skipped" (PInt 0) in
        passed_diff ← py_sub tests_passed prev_passed;
        failed_diff ← py_sub tests_failed prev_failed;
        skipped_diff ← py_sub tests_skipped prev_skipped;
        let passed_class :=
          if 0 <? passed_diff then "better"
          else if passed_diff <? 0 then "worse" else "same" in
        let failed_class :=
          if failed_diff <? 0 then "better"
          else if 0 <? failed_diff then "worse" else "same" in
        Ok (Some {| prev_passed := prev_passed;
                    prev_failed := prev_failed;
                    prev_skipped := prev_skipped;
                    passed_diff := passed_diff;
                    failed_diff := failed_diff;
                    skipped_diff := skipped_diff;
                    passed_class := passed_class;
                    failed_class := failed_class |})
      else Ok None
  | None => Ok None
  end.

(** [f"{n:+d}"] *)
Definition format_signed (n : Z) : string :=
  if 0 <=? n then "+" +:+ pretty n else pretty n.

(** The double-quote character of the markup. *)
Definition dq : string := String (Ascii.ascii_of_N 34) EmptyString.

(** One [comparison-item] of the block. *)
Definition comparison_item (label class : string) (prev cur : pyval) (diff : Z)
    : string :=
  "<div class=" +:+ dq +:+ "comparison-item" +:+ dq +:+ "><span>" +:+ label
  +:+ ":</span><span class=" +:+ dq +:+ "comparison-change " +:+ class +:+ dq
  +:+ ">" +:+ py_str prev +:+ " → " +:+ py_str cur
  +:+ " (" +:+ format_signed diff +:+ ")</span></div>".

(** [comparison_html]: empty unless a previous module was compared; the
    white space between the tags of the template is left out. *)
Definition comparison_html (tests_passed tests_failed tests_skipped : pyval)
    (delta : option module_delta) : string :=
  match delta with
  | None => EmptyString
  | Some d =>
      "<div class=" +:+ dq +:+ "comparison" +:+ dq +:+ ">"
      +:+ "<div class=" +:+ dq +:+ "comparison-title" +:+ dq
      +:+ ">📊 Comparison with Previous Run</div>"
      +:+ "<div class=" +:+ dq +:+ "comparison-stats" +:+ dq +:+ ">"
      +:+ comparison_item "Passed" (passed_class d) (prev_passed d) tests_passed
            (passed_diff d)
      +:+ comparison_item "Failed" (failed_class d) (prev_failed d) tests_failed
            (failed_diff d)
      +:+ comparison_item "Skipped" "same" (prev_skipped d) tests_skipped
            (skipped_diff d)
      +:+ "</div></div>"
  end.

(** [module['module_name']] *)
Definition module_name_of (module : module_dict) : result pyval :=
  match m_fields module !! "module_name" with
  | Some v => Ok v
  | None => Raise KeyError
  end.

(** The status icon of a module card. *)
Definition status_class (tests_run tests_passed tests_failed : pyval)
    : result string :=
  if py_eq tests_failed (PInt 0) && py_eq tests_passed tests_run
  then Ok "passed"
  else failed ← py_gt tests_failed 0;
       Ok (if (failed : bool) then "failed" else "partial").

(** What one iteration of [for module in modules:] interpolates into the
    card: the counts, the status icon, the comparison block and the test
    table.  (The element id and the title-cased display name, which are
    string transformations of a string [module_name], and the Slack link
    are left out.) *)
Record module_card : Type := {
  card_module_name : pyval;
  card_tests_run : pyval;
  card_tests_passed : pyval;
  card_tests_failed : pyval;
  card_tests_skipped : pyval;
  card_status_class : string;
  card_delta : option module_delta;
  card_comparison_html : string;
  card_test_list : test_list
}.

Definition module_card_for (module : module_dict) (prev_map : gmap pyval module_dict)
    : result module_card :=
  module_name ← module_name_of module;
  let tests_run := get_or (m_fields module) "test_cases_run" (PInt 0) in
  let tests_passed := get_or (m_fields module) "test_cases_passed" (PInt 0) in
  let tests_failed := get_or (m_fields module) "test_cases_failed" (PInt 0) in
  let tests_skipped := get_or (m_fields module) "test_cases_skipped" (PInt 0) in
  status ← status_class tests_run tests_passed tests_failed;
  let prev_module := prev_map !! module_name in
  delta ← module_comparison tests_passed tests_failed tests_skipped prev_module;
  _ ← (match module_name with PStr _ => Ok () | _ => Raise AttributeError end);
  tests ← generate_test_list_html module prev_module;
  Ok {| card_module_name := module_name;
        card_tests_run := tests_run;
        card_tests_passed := tests_passed;
        card_tests_failed := tests_failed;
        card_tests_skipped := tests_skipped;
        card_status_class := status;
        card_delta := delta;
        card_comparison_html :=
          comparison_html tests_passed tests_failed tests_skipped delta;
        card_test_list := tests |}.

(** The data that [create_html] interpolates into the document. *)
Record html_report : Type := {
  report_summary : summary;
  report_run_env : pyval;
  report_cards : list module_card
}.

(** The overall statistics at the head of [create_html]. *)
Definition overall_stats (modules : list module_dict) : result summary :=
  summarize (map m_fields modules).

(** [modules[0].get('runenv', 'Unknown') if modules else 'Unknown'] *)
Definition run_env (modules : list module_dict) : pyval :=
  first_runenv (map m_fields modules).

(** [Environment: {run_env}] in the header of the document. *)
Definition run_env_label (modules : list module_dict) : string :=
  py_str (run_env modules).

Definition create_html (modules : list module_dict) (prev_map : gmap pyval module_dict)
    : result html_report :=
  stats ← overall_stats modules;
  let env := run_env modules in
  cards ← mapM (λ module, module_card_for module prev_map) modules;
  Ok {| report_summary := stats;
        report_run_env := env;
        report_cards := cards |}.


(** *** Delivery and process entry ([SlackNotifier], [main]) *)

Record SlackNotifier : Type := {
  bot_token : option string;
  channel_id : string;
  is_enabled : bool
}.

(** [SlackNotifier()], given [SLACK_BOT_TOKEN] and [SLACK_CHANNEL_ID]. *)
Definition SlackNotifier_init (env_token env_channel : option string)
    : M SlackNotifier :=
  let self := {| bot_token := env_token;
                 channel_id := default "xyne-automation" env_channel;
                 is_enabled := opt_truthy env_token |} in
  _ ← (if is_enabled self then mret ()
       else print "⚠️ Slack notifications disabled: SLACK_BOT_TOKEN not found in environment");
  mret self.

(** What [upload_html_to_slack_thread] returns: the permalink entry of the
    reply (possibly [None]), or [False]. *)
Inductive upload_result : Type :=
| Permalink (url : option string)
| UploadFalse.

Definition upload_truthy (r : upload_result) : bool :=
  match r with
  | Permalink url => opt_truthy url
  | UploadFalse => false
  end.

(** One message of [conversations.history]: [msg.get('text', '')], the
    empty string when the entry is missing, and [msg.get('ts')]. *)
Record message : Type := {
  msg_text : pyval;
  msg_ts : option string
}.

(** [cron_run_id in text and 'PDF' in text]: on a string [in] looks for a
    substring; null and a number are not containers. *)
Definition text_matches (cron_run_id : string) (text : pyval) : result bool :=
  match text with
  | PStr s => Ok (contains cron_run_id s && contains "PDF" s)
  | _ => Raise TypeError
  end.

Record history_json : Type := {
  history_ok : bool;
  history_error : string;
  history_messages : list message
}.

Section Delivery.

(** The two HTTP calls, [requests.post(url, ...)] to [files.upload] and
    [requests.get(url, ...)] to [conversations.history]. *)
Variable requests_post : M (response upload_json).
Variable requests_get : M (response history_json).

Definition upload_html_to_slack_thread (self : SlackNotifier)
    (html_path cron_run_id : string) (thread_ts : option string)
    : M upload_result :=
  if negb (is_enabled self) then
    _ ← print "📱 Slack notification skipped: Not configured";
    mret UploadFalse
  else
    try_except
      (_ ← open_rb html_path;
       _ ← (if opt_truthy thread_ts
            then print ("📤 Uploading HTML report to Slack thread: "
                        +:+ default "None" thread_ts)
            else print ("📤 Uploading HTML report to Slack channel: "
                        +:+ channel_id self));
       response ← requests_post;
       if resp_ok response then
         result ← response_json response;
         if upload_ok result then
           _ ← print "✅ HTML report uploaded to Slack successfully";
           permalink ← lift (upload_permalink result);
           _ ← (if opt_truthy permalink
                then print ("🔗 Slack file URL: " +:+ default "None" permalink)
                else mret ());
           permalink ← lift (upload_permalink result);
           mret (Permalink permalink)
         else
           _ ← print ("❌ Slack API error: " +:+ upload_error result);
           mret UploadFalse
       else
         _ ← print ("❌ HTTP error uploading to Slack: "
                    +:+ pretty (resp_status_code response) +:+ " "
                    +:+ resp_text response);
         mret UploadFalse)
      (λ e, _ ← print ("❌ Exception uploading to Slack: " +:+ exn_str e);
            mret UploadFalse).

(** [for msg in messages: if cron_run_id in text and 'PDF' in text: ...]:
    the message at which the loop returns, if any. *)
Fixpoint find_message (cron_run_id : string) (messages : list message)
    : result (option message) :=
  match messages with
  | [] => Ok None
  | msg :: rest =>
      found ← text_matches cron_run_id (msg_text msg);
      if (found : bool) then Ok (Some msg)
      else find_message cron_run_id rest
  end.

Definition find_pdf_message_ts (self : SlackNotifier) (cron_run_id : string)
    : M (option string) :=
  if negb (is_enabled self) then mret None
  else
    try_except
      (_ ← print ("🔍 Searching for PDF message with CRON_RUN_ID: " +:+ cron_run_id);
       response ← requests_get;
       if resp_ok response then
         result ← response_json response;
         if history_ok result then
           found ← lift (find_message cron_run_id (history_messages result));
           match found with
           | Some msg =>
               _ ← print ("✅ Found PDF message at timestamp: "
                          +:+ default "None" (msg_ts msg));
               mret (msg_ts msg)
           | None =>
               _ ← print "⚠️ PDF message not found in recent messages";
               mret None
           end
         else
           _ ← print ("❌ Slack API error: " +:+ history_error result);
           mret None
       else
         _ ← print ("❌ HTTP error: " +:+ pretty (resp_status_code response)
                    +:+ " " +:+ resp_text response);
         mret None)
      (λ e, _ ← print ("❌ Exception finding PDF message: " +:+ exn_str e);
            mret None).

(** [generator.generate_html_report(cron_run_id)]: the path of the file it
    wrote, or [None]. *)
Variable generate_html_report : string → M (option string).

(** The environment: [SLACK_BOT_TOKEN], [SLACK_CHANNEL_ID], [CRON_RUN_ID]. *)
Variable env_token env_channel env_cron_run_id : option string.

(** [main()], with [argv] standing for [sys.argv]. *)
Definition main (argv : list string) : M unit :=
  try_except
    (let cron_run_id :=
       match argv with
       | _ :: arg :: _ => Some arg
       | _ => env_cron_run_id
       end in
     match cron_run_id with
     | Some cron_run_id =>
         if str_truthy cron_run_id then
           output_path ← generate_html_report cron_run_id;
           if opt_truthy output_path then
             let output_path := default EmptyString output_path in
             _ ← print ("✅ HTML report generated successfully: " +:+ output_path);
             _ ← try_except
                   (slack_notifier ← SlackNotifier_init env_token env_channel;
                    pdf_message_ts ← find_pdf_message_ts slack_notifier cron_run_id;
                    slack_url ← upload_html_to_slack_thread slack_notifier
                                  output_path cron_run_id pdf_message_ts;
                    if upload_truthy slack_url
                    then print "✅ HTML report uploaded to Slack successfully"
                    else print "⚠️ Failed to upload HTML report to Slack, but generation was successful")
                   (λ slack_error,
                      _ ← print ("⚠️ Error uploading HTML to Slack: "
                                 +:+ exn_str slack_error);
                      print "📄 HTML generation was successful, continuing...");
             _ ← print ("HTML_OUTPUT_PATH:" +:+ output_path);
             sys_exit 0
           else sys_exit 1
         else
           _ ← print "❌ Error: CRON_RUN_ID not provided. Use as argument or environment variable.";
           sys_exit 1
     | None =>
         _ ← print "❌ Error: CRON_RUN_ID not provided. Use as argument or environment variable.";
         sys_exit 1
     end)
    (λ e, _ ← print ("❌ Error in main: " +:+ exn_str e);
          sys_exit 1).

End Delivery.

End Html.

(** ** The printable (PDF) report generator *)

Module Pdf.

(** [calculate_summary(records)], on the rows of [test_run_summary]. *)
Definition calculate_summary (records : list dict) : result summary :=
  summarize records.

(** [records[0].get('runenv', 'Unknown')], reached only when [records] is
    not empty (an empty or missing record list makes [generate_pdf_report]
    return [None] before). *)
Definition environment (records : list dict) : option pyval :=
  match records with
  | record :: _ => Some (get_or record "runenv" (PStr "Unknown"))
  | [] => None
  end.

(** [Environment: {environment}] in the secondary header of the document. *)
Definition environment_label (records : list dict) : option string :=
  py_str <$> environment records.

(** *** Delivery and process entry ([SlackNotifier], [main]) *)

Record SlackNotifier : Type := {
  bot_token : option string;
  channel_id : string;
  is_enabled : bool
}.

Definition SlackNotifier_init (env_token env_channel : option string)
    : M SlackNotifier :=
  let self := {| bot_token := env_token;
                 channel_id := default "xyne-automation" env_channel;
                 is_enabled := opt_truthy env_token |} in
  _ ← (if is_enabled self then mret ()
       else print "⚠️ Slack notifications disabled: SLACK_BOT_TOKEN not found in environment");
  mret self.

Section Delivery.

Variable requests_post : M (response upload_json).

Definition upload_file_to_slack (self : SlackNotifier) (file_path : string)
    : M bool :=
  try_except
    (_ ← open_rb file_path;
     _ ← print ("📤 Uploading PDF report to Slack channel: " +:+ channel_id self);
     response ← requests_post;
     if resp_ok response then
       result ← response_json response;
       if upload_ok result then
         _ ← print "✅ PDF report uploaded to Slack successfully";
         permalink ← lift (upload_permalink result);
         _ ← (if opt_truthy permalink
              then print ("🔗 Slack file URL: " +:+ default "None" permalink)
              else mret ());
         mret true
       else
         _ ← print ("❌ Slack API error: " +:+ upload_error result);
         mret false
     else
       _ ← print ("❌ HTTP error uploading to Slack: "
                  +:+ pretty (resp_status_code response) +:+ " "
                  +:+ resp_text response);
       mret false)
    (λ e, _ ← print ("❌ Exception uploading to Slack: " +:+ exn_str e);
          mret false).

(** The message text is assembled from [summary] and [environment] and
    handed to the upload; building it reads [summary['total_failed'] > 0]
    and [summary['total_skipped'] > 0], which cannot fail on a [summary]. *)
Definition send_pdf_notification (self : SlackNotifier)
    (pdf_path cron_run_id : string) (summary : summary) (environment : pyval)
    : M bool :=
  if negb (is_enabled self) then
    _ ← print "📱 Slack notification skipped: Not configured";
    mret false
  else
    try_except
      (upload_file_to_slack self pdf_path)
      (λ e, _ ← print ("❌ Error sending Slack notification: " +:+ exn_str e);
            mret false).

(** [generator.generate_pdf_report(cron_run_id)] and
    [generator.fetch_report_data(cron_run_id)]. *)
Variable generate_pdf_report : string → M (option string).
Variable fetch_report_data : string → M (option (list dict)).

Variable env_token env_channel env_cron_run_id : option string.

Definition main (argv : list string) : M unit :=
  try_except
    (let cron_run_id :=
       match argv with
       | _ :: arg :: _ => Some arg
       | _ => env_cron_run_id
       end in
     match cron_run_id with
     | Some cron_run_id =>
         if str_truthy cron_run_id then
           output_path ← generate_pdf_report cron_run_id;
           if opt_truthy output_path then
             let output_path := default EmptyString output_path in
             _ ← print ("✅ PDF report generated successfully: " +:+ output_path);
             _ ← try_except
                   (_ ← print "📤 Sending PDF report to Slack...";
                    records ← fetch_report_data cron_run_id;
                    match records with
                    | Some (record :: rest) =>
                        summary ← lift (calculate_summary (record :: rest));
                        let environment := get_or record "runenv" (PStr "Unknown") in
                        slack_notifier ← SlackNotifier_init env_token env_channel;
                        slack_success ← send_pdf_notification slack_notifier
                                          output_path cron_run_id summary environment;
                        if (slack_success : bool)
                        then print "✅ PDF report sent to Slack successfully"
                        else print "⚠️ Failed to send PDF report to Slack, but PDF generation was successful"
                    | _ =>
                        print "⚠️ Could not fetch data for Slack notification, but PDF generation was successful"
                    end)
                   (λ slack_error,
                      _ ← print ("⚠️ Error sending PDF to Slack: "
                                 +:+ exn_str slack_error);
                      print "📄 PDF generation was successful, continuing...");
             _ ← print ("PDF_OUTPUT_PATH:" +:+ output_path);
             sys_exit 0
           else sys_exit 1
         else
           _ ← print "❌ Error: CRON_RUN_ID not provided. Use as argument or environment variable.";
           sys_exit 1
     | None =>
         _ ← print "❌ Error: CRON_RUN_ID not provided. Use as argument or environment variable.";
         sys_exit 1
     end)
    (λ e, _ ← print ("❌ Error in main: " +:+ exn_str e);
          sys_exit 1).

End Delivery.

End Pdf.

(** ** The specification's side of the comparisons *)

Module AggregatorSpec.
Import Html.

(** The recognised statuses and priorities of the data model. *)
Definition recognized_status (t : dict) : bool :=
  status_is "passed" t || status_is "failed" t || status_is "skipped" t.

(** The number of outcomes whose status is none of the three. *)
Definition unknown_count (tests : list dict) : Z :=
  count_if (λ t, negb (recognized_status t)) tests.

Definition recognized_priority (t : dict) : bool :=
  py_eq (get t "priority") (PStr "highest")
  || py_eq (get t "priority") (PStr "high")
  || py_eq (get t "priority") (PStr "medium")
  || py_eq (get t "priority") (PStr "low").

Definition priority_failed_total (tests : list dict) : Z :=
  highest_priority_failed tests + high_priority_failed tests
  + medium_priority_failed tests + low_priority_failed tests.

End AggregatorSpec.

Module PassRateSpec.

(** The specification's [round(100 * totalPassed / totalTests)], [0] when
    [totalTests == 0]: the quotient is the exact rational, rounded to the
    nearest integer, to the even one on a tie (Python's [round]). *)
Definition spec_pass_rate (total_passed total_tests : Z) : Z :=
  if total_tests =? 0 then 0
  else Qround_half_even (inject_Z (100 * total_passed) / inject_Z total_tests).

(** The same with ties rounded up, as in schoolbook rounding. *)
Definition spec_pass_rate_half_up (total_passed total_tests : Z) : Z :=
  if total_tests =? 0 then 0
  else Qfloor (inject_Z (100 * total_passed) / inject_Z total_tests + (1 # 2)).

(** [100 * total_passed / total_tests] lies exactly halfway between two
    integers. *)
Definition is_tie (total_passed total_tests : Z) : Prop :=
  ∃ k : Z, 200 * total_passed = (2 * k + 1) * total_tests.

End PassRateSpec.

Module DifferSpec.
Import Html.

(** The specification's first-match policy: the first outcome of the
    previous sequence that carries the name. *)
Fixpoint first_match (name : pyval) (prev_tests : list dict) : option dict :=
  match prev_tests with
  | [] => None
  | t :: rest =>
      if py_eq (test_name EmptyString t) name then Some t
      else first_match name rest
  end.

(** The last outcome of the previous sequence that carries the name. *)
Definition last_match (name : pyval) (prev_tests : list dict) : option dict :=
  first_match name (reverse prev_tests).

(** The specification's TestDelta of a pair whose durations are both
    available: the signed difference and its classification. *)
Definition spec_classification (duration_delta : Z) : string :=
  if 0 <? duration_delta then "worse"
  else if duration_delta <? 0 then "better" else "same".

(** The classification that a rendered cell displays. *)
Definition cell_classification (c : time_diff_cell) : string :=
  match c with
  | DiffNA => "not-applicable"
  | DiffWorse _ _ => "worse"
  | DiffBetter _ _ => "better"
  | DiffSame => "same"
  end.

(** A test outcome with integer durations: [duration_ms] recorded or not. *)
Definition timed_test (name : string) (duration_ms : option Z) : dict :=
  match duration_ms with
  | Some ms => {[ "name" := PStr name; "duration_ms" := PInt ms ]}
  | None => {[ "name" := PStr name ]}
  end.

End DifferSpec.

(** ** Loading the [.env] file ([load_env_file], in both generators) *)

Module Env.

(** A [str] read from the file is the sequence of its code points; [35] is
    ['#'], [61] is ['='], [39] and [34] are the two quote characters. *)
Abbreviation str := (list N).

(** The characters that [str.strip()] removes: those of [str.isspace]. *)
Definition is_space (c : N) : bool :=
  ((0x9 <=? c) && (c <=? 0xD) || (0x1C <=? c) && (c <=? 0x20)
   || (c =? 0x85) || (c =? 0xA0) || (c =? 0x1680)
   || (0x2000 <=? c) && (c <=? 0x200A) || (c =? 0x2028) || (c =? 0x2029)
   || (c =? 0x202F) || (c =? 0x205F) || (c =? 0x3000))%N.

(** The characters that [value.strip(...)] is given to remove: the single
    and the double quote. *)
Definition is_quote (c : N) : bool := ((c =? 39) || (c =? 34))%N.

Fixpoint lstrip (chars : N → bool) (s : str) : str :=
  match s with
  | c :: s' => if chars c then lstrip chars s' else s
  | [] => []
  end.

Definition rstrip (chars : N → bool) (s : str) : str :=
  reverse (lstrip chars (reverse s)).

(** [s.strip()] and [s.strip(chars)] *)
Definition strip (chars : N → bool) (s : str) : str :=
  rstrip chars (lstrip chars s).

(** [s.startswith(c)] for a one-character prefix. *)
Definition startswith (c : N) (s : str) : bool :=
  match s with
  | c' :: _ => (c' =? c)%N
  | [] => false
  end.

(** [key, value = s.split(sep, 1)] for an [s] in which [sep] occurs: the
    part before the first [sep] and the part after it. *)
Fixpoint split_once (sep : N) (s : str) : str * str :=
  match s with
  | [] => ([], [])
  | c :: s' =>
      if (c =? sep)%N then ([], s')
      else let '(key, value) := split_once sep s' in (c :: key, value)
  end.

(** The body of [for line in f:]: the assignment that the line makes, if
    it makes one. *)
Definition assignment (line : str) : option (str * str) :=
  let line := strip is_space line in
  if negb (bool_decide (line = [])) && negb (startswith 35 line)
     && bool_decide (61%N ∈ line)
  then
    let '(key, value) := split_once 61 line in
    let value := strip is_quote value in
    Some (key, value)
  else None.

Section Environ.

(** [os.environ[key] = value] hands the pair to the platform, which
    refuses some names and values (the empty name, an embedded NUL) with an
    exception; [refused key value] is that exception. *)
Variable refused : str → str → option exn.

Definition environ_setitem (key value : str) (environ : gmap str str)
    : result (gmap str str) :=
  match refused key value with
  | Some e => Raise e
  | None => Ok (<[key := value]> environ)
  end.

(** [load_env_file()], given the lines of an existing [.env] file and
    [os.environ]. *)
Fixpoint load_env_file (lines : list str) (environ : gmap str str)
    : result (gmap str str) :=
  match lines with
  | [] => Ok environ
  | line :: lines' =>
      environ' ← (match assignment line with
                  | Some (key, value) => environ_setitem key value environ
                  | None => Ok environ
                  end);
      load_env_file lines' environ'
  end.

End Environ.

(** The value that the last line assigning [name] gives it. *)
Fixpoint last_assigned (name : str) (lines : list str) : option str :=
  match lines with
  | [] => None
  | line :: lines' =>
      match last_assigned name lines' with
      | Some value => Some value
      | None =>
          match assignment line with
          | Some (key, value) => if bool_decide (key = name) then Some value else None
          | None => None
          end
      end
  end.

(** The code points of a literal of printable ASCII characters. *)
Definition of_string (s : string) : str :=
  Ascii.N_of_ascii <$> String.list_ascii_of_string s.

End Env.

(** ** Well-formed report data *)

Module ReportSpec.
Import Html.



(** Every count that the reducer reads from the record is an integer or
    is missing. *)
Definition counts_are_integers (record : dict) : Prop :=
  ∀ key, key ∈ ["test_cases_run"; "test_cases_passed"; "test_cases_failed";
                "test_cases_skipped"] →
         ∃ z : Z, get_or record key (PInt 0) = PInt z.

(** The sum of the integer counts that the records hold under [key], a
    missing count being 0. *)
Definition total (key : string) (records : list dict) : Z :=
  foldr Z.add 0
    ((λ record, match get_or record key (PInt 0) with
                | PInt z => z
                | _ => 0
                end) <$> records).

(** The computation raises. *)
Definition raises {A : Type} (r : result A) : Prop := ∃ e, r = Raise e.

End ReportSpec.

(** ** The exit status of the process entries *)

Module EntrySpec.

(** The exit status that the run id and the generator determine. *)
Definition expected_status (cron_run_id : option string)
    (generated : string → result (option string)) : Z :=
  match cron_run_id with
  | Some id =>
      if str_truthy id then
        match generated id with
        | Ok path => if opt_truthy path then 0 else 1
        | Raise _ => 1
        end
      else 1
  | None => 1
  end.

(** A message that the search passes over: its text is a string without
    the run id or without the word PDF. *)
Definition passed_over (cron_run_id : string) (msg : Html.message) : Prop :=
  ∃ text, Html.msg_text msg = PStr text
          ∧ contains cron_run_id text && contains "PDF" text = false.

(** A message that the search is looking for: its text is a string with
    both the run id and the word PDF. *)
Definition sought (cron_run_id : string) (msg : Html.message) : Prop :=
  ∃ text, Html.msg_text msg = PStr text
          ∧ contains cron_run_id text && contains "PDF" text = true.

(** A message whose text is no string: null, or a number. *)
Definition without_text (msg : Html.message) : Prop :=
  ∀ text, Html.msg_text msg ≠ PStr text.

End EntrySpec.

(** ** The module table of the printable report ([create_pdf]) *)

Module PdfTable.

(** The colours that [create_pdf] defines for the table. *)
Inductive colour : Type :=
| lightorange
| lightred
| light_red
| lightgreen
| very_light_blue
| muted_orange
| muted_yellow.

(** A cell of [table_data]: a string, or one of the three paragraphs. *)
Inductive cell : Type :=
| Text (s : string)
| ModuleParagraph (formatted_module : string)
| LinkParagraph (slack_report_link : string)
| DashParagraph.

(** [style.add('BACKGROUND', (col, row), (col, row), colour)] *)
Record background : Type := {
  bg_col : Z;
  bg_row : Z;
  bg_colour : colour
}.

Definition headers : list cell :=
  [Text "Module"; Text "Total Run"; Text "Passed"; Text "Failed"; Text EmptyString;
   Text EmptyString; Text EmptyString; Text "Skipped"; Text "Report"].

Definition sub_headers : list cell :=
  [Text EmptyString; Text EmptyString; Text EmptyString; Text "HHP"; Text "HP";
   Text "MP"; Text "LP"; Text EmptyString; Text EmptyString].

Definition col_widths : list Z := [100; 70; 50; 40; 40; 40; 40; 50; 70].

Section Table.

(** [s.replace('-', ' ').replace('_', ' ').title()] and [int(s)] on a
    string: the library functions are taken as given. *)
Variable title_case : string → string.
Variable int_of_str : string → result Z.

(** [int(x)] *)
Definition py_int (x : pyval) : result Z :=
  match x with
  | PInt z => Ok z
  | PStr s => int_of_str s
  | PNone => Raise TypeError
  end.

(** The row that one iteration of the first [for record in records:]
    appends to [table_data]. *)
Definition data_row (record : dict) : result (list cell) :=
  let module_name := get_or record "module_name" (PStr EmptyString) in
  let test_cases_run := get_or record "test_cases_run" (PInt 0) in
  let test_cases_passed := get_or record "test_cases_passed" (PInt 0) in
  let test_cases_skipped := get_or record "test_cases_skipped" (PInt 0) in
  let highest_priority_failed := get_or record "highest_priority_failed" (PInt 0) in
  let high_priority_failed := get_or record "high_priority_failed" (PInt 0) in
  let medium_priority_failed := get_or record "medium_priority_failed" (PInt 0) in
  let low_priority_failed := get_or record "low_priority_failed" (PInt 0) in
  let slack_report_link := get record "slack_report_link" in
  formatted_module ←
    match module_name with
    | PStr s => Ok (ModuleParagraph (title_case s))
    | _ => Raise AttributeError
    end;
  let slack_link :=
    if truthy slack_report_link then LinkParagraph (py_str slack_report_link)
    else DashParagraph in
  Ok [formatted_module;
      Text (py_str test_cases_run);
      Text (py_str test_cases_passed);
      Text (py_str highest_priority_failed);
      Text (py_str high_priority_failed);
      Text (py_str medium_priority_failed);
      Text (py_str low_priority_failed);
      Text (py_str test_cases_skipped);
      slack_link].

(** [table_data] once the loop is over. *)
Definition table_data (records : list dict) : result (list (list cell)) :=
  rows ← mapM data_row records;
  Ok (headers :: sub_headers :: rows).

(** The colour of the module-name cell: the [if]/[elif] chain over the
    four priority counts, each converted only when it is reached. *)
Definition name_colour (record : dict) : result colour :=
  highest ← py_int (get_or record "highest_priority_failed" (PInt 0));
  if 0 <? highest then Ok light_red
  else
    high ← py_int (get_or record "high_priority_failed" (PInt 0));
    if 0 <? high then Ok lightred
    else
      medium ← py_int (get_or record "medium_priority_failed" (PInt 0));
      if 0 <? medium then Ok muted_orange
      else
        low ← py_int (get_or record "low_priority_failed" (PInt 0));
        if 0 <? low then Ok lightorange
        else Ok very_light_blue.

(** The [style.add] calls of one iteration of
    [for i, record in enumerate(records, start=2):], in order. *)
Definition row_backgrounds (i : Z) (record : dict) : result (list background) :=
  name ← name_colour record;
  Ok [ {| bg_col := 0; bg_row := i; bg_colour := name |};
       {| bg_col := 2; bg_row := i; bg_colour := lightgreen |};
       {| bg_col := 3; bg_row := i; bg_colour := light_red |};
       {| bg_col := 4; bg_row := i; bg_colour := lightred |};
       {| bg_col := 5; bg_row := i; bg_colour := muted_orange |};
       {| bg_col := 6; bg_row := i; bg_colour := lightorange |};
       {| bg_col := 7; bg_row := i; bg_colour := muted_yellow |};
       {| bg_col := 1; bg_row := i; bg_colour := very_light_blue |};
       {| bg_col := 8; bg_row := i; bg_colour := very_light_blue |} ].

(** All the [style.add] calls of the loop, from row index [i] on. *)
Fixpoint backgrounds_from (i : Z) (records : list dict) : result (list background) :=
  match records with
  | [] => Ok []
  | record :: records' =>
      row ← row_backgrounds i record;
      rest ← backgrounds_from (i + 1) records';
      Ok (row ++ rest)
  end.

Definition backgrounds (records : list dict) : result (list background) :=
  backgrounds_from 2 records.

End Table.

(** The number of [BACKGROUND] commands that paint the cell. *)
Definition painted (col row : Z) (commands : list background) : Z :=
  count_if (λ b, (bg_col b =? col) && (bg_row b =? row)) commands.

End PdfTable.

(** ** Element ids of the module cards *)

Module Markup.

(** The characters ['-'], [' '] and ['_']. *)
Definition hyphen : Ascii.ascii := Ascii.ascii_of_N 45.
Definition space : Ascii.ascii := Ascii.ascii_of_N 32.
Definition underscore : Ascii.ascii := Ascii.ascii_of_N 95.

(** [s.replace(old, new)] for one-character [old] and [new], on the bytes
    of the string: the characters replaced here are ASCII, and an ASCII
    byte stands for itself in UTF-8. *)
Fixpoint replace_char (old new : Ascii.ascii) (s : string) : string :=
  match s with
  | EmptyString => EmptyString
  | String c s' =>
      String (if Ascii.eqb c old then new else c) (replace_char old new s')
  end.

(** [module_id = module_name.replace('-', '_').replace(' ', '_')], from
    which the card takes [header_{module_id}], [details_{module_id}] and
    [chevron_{module_id}]. *)
Definition module_id (module_name : string) : string :=
  replace_char space underscore (replace_char hyphen underscore module_name).

(** A hyphen, a space or an underscore. *)
Definition is_separator (c : Ascii.ascii) : bool :=
  Ascii.eqb c hyphen || Ascii.eqb c space || Ascii.eqb c underscore.

(** The two names are the same up to their separators. *)
Fixpoint same_up_to_separators (s1 s2 : string) : bool :=
  match s1, s2 with
  | EmptyString, EmptyString => true
  | String c1 s1', String c2 s2' =>
      (Ascii.eqb c1 c2 || is_separator c1 && is_separator c2)
      && same_up_to_separators s1' s2'
  | _, _ => false
  end.

End Markup.

(** ** Decoding the reply of the module query ([fetch_current_run_data]) *)

Module Fetch.

(** A decoded JSON value: [None], a [bool], an [int], a [float] (a number
    written with a fraction or an exponent), a [str], a [list] or a [dict]
    (its entries in order, the first entry of a key being the one the
    dictionary holds). *)
#[local] Unset Elimination Schemes.
Inductive json : Type :=
| JNull
| JBool (b : bool)
| JInt (z : Z)
| JFloat (x : float)
| JStr (s : string)
| JList (items : list json)
| JObj (entries : list (string * json)).
#[local] Set Elimination Schemes.

(** Truth value ([if x:], [x and ...]). *)
Definition jtruthy (x : json) : bool :=
  match x with
  | JNull => false
  | JBool b => b
  | JInt z => negb (z =? 0)
  | JFloat x => negb (is_zero x)
  | JStr s => negb (bool_decide (s = EmptyString))
  | JList items => match items with [] => false | _ :: _ => true end
  | JObj entries => match entries with [] => false | _ :: _ => true end
  end.

Fixpoint assoc (key : string) (entries : list (string * json)) : option json :=
  match entries with
  | [] => None
  | (k, v) :: rest => if String.eqb k key then Some v else assoc key rest
  end.

(** [x.get(key, dflt)]: only a [dict] has the method. *)
Definition jget (x : json) (key : string) (dflt : json) : result json :=
  match x with
  | JObj entries => Ok (default dflt (assoc key entries))
  | _ => Raise AttributeError
  end.

(** [len(x)]; the length of a string is used only for whether it is 0. *)
Definition jlen (x : json) : result Z :=
  match x with
  | JList items => Ok (len items)
  | JObj entries => Ok (len entries)
  | JStr s => Ok (Z.of_nat (String.length s))
  | _ => Raise TypeError
  end.

(** What [for t in x] visits: the items of a list, the keys of a
    dictionary, the characters of a string. *)
Definition jiter (x : json) : result (list json) :=
  match x with
  | JList items => Ok items
  | JObj entries => Ok ((λ e, JStr e.1) <$> entries)
  | JStr s => Ok ((λ c, JStr (String c EmptyString)) <$> String.list_ascii_of_string s)
  | _ => Raise TypeError
  end.

(** [x == s] for a string literal [s]. *)
Definition is_str (s : string) (x : json) : bool :=
  match x with
  | JStr s' => String.eqb s' s
  | _ => false
  end.

(** [sum(1 for t in tests if cond(t))] *)
Fixpoint jcount (cond : json → result bool) (items : list json) : result Z :=
  match items with
  | [] => Ok 0
  | t :: rest =>
      b ← cond t;
      n ← jcount cond rest;
      Ok ((if (b : bool) then 1 else 0) + n)
  end.

(** [t.get('status') == status] *)
Definition has_status (status : string) (t : json) : result bool :=
  v ← jget t "status" JNull;
  Ok (is_str status v).

(** [t.get('status') == 'failed' and t.get('priority') == priority] *)
Definition failed_with_priority (priority : string) (t : json) : result bool :=
  v ← jget t "status" JNull;
  if is_str "failed" v then
    p ← jget t "priority" JNull;
    Ok (is_str priority p)
  else Ok false.

Section Decode.

(** [json.loads(s)] *)
Variable json_loads : string → result json.

(** One iteration of [for module in response_data:]. *)
Definition parse_module (module : json) : result json :=
  run_data ← jget module "run_data" (JObj []);
  run_data ← (match run_data with
              | JStr s => json_loads s
              | _ => Ok run_data
              end);
  tests ← jget run_data "tests" (JList []);
  test_cases_run ← jlen tests;
  items ← jiter tests;
  test_cases_passed ← jcount (has_status "passed") items;
  test_cases_failed ← jcount (has_status "failed") items;
  test_cases_skipped ← jcount (has_status "skipped") items;
  highest_priority_failed ← jcount (failed_with_priority "highest") items;
  high_priority_failed ← jcount (failed_with_priority "high") items;
  medium_priority_failed ← jcount (failed_with_priority "medium") items;
  low_priority_failed ← jcount (failed_with_priority "low") items;
  module_name ← jget module "module_name" JNull;
  slack_report_link ← jget module "slack_report_link" JNull;
  started_at ← jget module "started_at" JNull;
  completed_at ← jget module "completed_at" JNull;
  runenv ← jget module "runenv" JNull;
  username ← jget module "username" JNull;
  Ok (JObj [ ("module_name", module_name);
             ("test_cases_run", JInt test_cases_run);
             ("test_cases_passed", JInt test_cases_passed);
             ("test_cases_failed", JInt test_cases_failed);
             ("test_cases_skipped", JInt test_cases_skipped);
             ("highest_priority_failed", JInt highest_priority_failed);
             ("high_priority_failed", JInt high_priority_failed);
             ("medium_priority_failed", JInt medium_priority_failed);
             ("low_priority_failed", JInt low_priority_failed);
             ("slack_report_link", slack_report_link);
             ("started_at", started_at);
             ("completed_at", completed_at);
             ("runenv", runenv);
             ("username", username);
             ("tests", tests) ]).

(** The body of the [try:], from [result = self.execute_query(query)] on;
    [reply] is that [result]. *)
Definition parsed_modules (reply : json) : result (list json) :=
  response ← jget reply "response" JNull;
  found ← (if jtruthy response
           then n ← jlen response; Ok (0 <? n)
           else Ok false);
  if (found : bool) then
    match response with
    | JList (module :: modules) => mapM parse_module (module :: modules)
    | _ => Ok []
    end
  else Ok [].

(** [fetch_current_run_data], given the decoded reply of the query:
    [except Exception] turns an exception into the empty list. *)
Definition fetch_current_run_data (reply : json) : result (list json) :=
  match parsed_modules reply with
  | Ok modules => Ok modules
  | Raise e => if is_Exception e then Ok [] else Raise e
  end.

(** One iteration of [for module in prev_data:] in
    [fetch_previous_run_data]. *)
Definition parse_prev_module (module : json) : result json :=
  run_data ← jget module "run_data" (JObj []);
  run_data ← (match run_data with
              | JStr s => json_loads s
              | _ => Ok run_data
              end);
  tests ← jget run_data "tests" (JList []);
  test_cases_run ← jlen tests;
  items ← jiter tests;
  test_cases_passed ← jcount (has_status "passed") items;
  test_cases_failed ← jcount (has_status "failed") items;
  test_cases_skipped ← jcount (has_status "skipped") items;
  module_name ← jget module "module_name" JNull;
  started_at ← jget module "started_at" JNull;
  completed_at ← jget module "completed_at" JNull;
  Ok (JObj [ ("module_name", module_name);
             ("test_cases_run", JInt test_cases_run);
             ("test_cases_passed", JInt test_cases_passed);
             ("test_cases_failed", JInt test_cases_failed);
             ("test_cases_skipped", JInt test_cases_skipped);
             ("started_at", started_at);
             ("completed_at", completed_at);
             ("tests", tests) ]).

(** [self.execute_query(prev_query)], the text of [prev_query] being
    built from [prev_run_id]. *)
Variable execute_prev_query : json → result json.

(** The body of the [try:] of [fetch_previous_run_data], from
    [result = self.execute_query(query)] on; [reply] is that [result]. *)
Definition previous_modules (reply : json) : result (option (list json)) :=
  response ← jget reply "response" JNull;
  found ← (if jtruthy response
           then n ← jlen response; Ok (0 <? n)
           else Ok false);
  if (found : bool) then
    match response with
    | JList (first_item :: _) =>
        match first_item with
        | JObj _ =>
            prev_run_id ← jget first_item "previous_run_id" JNull;
            if negb (jtruthy prev_run_id) then Ok None
            else
              prev_result ← execute_prev_query prev_run_id;
              prev_response ← jget prev_result "response" JNull;
              prev_found ← (if jtruthy prev_response
                            then n ← jlen prev_response; Ok (0 <? n)
                            else Ok false);
              if (prev_found : bool) then
                match prev_response with
                | JList (module :: modules) =>
                    parsed_prev_modules ← mapM parse_prev_module (module :: modules);
                    Ok (Some parsed_prev_modules)
                | _ => Ok None
                end
              else Ok None
        | _ => Ok None
        end
    | _ => Ok None
    end
  else Ok None.

(** [fetch_previous_run_data], given the decoded reply of its first
    query. *)
Definition fetch_previous_run_data (reply : json) : result (option (list json)) :=
  match previous_modules reply with
  | Ok modules => Ok modules
  | Raise e => if is_Exception e then Ok None else Raise e
  end.

End Decode.

(** *** The rows and modules of [Html] as decoded JSON *)

Definition of_pyval (v : pyval) : json :=
  match v with
  | PNone => JNull
  | PInt z => JInt z
  | PStr s => JStr s
  end.

Definition of_dict (d : dict) : json :=
  JObj ((λ e, (e.1, of_pyval e.2)) <$> map_to_list d).

(** A row of the reply: its columns, and the [run_data] column already
    decoded. *)
Definition of_row (row : Html.module_row) : json :=
  JObj (("run_data", JObj [("tests", JList (of_dict <$> Html.row_tests row))])
        :: ((λ e, (e.1, of_pyval e.2)) <$> map_to_list (Html.row_fields row))).

(** The dictionary [parsed_module] with the entries of [module]. *)
Definition of_module (module : Html.module_dict) : json :=
  let field key := of_pyval (get (Html.m_fields module) key) in
  JObj [ ("module_name", field "module_name");
         ("test_cases_run", field "test_cases_run");
         ("test_cases_passed", field "test_cases_passed");
         ("test_cases_failed", field "test_cases_failed");
         ("test_cases_skipped", field "test_cases_skipped");
         ("highest_priority_failed", field "highest_priority_failed");
         ("high_priority_failed", field "high_priority_failed");
         ("medium_priority_failed", field "medium_priority_failed");
         ("low_priority_failed", field "low_priority_failed");
         ("slack_report_link", field "slack_report_link");
         ("started_at", field "started_at");
         ("completed_at", field "completed_at");
         ("runenv", field "runenv");
         ("username", field "username");
         ("tests", JList (of_dict <$> Html.module_tests module)) ].

(** The dictionary [parsed_prev_module] with the entries of [module]. *)
Definition of_prev_module (module : Html.module_dict) : json :=
  let field key := of_pyval (get (Html.m_fields module) key) in
  JObj [ ("module_name", field "module_name");
         ("test_cases_run", field "test_cases_run");
         ("test_cases_passed", field "test_cases_passed");
         ("test_cases_failed", field "test_cases_failed");
         ("test_cases_skipped", field "test_cases_skipped");
         ("started_at", field "started_at");
         ("completed_at", field "completed_at");
         ("tests", JList (of_dict <$> Html.module_tests module)) ].

End Fetch.

(** ** The timing columns of the test table on decoded JSON
       ([generate_test_list_html], the body of the loop)

    The differ of [Html] takes its durations from dictionaries of scalars,
    where a number is an integer, and rounds without regard to the
    exponent range.  Here a test is a decoded JSON value and a duration may
    be any of them, a [float] in particular, and the floats have their
    range. *)

Module Timing.
Import Fetch.

(** The number that an operand of [-] or [/] is: an [int], a [bool]
    (which is an [int]) or a [float]; on every other value the two
    operators raise [TypeError]. *)
Definition as_number (v : json) : result number :=
  match v with
  | JBool b => Ok (NInt (Z.b2z b))
  | JInt z => Ok (NInt z)
  | JFloat x => Ok (NFloat x)
  | _ => Raise TypeError
  end.

(** A time column: ["N/A"], or seconds printed as [f"{x:.2f}s"]. *)
Inductive time_cell : Type :=
| TimeNA
| TimeSeconds (secs : float).

(** The "Time Diff" column, named after the CSS class of its span, with
    the variables [time_diff] and [percent_change] that the template
    prints; [percent_change] is the integer [0] when the previous duration
    is not positive. *)
Inductive time_diff_cell : Type :=
| DiffNA
| DiffWorse (time_diff : number) (percent_change : number)
| DiffBetter (time_diff : number) (percent_change : number)
| DiffSame.

Record test_row : Type := {
  row_test_name : json;
  row_status : json;
  row_priority : json;
  row_current_time : time_cell;
  row_prev_time : time_cell;
  row_time_diff : time_diff_cell
}.

(** [test.get('duration_ms', test.get('duration', 0))] *)
Definition duration_of (test : json) : result json :=
  fallback ← jget test "duration" (JInt 0);
  jget test "duration_ms" fallback.

(** [f"{ms / 1000:.2f}s"] *)
Definition seconds (ms : json) : result time_cell :=
  n ← as_number ms;
  secs ← num_truediv n (NInt 1000);
  Ok (TimeSeconds secs).

(** The block guarded by [if duration and prev_duration:]. *)
Definition time_diff_html (duration prev_duration : json) : result time_diff_cell :=
  if jtruthy duration && jtruthy prev_duration then
    d ← as_number duration;
    pd ← as_number prev_duration;
    time_diff ← num_sub d pd;
    _ ← num_truediv (num_abs time_diff) (NInt 1000);
    percent_change ←
      (if num_gt0 pd
       then (q ← num_truediv time_diff pd;
             pct ← float_mul_int q 100;
             Ok (NFloat pct))
       else Ok (NInt 0));
    if num_gt0 time_diff then Ok (DiffWorse time_diff percent_change)
    else if num_lt0 time_diff then Ok (DiffBetter time_diff percent_change)
    else Ok DiffSame
  else Ok DiffNA.

(** The previous-time and time-diff columns, given the matched previous
    test ([prev_tests_map.get(test_name)]): the block guarded by
    [if prev_test:]. *)
Definition prev_columns (duration : json) (prev_test : option json)
    : result (time_cell * time_diff_cell) :=
  match prev_test with
  | Some pt =>
      if jtruthy pt then
        prev_duration ← duration_of pt;
        if jtruthy prev_duration then
          prev_time ← seconds prev_duration;
          diff ← time_diff_html duration prev_duration;
          Ok (prev_time, diff)
        else Ok (TimeNA, DiffNA)
      else Ok (TimeNA, DiffNA)
  | None => Ok (TimeNA, DiffNA)
  end.

(** A value that can be looked up in a dictionary: a list or a
    dictionary cannot. *)
Definition hashable (v : json) : bool :=
  match v with
  | JList _ | JObj _ => false
  | _ => true
  end.

(** One iteration of [for test in tests:], [prev_test] being what
    [prev_tests_map.get(test_name)] returns. *)
Definition test_row_for (test : json) (prev_test : option json) : result test_row :=
  title ← jget test "title" (JStr "Unknown Test");
  test_name ← jget test "name" title;
  status ← jget test "status" (JStr "unknown");
  priority ← jget test "priority" (JStr "medium");
  duration ← duration_of test;
  current_time ← (if jtruthy duration then seconds duration else Ok TimeNA);
  _ ← (if hashable test_name then Ok () else Raise TypeError);
  cols ← prev_columns duration prev_test;
  Ok {| row_test_name := test_name;
        row_status := status;
        row_priority := priority;
        row_current_time := current_time;
        row_prev_time := cols.1;
        row_time_diff := cols.2 |}.

End Timing.

Module TimingSpec.
Import Fetch Timing.

(** The specification's classification of a duration delta. *)
Definition classification_of (duration_delta : Q) : string :=
  if negb (Qle_bool duration_delta 0) then "worse"
  else if negb (Qle_bool 0 duration_delta) then "better" else "same".

(** The classification that a rendered cell displays. *)
Definition cell_classification (c : time_diff_cell) : string :=
  match c with
  | DiffNA => "not-applicable"
  | DiffWorse _ _ => "worse"
  | DiffBetter _ _ => "better"
  | DiffSame => "same"
  end.

(** A rational that is a binary64 value: rounding leaves it as it is. *)
Definition is_binary64 (q : Q) : Prop := to_float q = FFinite q.

(** A duration that is the rational [q] as a float: a finite [float], or
    an integer below [2^53] in magnitude, which [float()] converts
    exactly. *)
Definition denotes (v : json) (q : Q) : Prop :=
  match v with
  | JFloat (FFinite x) => x = q ∧ is_binary64 q
  | JInt z => q = inject_Z z ∧ Z.abs z < 2 ^ 53
  | _ => False
  end.

Definition is_int (v : json) : Prop := ∃ z, v = JInt z.

(** Every binary64 value is a multiple of the smallest one, [2^-1074]. *)
Definition on_grid (q : Q) : Prop := ∃ k : Z, (q == inject_Z k * pow2 (-1074))%Q.

(** The cells of the differ of [Html] as cells of this one: a time
    difference is an integer there, and a time or a percentage a finite
    float. *)
Definition of_time_cell (c : Html.time_cell) : time_cell :=
  match c with
  | Html.TimeNA => TimeNA
  | Html.TimeSeconds secs => TimeSeconds (FFinite secs)
  end.

Definition of_time_diff_cell (c : Html.time_diff_cell) : time_diff_cell :=
  match c with
  | Html.DiffNA => DiffNA
  | Html.DiffWorse time_diff percent_change =>
      DiffWorse (NInt time_diff) (NFloat (FFinite percent_change))
  | Html.DiffBetter time_diff percent_change =>
      DiffBetter (NInt time_diff) (NFloat (FFinite percent_change))
  | Html.DiffSame => DiffSame
  end.

(** A test outcome as a JSON object, with its duration if it has one. *)
Definition timed_test (name : string) (duration_ms : option json) : json :=
  match duration_ms with
  | Some ms => JObj [("name", JStr name); ("duration_ms", ms)]
  | None => JObj [("name", JStr name)]
  end.

End TimingSpec.

(** * Properties of the embedding *)

(** ** Counting *)

Section Counting.
Context {A : Type}.
Implicit Types (f g : A → bool) (l : list A).

Lemma count_if_nonneg f l : 0 <= count_if f l.
Proof. induction l as [|x l IH]; simpl; [lia|]. destruct (f x); lia. Qed.

Lemma count_if_le_len f l : count_if f l <= len l.
Proof.
  unfold len. induction l as [|x l IH]; simpl length; simpl count_if; [lia|].
  destruct (f x); lia.
Qed.

Lemma count_if_app f l1 l2 : count_if f (l1 ++ l2) = count_if f l1 + count_if f l2.
Proof. induction l1 as [|x l1 IH]; simpl; [lia|]. rewrite IH. lia. Qed.

Lemma count_if_ext f g l :
  (∀ x, x ∈ l → f x = g x) → count_if f l = count_if g l.
Proof.
  induction l as [|x l IH]; intros H; simpl; [done|].
  rewrite (H x) by set_solver. rewrite IH; [done|]. intros y Hy. apply H. set_solver.
Qed.

(** [sum(1 for x in l if f x)] is the length of the filtered list. *)
Lemma count_if_filter f l :
  count_if f l = len (filter (λ x, f x = true) l).
Proof.
  unfold len. induction l as [|x l IH]; simpl; [done|].
  rewrite filter_cons. destruct (f x) eqn:E.
  - rewrite decide_True by done. simpl length. lia.
  - rewrite decide_False by congruence. lia.
Qed.

Lemma count_if_Permutation f l1 l2 :
  l1 ≡ₚ l2 → count_if f l1 = count_if f l2.
Proof.
  induction 1 as [|x l1 l2 _ IH|x y l|l1 l2 l3 _ IH1 _ IH2]; simpl; lia.
Qed.
End Counting.

Module AggregatorProps.
Import Html AggregatorSpec.

Lemma status_is_iff s t :
  status_is s t = true ↔ t !! "status" = Some (PStr s).
Proof.
  unfold status_is, py_eq, get. rewrite bool_decide_eq_true.
  destruct (t !! "status") as [v|]; simpl; split; intros H; congruence.
Qed.

Lemma failed_with_priority_iff p t :
  failed_with_priority p t = true ↔
  t !! "status" = Some (PStr "failed") ∧ t !! "priority" = Some (PStr p).
Proof.
  unfold failed_with_priority. rewrite andb_true_iff, status_is_iff.
  unfold py_eq, get. rewrite bool_decide_eq_true.
  destruct (t !! "priority") as [v|]; simpl; split; intros [? ?]; split; congruence.
Qed.

(** Every outcome falls in exactly one of the four status classes. *)
Lemma status_classes_exclusive t :
  (if status_is "passed" t then 1 else 0)
  + (if status_is "failed" t then 1 else 0)
  + (if status_is "skipped" t then 1 else 0)
  + (if negb (recognized_status t) then 1 else 0) = 1.
Proof.
  unfold recognized_status.
  destruct (status_is "passed" t) eqn:E1, (status_is "failed" t) eqn:E2,
    (status_is "skipped" t) eqn:E3; simpl; try lia;
    rewrite ?status_is_iff in *; congruence.
Qed.

(** A failed outcome lands in at most one priority bucket, and in one
    exactly when its priority is one of the four recognised values. *)
Lemma priority_buckets_exclusive t :
  (if failed_with_priority "highest" t then 1 else 0)
  + (if failed_with_priority "high" t then 1 else 0)
  + (if failed_with_priority "medium" t then 1 else 0)
  + (if failed_with_priority "low" t then 1 else 0)
  = (if status_is "failed" t && recognized_priority t then 1 else 0).
Proof.
  unfold failed_with_priority, recognized_priority.
  destruct (status_is "failed" t); simpl; [|lia].
  unfold py_eq.
  repeat case_bool_decide; simpl; try lia; congruence.
Qed.

Lemma priority_failed_total_eq tests :
  priority_failed_total tests =
  count_if (λ t, status_is "failed" t && recognized_priority t) tests.
Proof.
  unfold priority_failed_total, highest_priority_failed, high_priority_failed,
    medium_priority_failed, low_priority_failed.
  induction tests as [|t tests IH]; simpl; [done|].
  pose proof (priority_buckets_exclusive t). lia.
Qed.

Lemma status_counts_sum tests :
  test_cases_passed tests + test_cases_failed tests
  + test_cases_skipped tests + unknown_count tests = test_cases_run tests.
Proof.
  unfold test_cases_passed, test_cases_failed, test_cases_skipped,
    unknown_count, test_cases_run, len.
  induction tests as [|t tests IH]; [done|].
  simpl count_if. simpl length.
  pose proof (status_classes_exclusive t). lia.
Qed.

Lemma count_if_as_filter (f : dict → bool) (P : dict → Prop)
    `{!∀ t, Decision (P t)} tests :
  (∀ t, f t = true ↔ P t) → count_if f tests = len (filter P tests).
Proof.
  intros Hf. rewrite count_if_filter. f_equal.
  apply list_filter_iff. intros t. apply Hf.
Qed.

(** C2. For every sequence of outcomes aggregated into a module summary,
    passed + failed + skipped + unknown = run, where run is the number of
    outcomes, each named counter counts the outcomes whose ['status'] entry
    is exactly that string, and unknown counts all the others. *)
Theorem status_counts_sum_to_run (tests : list dict) :
  test_cases_passed tests + test_cases_failed tests
  + test_cases_skipped tests + unknown_count tests = test_cases_run tests
  ∧ test_cases_run tests = Z.of_nat (length tests)
  ∧ test_cases_passed tests
    = len (filter (λ t : dict, t !! "status" = Some (PStr "passed")) tests)
  ∧ test_cases_failed tests
    = len (filter (λ t : dict, t !! "status" = Some (PStr "failed")) tests)
  ∧ test_cases_skipped tests
    = len (filter (λ t : dict, t !! "status" = Some (PStr "skipped")) tests)
  ∧ unknown_count tests
    = len (filter (λ t : dict,
             t !! "status" ≠ Some (PStr "passed")
             ∧ t !! "status" ≠ Some (PStr "failed")
             ∧ t !! "status" ≠ Some (PStr "skipped")) tests).
Proof.
  split; [apply status_counts_sum|]. split; [done|].
  repeat split; try (apply count_if_as_filter; intros t; apply status_is_iff).
  apply count_if_as_filter. intros t. unfold recognized_status.
  rewrite negb_true_iff, !orb_false_iff, <-!not_true_iff_false, !status_is_iff.
  tauto.
Qed.

(** Five outcomes: one of each status, one "flaky", one without status. *)
Lemma status_counts_sum_to_run_witness :
  let tests : list dict :=
    [ {[ "status" := PStr "passed" ]}; {[ "status" := PStr "failed" ]};
      {[ "status" := PStr "skipped" ]}; {[ "status" := PStr "flaky" ]}; ∅ ] in
  test_cases_passed tests + test_cases_failed tests
  + test_cases_skipped tests + unknown_count tests = 5
  ∧ unknown_count tests = 2.
Proof.
  intros tests. destruct (status_counts_sum_to_run tests) as [H _].
  split; [rewrite H|]; vm_compute; reflexivity.
Defined.

Lemma count_if_le (f g : dict → bool) tests :
  (∀ t, f t = true → g t = true) → count_if f tests <= count_if g tests.
Proof.
  intros H. induction tests as [|t tests IH]; simpl; [lia|].
  specialize (H t). destruct (f t), (g t); lia.
Qed.

Lemma count_if_eq_iff (f g : dict → bool) tests :
  (∀ t, f t = true → g t = true) →
  count_if f tests = count_if g tests ↔ Forall (λ t, g t = true → f t = true) tests.
Proof.
  intros H. induction tests as [|t tests IH]; simpl.
  - split; [constructor|done].
  - pose proof (count_if_le f g tests H) as Hle.
    rewrite Forall_cons, <-IH. pose proof (H t) as Ht.
    destruct (f t) eqn:Ef, (g t) eqn:Eg.
    + split; [intros ?; split; [done|lia] | intros [_ ?]; lia].
    + by specialize (Ht eq_refl).
    + split; [lia | intros [? _]; by assert (false = true) by auto].
    + split; [intros ?; split; [done|lia] | intros [_ ?]; lia].
Qed.

(** C3. In every module summary the four priority-failure counts add up to
    at most the number of failed outcomes, with equality exactly when every
    failed outcome carries one of the four recognised priorities; a failed
    outcome whose priority is unrecognised or absent is counted as failed
    and in none of the four buckets. *)
Theorem priority_buckets_le_failed (tests : list dict) :
  priority_failed_total tests <= test_cases_failed tests
  ∧ (priority_failed_total tests = test_cases_failed tests
     ↔ Forall (λ t, status_is "failed" t = true → recognized_priority t = true) tests)
  ∧ (∀ (before after : list dict) (t : dict),
       tests = before ++ t :: after →
       status_is "failed" t = true → recognized_priority t = false →
       test_cases_failed tests = test_cases_failed (before ++ after) + 1
       ∧ highest_priority_failed tests = highest_priority_failed (before ++ after)
       ∧ high_priority_failed tests = high_priority_failed (before ++ after)
       ∧ medium_priority_failed tests = medium_priority_failed (before ++ after)
       ∧ low_priority_failed tests = low_priority_failed (before ++ after)).
Proof.
  rewrite priority_failed_total_eq. unfold test_cases_failed.
  assert (Himp : ∀ t, status_is "failed" t && recognized_priority t = true →
                      status_is "failed" t = true).
  { intros t. rewrite andb_true_iff. tauto. }
  split; [by apply count_if_le|]. split.
  - rewrite (count_if_eq_iff _ _ _ Himp). apply Forall_proper; [|done].
    intros t. rewrite andb_true_iff. tauto.
  - intros before after t -> Hf Hp.
    unfold highest_priority_failed, high_priority_failed,
      medium_priority_failed, low_priority_failed.
    rewrite !count_if_app. simpl count_if.
    pose proof (priority_buckets_exclusive t) as Hex.
    rewrite Hf, Hp in Hex. simpl in Hex. rewrite Hf.
    destruct (failed_with_priority "highest" t), (failed_with_priority "high" t),
      (failed_with_priority "medium" t), (failed_with_priority "low" t);
      try lia.
Qed.

(** A failed outcome with no ['priority'] entry at all. *)
Lemma priority_buckets_le_failed_witness :
  let t : dict := {[ "status" := PStr "failed" ]} in
  priority_failed_total [t] = 0 ∧ test_cases_failed [t] = 1.
Proof.
  intros t.
  destruct (priority_buckets_le_failed [t]) as (_ & _ & H).
  destruct (H [] [] t eq_refl) as (H1 & H2 & H3 & H4 & H5);
    [vm_compute; reflexivity | vm_compute; reflexivity |].
  unfold priority_failed_total. rewrite H1, H2, H3, H4, H5.
  split; reflexivity.
Defined.

End AggregatorProps.

(** ** Floats: the error of one rounding *)

Module FloatProps.

Local Open Scope Q_scope.

Lemma pow2_pos e : 0 < pow2 e.
Proof. apply Qpower_0_lt. reflexivity. Qed.

Lemma pow2_add a b : pow2 (a + b) == pow2 a * pow2 b.
Proof. apply Qpower_plus. discriminate. Qed.

Lemma pow2_succ a : pow2 (a + 1) == 2 * pow2 a.
Proof. rewrite pow2_add. unfold pow2 at 2. simpl. ring. Qed.

Lemma pow2_inject (a : Z) : (0 <= a)%Z → inject_Z (2 ^ a) == pow2 a.
Proof. intros. unfold pow2. by rewrite Zpower_Qpower. Qed.

(** Rounding to an integer moves a number by at most one half. *)
Lemma Qround_half_even_err x :
  Qabs (inject_Z (Qround_half_even x) - x) <= 1 # 2.
Proof.
  unfold Qround_half_even.
  pose proof (Qfloor_le x) as H1. pose proof (Qlt_floor x) as H2.
  rewrite inject_Z_plus in H2. change (inject_Z 1) with 1 in H2.
  apply Qabs_Qle_condition.
  destruct (Qcompare_spec (x - inject_Z (Qfloor x)) (1#2)) as [H|H|H].
  - destruct (Z.even (Qfloor x)); rewrite ?inject_Z_plus;
      change (inject_Z 1) with 1; split; lra.
  - split; lra.
  - rewrite inject_Z_plus; change (inject_Z 1) with 1; split; lra.
Qed.

Lemma Qround_half_even_Z (z : Z) : Qround_half_even (inject_Z z) = z.
Proof.
  unfold Qround_half_even. rewrite Qfloor_Z.
  destruct (Qcompare_spec (inject_Z z - inject_Z z) (1#2)) as [H|H|H]; try lra.
  reflexivity.
Qed.

(** [floor_log2] brackets a positive rational between two powers of two. *)
Lemma floor_log2_spec x :
  0 < x → pow2 (floor_log2 x) <= x < pow2 (floor_log2 x + 1).
Proof.
  intros Hx. unfold floor_log2.
  destruct x as [n d]. simpl Qnum. simpl Qden.
  assert (Hn : (0 < n)%Z). { unfold Qlt in Hx. simpl in Hx. lia. }
  set (a := Z.log2 n). set (b := Z.log2 (Zpos d)).
  destruct (Z.log2_spec n Hn) as [Ha1 Ha2]. fold a in Ha1, Ha2.
  destruct (Z.log2_spec (Zpos d) eq_refl) as [Hb1 Hb2]. fold b in Hb1, Hb2.
  assert (Ha0 : (0 <= a)%Z) by apply Z.log2_nonneg.
  assert (Hb0 : (0 <= b)%Z) by apply Z.log2_nonneg.
  set (k := (a - b)%Z).
  assert (HA : pow2 a == pow2 k * pow2 b).
  { rewrite <- pow2_add. replace (k + b)%Z with a by (unfold k; lia). reflexivity. }
  pose proof (pow2_pos k) as HK. pose proof (pow2_pos b) as HB.
  assert (Qa1 : pow2 a <= inject_Z n).
  { rewrite <- pow2_inject by lia. rewrite <- Zle_Qle. lia. }
  assert (Qa2 : inject_Z n < 2 * pow2 a).
  { rewrite <- pow2_succ, <- pow2_inject by lia. rewrite <- Zlt_Qlt.
    replace (a + 1)%Z with (Z.succ a) by lia. lia. }
  assert (Qb1 : pow2 b <= inject_Z (Zpos d)).
  { rewrite <- pow2_inject by lia. rewrite <- Zle_Qle. lia. }
  assert (Qb2 : inject_Z (Zpos d) < 2 * pow2 b).
  { rewrite <- pow2_succ, <- pow2_inject by lia. rewrite <- Zlt_Qlt.
    replace (b + 1)%Z with (Z.succ b) by lia. lia. }
  assert (Hxd : (n # d) * inject_Z (Zpos d) == inject_Z n).
  { rewrite (Qmake_Qdiv n d). field. discriminate. }
  set (x := n # d) in *. set (D := inject_Z (Zpos d)) in *.
  set (N := inject_Z n) in *.
  assert (Hup : x < 2 * pow2 k).
  { apply (Qmult_lt_r _ _ (pow2 b)); [assumption|].
    apply Qle_lt_trans with (x * D); [apply Qmult_le_l; assumption|]. nra. }
  assert (Hlo : pow2 k < 2 * x).
  { apply (Qmult_lt_r _ _ (pow2 b)); [assumption|].
    apply Qle_lt_trans with N; [nra|].
    rewrite <- Hxd. nra. }
  destruct (Qle_bool (pow2 k) x) eqn:E.
  - apply Qle_bool_iff in E. rewrite pow2_succ. split; assumption.
  - assert (~ pow2 k <= x) as E'. { rewrite <- Qle_bool_iff. congruence. }
    apply Qnot_le_lt in E'.
    replace (k - 1 + 1)%Z with k by lia.
    assert (pow2 k == 2 * pow2 (k - 1)) as Hk.
    { rewrite <- pow2_succ. replace (k - 1 + 1)%Z with k by lia. reflexivity. }
    split; [lra|assumption].
Qed.

Lemma Qabs_pos_lt x : ¬ x == 0 → 0 < Qabs x.
Proof.
  intros Hx. destruct (Qlt_le_dec 0 (Qabs x)) as [|Hle]; [assumption|].
  exfalso. apply Hx.
  apply Qabs_Qle_condition in Hle. destruct Hle as [H1 H2].
  apply Qle_antisym; [assumption|]. lra.
Qed.

(** One rounding to 53 bits has relative error at most [2^-53]. *)
Lemma fl_round_err x : Qabs (fl_round x - x) <= Qabs x * half_ulp.
Proof.
  unfold fl_round.
  destruct (Qeq_bool x 0) eqn:E.
  { apply Qeq_bool_iff in E. rewrite E. vm_compute. discriminate. }
  assert (Hx : ¬ x == 0). { rewrite <- Qeq_bool_iff. congruence. }
  rewrite Qred_correct.
  pose proof (Qabs_pos_lt x Hx) as Hax.
  destruct (floor_log2_spec (Qabs x) Hax) as [Hlo _].
  set (e := (floor_log2 (Qabs x) - 52)%Z) in *.
  assert (Hpe : pow2 (floor_log2 (Qabs x)) == pow2 e * pow2 52).
  { rewrite <- pow2_add.
    replace (e + 52)%Z with (floor_log2 (Qabs x)) by (unfold e; lia).
    reflexivity. }
  pose proof (pow2_pos e) as He.
  pose proof (Qround_half_even_err (x / pow2 e)) as Hr.
  set (m := inject_Z (Qround_half_even (x / pow2 e))) in *.
  assert (Hy : x == (x / pow2 e) * pow2 e) by (field; lra).
  set (y := x / pow2 e) in *.
  change (pow2 52) with (4503599627370496 # 1) in Hpe.
  assert (Hd : m * pow2 e - x == (m - y) * pow2 e) by (rewrite Hy at 1; ring).
  rewrite Hd, Qabs_Qmult, (Qabs_pos (pow2 e)) by lra.
  unfold half_ulp. set (a := Qabs (m - y)) in *. set (ax := Qabs x) in *.
  nra.
Qed.

Lemma fl_round_0 x : x == 0 → fl_round x = 0.
Proof. intros H. unfold fl_round. apply Qeq_bool_iff in H. by rewrite H. Qed.

(** The model computes what the Standard Library's binary64 computes, on
    every [p / t * 100] with [0 <= p <= t <= 48]. *)
Lemma fl_round_agrees_with_binary64 :
  forallb (λ pt, agrees_with_binary64 pt.1 pt.2) (grid 48) = true.
Proof. vm_compute. reflexivity. Qed.

(** The operations with the exponent range compute what the Standard
    Library's binary64 computes, on every sample with every operand:
    rounding into the format, [-], [*] and [/], with subnormal results,
    overflow to an infinity and NaN among them. *)
Lemma float_ops_agree_with_binary64 :
  forallb (λ x, forallb (float_ops_agree x) operands) samples = true.
Proof. vm_compute. reflexivity. Qed.

(** The division of integers at the ends of the range, as the
    interpreter has it: the quotient halfway between the largest float and
    [2^1024] overflows, the one below it does not; a quotient halfway
    between two subnormal numbers goes to the even one. *)
Example Z_truediv_at_the_ends :
  Z_truediv (2 ^ 1024 - 2 ^ 970) 1 = Raise OverflowError
  ∧ Z_truediv (2 ^ 1024 - 2 ^ 970 - 1) 1 = Ok (FFinite (inject_Z (2 ^ 1024 - 2 ^ 971)))
  ∧ float_of_Z (2 ^ 1024 - 2 ^ 970) = Raise OverflowError
  ∧ Z_truediv (10 ^ 400) 1000 = Raise OverflowError
  ∧ Z_truediv 1 (10 ^ 400) = Ok (FFinite 0)
  ∧ Z_truediv 1 (2 ^ 1075) = Ok (FFinite 0)
  ∧ Z_truediv 3 (2 ^ 1075) = Ok (FFinite (pow2 (-1073)))
  ∧ Z_truediv 1 0 = Raise ZeroDivisionError.
Proof. repeat split; vm_compute; reflexivity. Qed.

End FloatProps.

(** ** The pass rate *)

Module PassRateProps.
Import PassRateSpec FloatProps.

(** Two roundings and [round] keep the pass rate within one half of the
    exact percentage. *)
Lemma pass_rate_of_nearest (p t : Z) :
  0 <= p → 0 < t → p < 2 ^ 43 →
  2 * Z.abs (pass_rate_of p t * t - 100 * p) <= t.
Proof.
  intros Hp Ht Hb. unfold pass_rate_of, py_round, float_mul, int_truediv, float_of_int.
  destruct (Z.ltb_spec 0 t) as [_|]; [|lia].
  assert (H100 : fl_round (inject_Z 100) = 100%Q) by (vm_compute; reflexivity).
  rewrite H100.
  destruct (Z.eq_dec p 0) as [->|Hp0].
  { rewrite (fl_round_0 (inject_Z 0 / inject_Z t)).
    2:{ unfold Qdiv. rewrite Qmult_0_l. reflexivity. }
    rewrite (fl_round_0 (0 * 100)) by reflexivity.
    change 0%Q with (inject_Z 0). rewrite Qround_half_even_Z. lia. }
  assert (HpQ : (0 < inject_Z p)%Q).
  { change 0%Q with (inject_Z 0). rewrite <- Zlt_Qlt. lia. }
  assert (HtQ : (0 < inject_Z t)%Q).
  { change 0%Q with (inject_Z 0). rewrite <- Zlt_Qlt. lia. }
  assert (HbQ : (inject_Z p < 8796093022208 # 1)%Q).
  { change (8796093022208 # 1)%Q with (inject_Z (2 ^ 43)). rewrite <- Zlt_Qlt. lia. }
  set (x := (inject_Z p / inject_Z t)%Q).
  assert (Hx : (0 < x)%Q). { unfold x. apply Qlt_shift_div_l; lra. }
  assert (Hxt : (x * inject_Z t == inject_Z p)%Q). { unfold x. field. lra. }
  pose proof (fl_round_err x) as H1. rewrite (Qabs_pos x) in H1 by lra.
  set (d := fl_round x) in *.
  apply Qabs_Qle_condition in H1. unfold half_ulp in H1.
  assert (Hd : (0 < d * 100)%Q) by nra.
  pose proof (fl_round_err (d * 100)) as H2. rewrite (Qabs_pos (d * 100)) in H2 by lra.
  set (f := fl_round (d * 100)) in *.
  pose proof (Qround_half_even_err f) as H3.
  set (r := Qround_half_even f) in *.
  apply Qabs_Qle_condition in H2, H3. unfold half_ulp in *.
  assert (Hlo : 2 * (r * t - 100 * p) <= t).
  { apply Z.nlt_ge. intros Hc.
    assert (Hc' : t + 1 + 200 * p <= 2 * (r * t)) by lia.
    rewrite Zle_Qle in Hc'.
    rewrite !inject_Z_plus, !inject_Z_mult in Hc'.
    change (inject_Z 1) with 1%Q in Hc'. change (inject_Z 2) with 2%Q in Hc'.
    change (inject_Z 200) with 200%Q in Hc'.
    rewrite <- Hxt in Hc', HbQ.
    set (T := inject_Z t) in *. set (R := inject_Z r) in *.
    assert (R - 100 * x <= (1#2) + x * (1 # 40000000000000))%Q by nra.
    nra. }
  assert (Hhi : - t <= 2 * (r * t - 100 * p)).
  { apply Z.nlt_ge. intros Hc.
    assert (Hc' : 2 * (r * t) + t + 1 <= 200 * p) by lia.
    rewrite Zle_Qle in Hc'.
    rewrite !inject_Z_plus, !inject_Z_mult in Hc'.
    change (inject_Z 1) with 1%Q in Hc'. change (inject_Z 2) with 2%Q in Hc'.
    change (inject_Z 200) with 200%Q in Hc'.
    rewrite <- Hxt in Hc', HbQ.
    set (T := inject_Z t) in *. set (R := inject_Z r) in *.
    assert (- ((1#2) + x * (1 # 40000000000000)) <= R - 100 * x)%Q by nra.
    nra. }
  lia.
Qed.

(** The specification's rounding of the exact quotient is a nearest integer
    too. *)
Lemma spec_pass_rate_nearest (p t : Z) :
  0 < t → 2 * Z.abs (spec_pass_rate p t * t - 100 * p) <= t.
Proof.
  intros Ht. unfold spec_pass_rate.
  destruct (Z.eqb_spec t 0) as [|_]; [lia|].
  assert (HtQ : (0 < inject_Z t)%Q).
  { change 0%Q with (inject_Z 0). rewrite <- Zlt_Qlt. lia. }
  set (x := (inject_Z (100 * p) / inject_Z t)%Q).
  assert (Hxt : (x * inject_Z t == inject_Z (100 * p))%Q). { unfold x. field. lra. }
  pose proof (Qround_half_even_err x) as H3.
  set (r := Qround_half_even x) in *.
  apply Qabs_Qle_condition in H3.
  rewrite inject_Z_mult in Hxt. change (inject_Z 100) with 100%Q in Hxt.
  assert (Hlo : 2 * (r * t) <= t + 200 * p).
  { rewrite Zle_Qle, !inject_Z_plus, !inject_Z_mult.
    change (inject_Z 2) with 2%Q. change (inject_Z 200) with 200%Q.
    set (T := inject_Z t) in *. set (R := inject_Z r) in *.
    set (P := inject_Z p) in *. nra. }
  assert (Hhi : 200 * p <= 2 * (r * t) + t).
  { rewrite Zle_Qle, !inject_Z_plus, !inject_Z_mult.
    change (inject_Z 2) with 2%Q. change (inject_Z 200) with 200%Q.
    set (T := inject_Z t) in *. set (R := inject_Z r) in *.
    set (P := inject_Z p) in *. nra. }
  lia.
Qed.

(** Away from a tie there is one nearest integer. *)
Lemma nearest_unique (p t r1 r2 : Z) :
  0 < t → ¬ is_tie p t →
  2 * Z.abs (r1 * t - 100 * p) <= t →
  2 * Z.abs (r2 * t - 100 * p) <= t →
  r1 = r2.
Proof.
  intros Ht Htie H1 H2.
  destruct (Z.eq_dec r1 r2) as [|Hne]; [assumption|].
  exfalso. apply Htie.
  destruct (Z_lt_le_dec r1 r2) as [Hlt|Hge].
  - exists r1. nia.
  - exists r2. nia.
Qed.

Lemma summarize_pass_rate records s :
  summarize records = Ok s →
  pass_rate s = pass_rate_of (total_passed s) (total_tests s).
Proof.
  unfold summarize. intros H.
  destruct (sum_field "test_cases_run" records); simpl in H; [|done].
  destruct (sum_field "test_cases_passed" records); simpl in H; [|done].
  destruct (sum_field "test_cases_failed" records); simpl in H; [|done].
  destruct (sum_field "test_cases_skipped" records); simpl in H; [|done].
  by inversion H.
Qed.

(** C1, as the code has it. For every module collection that the
    reducers accept, the pass rate is [0] when the total is not positive;
    otherwise (for fewer than 2^43 passed tests) it is an integer nearest
    to the exact percentage [100 * totalPassed / totalTests], hence equal to
    [round(100 * totalPassed / totalTests)] whenever the percentage is not
    exactly halfway between two integers; 7 passed of 9 give 78. *)
Theorem pass_rate_is_a_nearest_integer (records : list dict) (s : summary) :
  Pdf.calculate_summary records = Ok s
  ∨ (∃ modules, Html.overall_stats modules = Ok s) →
  pass_rate s = pass_rate_of (total_passed s) (total_tests s)
  ∧ (total_tests s <= 0 → pass_rate s = 0)
  ∧ (0 < total_tests s → 0 <= total_passed s < 2 ^ 43 →
     2 * Z.abs (pass_rate s * total_tests s - 100 * total_passed s)
       <= total_tests s
     ∧ (¬ is_tie (total_passed s) (total_tests s) →
        pass_rate s = spec_pass_rate (total_passed s) (total_tests s)))
  ∧ pass_rate_of 7 9 = 78.
Proof.
  intros Hs.
  assert (Hpr : pass_rate s = pass_rate_of (total_passed s) (total_tests s)).
  { destruct Hs as [Hs|[modules Hs]]; by apply summarize_pass_rate in Hs. }
  split; [exact Hpr|]. rewrite Hpr. split; [|split].
  - intros Hle. unfold pass_rate_of.
    destruct (Z.ltb_spec 0 (total_tests s)); [lia|done].
  - intros Ht [Hp Hb].
    pose proof (pass_rate_of_nearest _ _ Hp Ht Hb) as Hn.
    split; [exact Hn|]. intros Htie.
    apply (nearest_unique (total_passed s) (total_tests s)); try done.
    by apply spec_pass_rate_nearest.
  - vm_compute. reflexivity.
Qed.

(** A run of one module, 9 tests of which 7 passed. *)
Lemma pass_rate_is_a_nearest_integer_witness :
  ∃ s, Pdf.calculate_summary
         [ {[ "test_cases_run" := PInt 9; "test_cases_passed" := PInt 7 ]} ] = Ok s
       ∧ total_tests s = 9 ∧ total_passed s = 7 ∧ pass_rate s = 78
       ∧ 2 * Z.abs (pass_rate s * 9 - 100 * 7) <= 9.
Proof.
  eexists. split; [vm_compute; reflexivity|].
  match goal with
  | |- context [ total_tests ?s ] =>
      destruct (pass_rate_is_a_nearest_integer
        [ {[ "test_cases_run" := PInt 9; "test_cases_passed" := PInt 7 ]} ] s)
        as (_ & _ & H & _)
  end.
  { left. vm_compute. reflexivity. }
  simpl in *. repeat split; try reflexivity.
  destruct H as [H _]; [lia | lia | exact H].
Defined.

(** C1, as the specification states it, fails: 23 passed of 40 is 57.5
    percent, which every rounding convention takes to 58; the code computes
    [23 / 40 * 100 = 57.49999999999999] and reports 57. *)
Lemma pass_rate_tie_counterexample :
  ∃ s, Pdf.calculate_summary
         [ {[ "test_cases_run" := PInt 40; "test_cases_passed" := PInt 23 ]} ] = Ok s
       ∧ total_tests s = 40 ∧ total_passed s = 23
       ∧ pass_rate s = 57
       ∧ spec_pass_rate 23 40 = 58
       ∧ spec_pass_rate_half_up 23 40 = 58
       ∧ pass_rate s ≠ spec_pass_rate (total_passed s) (total_tests s).
Proof.
  eexists. split; [vm_compute; reflexivity|].
  repeat split; try (vm_compute; reflexivity). vm_compute. discriminate.
Qed.

End PassRateProps.

(** ** The run-level reducer *)

Module SummaryProps.

Lemma py_sum_from_Permutation (l1 l2 : list pyval) :
  l1 ≡ₚ l2 → ∀ acc, py_sum_from acc l1 = py_sum_from acc l2.
Proof.
  induction 1 as [|x l1 l2 _ IH|x y l|l1 l2 l3 _ IH1 _ IH2]; intros acc.
  - done.
  - destruct x; simpl; auto.
  - destruct x, y; simpl; try done. f_equal. lia.
  - by rewrite IH1.
Qed.

Lemma sum_field_Permutation key (records records' : list dict) :
  records ≡ₚ records' → sum_field key records = sum_field key records'.
Proof.
  intros H. unfold sum_field, py_sum.
  apply py_sum_from_Permutation. by apply fmap_Permutation.
Qed.

Lemma summarize_Permutation (records records' : list dict) :
  records ≡ₚ records' → summarize records = summarize records'.
Proof.
  intros H. unfold summarize, len.
  by rewrite !(sum_field_Permutation _ _ _ H), (Permutation_length H).
Qed.

(** On integer counts the sum is the arithmetic sum, and it is defined. *)
Lemma py_sum_from_ints acc (zs : list Z) :
  py_sum_from acc (PInt <$> zs) = Ok (acc + foldr Z.add 0 zs).
Proof.
  revert acc. induction zs as [|z zs IH]; intros acc; simpl.
  - f_equal. lia.
  - rewrite IH. f_equal. lia.
Qed.

(** C8. The run-level summary (total tests, passed, failed, skipped,
    pass rate, module count) of a module sequence is that of any
    permutation of the sequence, for both generators. *)
Theorem summary_invariant_under_permutation :
  (∀ modules modules' : list Html.module_dict,
     modules ≡ₚ modules' →
     Html.overall_stats modules = Html.overall_stats modules')
  ∧ (∀ records records' : list dict,
       records ≡ₚ records' →
       Pdf.calculate_summary records = Pdf.calculate_summary records').
Proof.
  split.
  - intros modules modules' H. unfold Html.overall_stats.
    apply summarize_Permutation. by apply fmap_Permutation.
  - intros records records' H. by apply summarize_Permutation.
Qed.

(** The scenario of the specification, in both orders. *)
Lemma summary_invariant_under_permutation_witness :
  let login : dict :=
    {[ "module_name" := PStr "login"; "test_cases_run" := PInt 10;
       "test_cases_passed" := PInt 8; "test_cases_failed" := PInt 2;
       "test_cases_skipped" := PInt 0 ]} in
  let payments : dict :=
    {[ "module_name" := PStr "payments"; "test_cases_run" := PInt 5;
       "test_cases_passed" := PInt 5; "test_cases_failed" := PInt 0;
       "test_cases_skipped" := PInt 0 ]} in
  Pdf.calculate_summary [payments; login]
  = Ok {| total_modules := 2; total_tests := 15; total_passed := 13;
          total_failed := 2; total_skipped := 0; pass_rate := 87 |}
  ∧ Pdf.calculate_summary [login; payments]
    = Pdf.calculate_summary [payments; login].
Proof.
  intros login payments. split; [vm_compute; reflexivity|].
  apply (proj2 summary_invariant_under_permutation). apply Permutation_swap.
Defined.

(** C10, as the code has it. The environment label of a non-empty module
    sequence is the printed form of the ['runenv'] entry of its first
    module alone, ['Unknown'] when the entry is missing; when the first
    modules of two orders of the sequence carry different environment
    strings, the two orders show different labels, each that of its first
    module, and the same run-level summary. *)
Theorem environment_label_from_first_module :
  (∀ (m : Html.module_dict) rest,
     Html.run_env (m :: rest) = get_or (Html.m_fields m) "runenv" (PStr "Unknown")
     ∧ Html.run_env_label (m :: rest)
       = py_str (get_or (Html.m_fields m) "runenv" (PStr "Unknown"))
     ∧ (Html.m_fields m !! "runenv" = None →
        Html.run_env_label (m :: rest) = "Unknown"))
  ∧ (∀ (r : dict) rest,
       Pdf.environment (r :: rest) = Some (get_or r "runenv" (PStr "Unknown"))
       ∧ Pdf.environment_label (r :: rest)
         = Some (py_str (get_or r "runenv" (PStr "Unknown")))
       ∧ (r !! "runenv" = None →
          Pdf.environment_label (r :: rest) = Some "Unknown"))
  ∧ (∀ (m m' : Html.module_dict) rest rest' (env env' : string),
       m :: rest ≡ₚ m' :: rest' →
       Html.m_fields m !! "runenv" = Some (PStr env) →
       Html.m_fields m' !! "runenv" = Some (PStr env') →
       env ≠ env' →
       Html.run_env_label (m :: rest) = env
       ∧ Html.run_env_label (m' :: rest') = env'
       ∧ Html.run_env_label (m :: rest) ≠ Html.run_env_label (m' :: rest')
       ∧ Html.overall_stats (m :: rest) = Html.overall_stats (m' :: rest'))
  ∧ (∀ (r r' : dict) rest rest' (env env' : string),
       r :: rest ≡ₚ r' :: rest' →
       r !! "runenv" = Some (PStr env) →
       r' !! "runenv" = Some (PStr env') →
       env ≠ env' →
       Pdf.environment_label (r :: rest) = Some env
       ∧ Pdf.environment_label (r' :: rest') = Some env'
       ∧ Pdf.environment_label (r :: rest) ≠ Pdf.environment_label (r' :: rest')
       ∧ Pdf.calculate_summary (r :: rest) = Pdf.calculate_summary (r' :: rest')).
Proof.
  assert (Hhtml : ∀ (m : Html.module_dict) rest env,
            Html.m_fields m !! "runenv" = Some (PStr env) →
            Html.run_env_label (m :: rest) = env).
  { intros m rest env H. unfold Html.run_env_label, Html.run_env. simpl.
    unfold get_or. by rewrite H. }
  assert (Hpdf : ∀ (r : dict) rest env,
            r !! "runenv" = Some (PStr env) →
            Pdf.environment_label (r :: rest) = Some env).
  { intros r rest env H. unfold Pdf.environment_label. simpl.
    unfold get_or. by rewrite H. }
  split; [|split; [|split]].
  - intros m rest. split; [done|]. split; [done|]. intros H.
    unfold Html.run_env_label, Html.run_env. simpl. unfold get_or. by rewrite H.
  - intros r rest. split; [done|]. split; [done|]. intros H.
    unfold Pdf.environment_label. simpl. unfold get_or. by rewrite H.
  - intros m m' rest rest' env env' Hp Hm Hm' Hne.
    rewrite (Hhtml m rest env Hm), (Hhtml m' rest' env' Hm').
    repeat split; [done|].
    unfold Html.overall_stats. apply summarize_Permutation.
    by apply fmap_Permutation.
  - intros r r' rest rest' env env' Hp Hr Hr' Hne.
    rewrite (Hpdf r rest env Hr), (Hpdf r' rest' env' Hr').
    repeat split; [congruence|].
    by apply summarize_Permutation.
Qed.

(** Two modules run in different environments. *)
Lemma environment_label_from_first_module_witness :
  let staging : Html.module_dict :=
    {| Html.m_fields := {[ "module_name" := PStr "login"; "runenv" := PStr "staging";
                           "test_cases_run" := PInt 3; "test_cases_passed" := PInt 3 ]};
       Html.m_tests := None |} in
  let prod : Html.module_dict :=
    {| Html.m_fields := {[ "module_name" := PStr "payments"; "runenv" := PStr "prod";
                           "test_cases_run" := PInt 2; "test_cases_passed" := PInt 1 ]};
       Html.m_tests := None |} in
  Html.run_env_label [staging; prod] = "staging"
  ∧ Html.run_env_label [prod; staging] = "prod"
  ∧ Html.run_env_label [staging; prod] ≠ Html.run_env_label [prod; staging]
  ∧ Html.overall_stats [staging; prod] = Html.overall_stats [prod; staging]
  ∧ Html.overall_stats [staging; prod]
    = Ok {| total_modules := 2; total_tests := 5; total_passed := 4;
            total_failed := 0; total_skipped := 0; pass_rate := 80 |}.
Proof.
  intros staging prod.
  destruct environment_label_from_first_module as (_ & _ & H & _).
  destruct (H staging prod [prod] [staging] "staging" "prod")
    as (H1 & H2 & H3 & H4).
  { apply Permutation_swap. }
  { reflexivity. }
  { reflexivity. }
  { discriminate. }
  split; [exact H1|]. split; [exact H2|]. split; [exact H3|]. split; [exact H4|].
  vm_compute. reflexivity.
Defined.

(** C10, as the specification states it, fails: environment values that
    differ need not print differently.  A module whose run has no
    environment (null) and one whose environment is the string "None" give
    the same label in either order, and so do a record without the entry
    and one whose environment is the string "Unknown". *)
Lemma differing_environments_counterexample :
  let null : dict := {[ "module_name" := PStr "login"; "runenv" := PNone ]} in
  let none : dict := {[ "module_name" := PStr "payments"; "runenv" := PStr "None" ]} in
  let missing : dict := {[ "module_name" := PStr "login" ]} in
  let unknown : dict :=
    {[ "module_name" := PStr "payments"; "runenv" := PStr "Unknown" ]} in
  let module (fields : dict) :=
    {| Html.m_fields := fields; Html.m_tests := Some [] |} in
  get null "runenv" ≠ get none "runenv"
  ∧ [null; none] ≡ₚ [none; null]
  ∧ Pdf.environment [null; none] ≠ Pdf.environment [none; null]
  ∧ Pdf.environment_label [null; none] = Some "None"
  ∧ Pdf.environment_label [none; null] = Some "None"
  ∧ Html.run_env [module null; module none] ≠ Html.run_env [module none; module null]
  ∧ Html.run_env_label [module null; module none]
    = Html.run_env_label [module none; module null]
  ∧ missing !! "runenv" = None
  ∧ Pdf.environment_label [missing; unknown] = Pdf.environment_label [unknown; missing].
Proof.
  intros null none missing unknown module.
  repeat split; try (vm_compute; reflexivity); try (vm_compute; discriminate).
  apply Permutation_swap.
Qed.

(** On the modules that [fetch_current_run_data] builds, the reducer is
    defined: every count it reads is an integer. *)
Lemma sum_field_fetched key (count : list dict → Z) (rows : list Html.module_row) :
  (∀ row, get_or (Html.m_fields (Html.parsed_module row)) key (PInt 0)
          = PInt (count (Html.row_tests row))) →
  sum_field key (map Html.m_fields (Html.fetch_current_run_data rows))
  = Ok (foldr Z.add 0 (map (λ row, count (Html.row_tests row)) rows)).
Proof.
  intros Hkey. unfold sum_field, py_sum, Html.fetch_current_run_data.
  change (Ok (foldr Z.add 0 (map (λ row, count (Html.row_tests row)) rows)))
    with (Ok (0 + foldr Z.add 0 (map (λ row, count (Html.row_tests row)) rows))).
  generalize 0 at 1 3.
  induction rows as [|row rows IH]; intros acc; cbn [map py_sum_from foldr].
  - f_equal. lia.
  - rewrite Hkey. cbn [py_sum_from]. rewrite IH. f_equal. lia.
Qed.


(** In the HTML pipeline the modules come from [fetch_current_run_data],
    which always stores the ['runenv'] entry; a row without that column
    therefore yields the label "None", not "Unknown". *)
Lemma fetched_run_env_label (row : Html.module_row) rows :
  Html.run_env_label (Html.fetch_current_run_data (row :: rows))
  = py_str (get (Html.row_fields row) "runenv").
Proof.
  unfold Html.run_env_label, Html.run_env, Html.fetch_current_run_data.
  simpl. unfold get_or.
  rewrite !lookup_insert_ne by done. by rewrite lookup_insert_eq.
Qed.

End SummaryProps.

(** ** The differ, per test *)

Module DifferProps.
Import Html DifferSpec FloatProps.

Lemma float_of_int_100 : float_of_int 100 = 100%Q.
Proof. vm_compute. reflexivity. Qed.

(** The computed percentage is within [2^-51], relatively, of the exact
    [100 * time_diff / prev_duration]. *)
Lemma percent_change_err (time_diff prev_duration : Z) :
  let exact := (100 * inject_Z time_diff / inject_Z prev_duration)%Q in
  (Qabs (float_mul (int_truediv time_diff prev_duration) (float_of_int 100) - exact)
   <= Qabs exact * (1 # 2251799813685248))%Q.
Proof.
  intros exact. unfold float_mul, int_truediv. rewrite float_of_int_100.
  set (q := (inject_Z time_diff / inject_Z prev_duration)%Q).
  pose proof (fl_round_err q) as H1.
  set (d1 := fl_round q) in *.
  pose proof (fl_round_err (d1 * 100)) as H2.
  set (pct := fl_round (d1 * 100)) in *.
  assert (Hex : (exact == 100 * q)%Q).
  { unfold exact, q. unfold Qdiv. ring. }
  assert (Ha : (Qabs exact == 100 * Qabs q)%Q).
  { rewrite Hex, Qabs_Qmult. reflexivity. }
  assert (Hc : (Qabs (d1 * 100) <= 100 * (Qabs q + Qabs (d1 - q)))%Q).
  { rewrite Qabs_Qmult. change (Qabs 100) with 100%Q.
    assert (Qabs d1 <= Qabs q + Qabs (d1 - q))%Q.
    { assert (Hd1 : (Qabs d1 == Qabs (q + (d1 - q)))%Q) by (apply Qabs_wd; ring).
      rewrite Hd1. apply Qabs_triangle. }
    lra. }
  assert (Hg : (Qabs (pct - exact) <= Qabs (pct - d1 * 100) + 100 * Qabs (d1 - q))%Q).
  { assert (Hpe : (Qabs (pct - exact)
                    == Qabs ((pct - d1 * 100) + 100 * (d1 - q)))%Q)
      by (apply Qabs_wd; rewrite Hex; ring).
    rewrite Hpe. eapply Qle_trans; [apply Qabs_triangle|].
    rewrite (Qabs_Qmult 100). change (Qabs 100) with 100%Q. lra. }
  pose proof (Qabs_nonneg q) as Hq0.
  unfold half_ulp in *. rewrite Ha.
  set (a := Qabs q) in *. set (b := Qabs (d1 - q)) in *.
  set (c := Qabs (d1 * 100)) in *. set (e := Qabs (pct - d1 * 100)) in *.
  set (g := Qabs (pct - exact)) in *.
  nra.
Qed.

Lemma time_diff_html_ints (d pd : Z) :
  d ≠ 0 → pd ≠ 0 →
  time_diff_html (PInt d) (PInt pd)
  = Ok (let time_diff := d - pd in
        let percent_change :=
          if 0 <? pd
          then float_mul (int_truediv time_diff pd) (float_of_int 100)
          else 0%Q in
        if 0 <? time_diff then DiffWorse time_diff percent_change
        else if time_diff <? 0 then DiffBetter time_diff percent_change
        else DiffSame).
Proof.
  intros Hd Hpd. unfold time_diff_html, truthy.
  destruct (Z.eqb_spec d 0) as [|_]; [done|].
  destruct (Z.eqb_spec pd 0) as [|_]; [done|].
  simpl. destruct (0 <? pd); simpl.
  - destruct (Z.eqb_spec pd 0) as [|_]; [done|]. simpl.
    destruct (0 <? d - pd); [done|]. by destruct (d - pd <? 0).
  - destruct (0 <? d - pd); [done|]. by destruct (d - pd <? 0).
Qed.

(** C5, as the code has it. A missing duration defaults to 0, and a
    duration of 0, whether recorded or defaulted, means "no timing": the
    current time is shown as N/A and the comparison cell is the
    not-applicable one, so that a test with a recorded 0 and the same test
    without a duration give the same row; a comparison is shown only when
    the current and the matched previous duration are both different from
    zero. *)
Theorem zero_duration_means_no_timing :
  (∀ test : dict,
     test !! "duration_ms" = None → test !! "duration" = None →
     duration_of test = PInt 0)
  ∧ (∀ (test : dict) prev_test row,
       duration_of test = PInt 0 →
       test_row_for test prev_test = Ok row →
       row_current_time row = TimeNA ∧ row_time_diff row = DiffNA)
  ∧ (∀ (test : dict) prev_test,
       test !! "duration_ms" = None → test !! "duration" = None →
       test_row_for (<["duration_ms" := PInt 0]> test) prev_test
       = test_row_for test prev_test)
  ∧ (∀ (test : dict) prev_test row,
       test_row_for test prev_test = Ok row →
       row_time_diff row ≠ DiffNA →
       truthy (duration_of test) = true
       ∧ ∃ pt, prev_test = Some pt ∧ truthy (duration_of pt) = true).
Proof.
  split; [|split; [|split]].
  - intros test H1 H2. unfold duration_of, get_or. by rewrite H1, H2.
  - intros test prev_test row Hd. unfold test_row_for, prev_columns.
    rewrite Hd. cbn [truthy Z.eqb negb mbind result_bind].
    destruct prev_test as [pt|]; [|intros [= <-]; done].
    destruct (dict_truthy pt); [|intros [= <-]; done].
    destruct (truthy (duration_of pt)) eqn:Ept; [|intros [= <-]; done].
    destruct (seconds (duration_of pt)) as [pt_time|]; [|done].
    unfold time_diff_html. cbn [truthy Z.eqb negb andb mbind result_bind].
    intros [= <-]. done.
  - intros test prev_test H1 H2. unfold test_row_for, test_name, duration_of, get_or.
    rewrite lookup_insert_eq. rewrite !lookup_insert_ne by done.
    by rewrite H1, H2.
  - intros test prev_test row. unfold test_row_for, prev_columns.
    destruct (truthy (duration_of test)) eqn:Ed.
    + destruct (seconds (duration_of test)); [|done]. cbn [mbind result_bind].
      destruct prev_test as [pt|]; [|by intros [= <-]].
      destruct (dict_truthy pt); [|by intros [= <-]].
      destruct (truthy (duration_of pt)) eqn:Ept; [|by intros [= <-]].
      intros _ _. split; [done|]. by exists pt.
    + cbn [mbind result_bind].
      destruct prev_test as [pt|]; [|by intros [= <-]].
      destruct (dict_truthy pt); [|by intros [= <-]].
      destruct (truthy (duration_of pt)) eqn:Ept; [|by intros [= <-]].
      destruct (seconds (duration_of pt)); [|done].
      unfold time_diff_html. rewrite Ed. cbn [andb mbind result_bind].
      by intros [= <-].
Qed.

(** A test with no duration, against a previous run of 2500 ms. *)
Lemma zero_duration_means_no_timing_witness :
  let prev_test := timed_test "checkout" (Some 2500) in
  let test := timed_test "checkout" None in
  test_row_for (<["duration_ms" := PInt 0]> test) (Some prev_test)
  = test_row_for test (Some prev_test)
  ∧ ∃ row, test_row_for test (Some prev_test) = Ok row
      ∧ row_current_time row = TimeNA ∧ row_time_diff row = DiffNA.
Proof.
  intros prev_test test.
  destruct zero_duration_means_no_timing as (H1 & H2 & H3 & _).
  split.
  - apply H3; vm_compute; reflexivity.
  - eexists. split; [vm_compute; reflexivity|].
    eapply (H2 test (Some prev_test)); vm_compute; reflexivity.
Defined.

(** C5, as the specification states it, fails: a recorded duration of
    exactly 0 ms is not compared with the previous 2500 ms, and its row is
    the row of a test with no duration at all. *)
Lemma recorded_zero_duration_counterexample :
  let prev_test := timed_test "checkout" (Some 2500) in
  let recorded_zero := timed_test "checkout" (Some 0) in
  let absent := timed_test "checkout" None in
  recorded_zero !! "duration_ms" = Some (PInt 0)
  ∧ absent !! "duration_ms" = None ∧ absent !! "duration" = None
  ∧ test_row_for recorded_zero (Some prev_test) = test_row_for absent (Some prev_test)
  ∧ ∃ row, test_row_for recorded_zero (Some prev_test) = Ok row
      ∧ row_current_time row = TimeNA
      ∧ row_time_diff row = DiffNA
      ∧ cell_classification (row_time_diff row) = "not-applicable"
      ∧ spec_classification (0 - 2500) = "better".
Proof.
  intros prev_test recorded_zero absent.
  repeat split; try (vm_compute; reflexivity).
  eexists. repeat split; vm_compute; reflexivity.
Qed.

(** *** Which previous test is matched *)

Lemma first_match_app name l1 l2 :
  first_match name (l1 ++ l2)
  = match first_match name l1 with
    | Some t => Some t
    | None => first_match name l2
    end.
Proof.
  induction l1 as [|t l1 IH]; simpl; [done|].
  by destruct (py_eq (test_name EmptyString t) name).
Qed.

Lemma first_match_None name l :
  (∀ t, t ∈ l → test_name EmptyString t ≠ name) → first_match name l = None.
Proof.
  induction l as [|t l IH]; intros H; simpl; [done|].
  unfold py_eq. rewrite bool_decide_eq_false_2 by (apply H; set_solver).
  apply IH. intros t' Ht'. apply H. set_solver.
Qed.

Lemma last_match_cons name t l :
  last_match name (t :: l)
  = match last_match name l with
    | Some t' => Some t'
    | None => if py_eq (test_name EmptyString t) name then Some t else None
    end.
Proof. unfold last_match. by rewrite reverse_cons, first_match_app. Qed.

(** Storing the tests in sequence order leaves, under each name, the last
    test that carries it. *)
Lemma foldl_insert_lookup (l : list dict) (m : gmap pyval dict) name :
  foldl (λ acc test, <[test_name EmptyString test := test]> acc) m l !! name
  = match last_match name l with
    | Some t => Some t
    | None => m !! name
    end.
Proof.
  revert m. induction l as [|t l IH]; intros m; [done|].
  simpl foldl. rewrite IH, last_match_cons.
  destruct (last_match name l); [done|].
  rewrite lookup_insert. unfold py_eq.
  destruct (decide (test_name EmptyString t = name)) as [->|Hne].
  - by rewrite bool_decide_eq_true_2.
  - by rewrite bool_decide_eq_false_2.
Qed.

Lemma prev_tests_map_lookup pm name :
  module_truthy pm = true →
  prev_tests_map (Some pm) !! name = last_match name (module_tests pm).
Proof.
  intros H. unfold prev_tests_map. rewrite H, foldl_insert_lookup.
  by destruct (last_match name (module_tests pm)).
Qed.

Lemma mapM_result_ext {A B} (f g : A → result B) (l : list A) :
  (∀ x, f x = g x) → mapM f l = mapM g l.
Proof. intros H. induction l as [|x l IH]; simpl; [done|]. by rewrite H, IH. Qed.

(** C6, as the code has it. Against a previous module, each current test
    is matched with the last outcome of the previous sequence that carries
    its name (every outcome is stored under its name in sequence order, a
    later one replacing an earlier one), and the row is computed from that
    outcome. *)
Theorem previous_test_is_the_last_match (module pm : module_dict) :
  module_truthy pm = true →
  (∀ name, prev_tests_map (Some pm) !! name = last_match name (module_tests pm))
  ∧ (∀ before t after,
       module_tests pm = before ++ t :: after →
       (∀ t', t' ∈ after → test_name EmptyString t' ≠ test_name EmptyString t) →
       prev_tests_map (Some pm) !! test_name EmptyString t = Some t)
  ∧ generate_test_list_html module (Some pm)
    = match module_tests module with
      | [] => Ok NoTestData
      | _ :: _ =>
          rows ← mapM (λ test,
                    test_row_for test
                      (last_match (test_name "Unknown Test" test) (module_tests pm)))
                  (module_tests module);
          Ok (TestTable rows)
      end.
Proof.
  intros Hpm. split; [|split].
  - intros name. by apply prev_tests_map_lookup.
  - intros before t after Hl Hafter.
    rewrite prev_tests_map_lookup, Hl by done.
    unfold last_match.
    rewrite reverse_app, reverse_cons, <-app_assoc, first_match_app.
    rewrite first_match_None.
    + simpl. unfold py_eq. by rewrite bool_decide_eq_true_2.
    + intros t' Ht'. apply Hafter. by apply elem_of_reverse.
  - unfold generate_test_list_html.
    destruct (module_tests module) as [|test tests]; [done|].
    erewrite mapM_result_ext; [reflexivity|].
    intros x. cbn beta. by rewrite prev_tests_map_lookup.
Qed.

(** Two previous outcomes named alike, 1000 ms then 3000 ms; now 2000 ms. *)
Lemma previous_test_is_the_last_match_witness :
  let first := timed_test "search" (Some 1000) in
  let second := timed_test "search" (Some 3000) in
  let pm := {| m_fields := ∅; m_tests := Some [first; second] |} in
  let module := {| m_fields := ∅; m_tests := Some [timed_test "search" (Some 2000)] |} in
  prev_tests_map (Some pm) !! PStr "search" = Some second
  ∧ ∃ row, generate_test_list_html module (Some pm) = Ok (TestTable [row])
      ∧ row_prev_time row = TimeSeconds 3.
Proof.
  intros first second pm module.
  destruct (previous_test_is_the_last_match module pm) as (H1 & H2 & H3);
    [vm_compute; reflexivity|].
  split.
  - rewrite H1. vm_compute. reflexivity.
  - rewrite H3. eexists. split; vm_compute; reflexivity.
Defined.

(** C6, as the specification states it, fails: of two previous outcomes
    with the name of the current test, the first one ran 1000 ms and the
    second 3000 ms; first-match would report the current 2000 ms as 1000 ms
    worse, the code reports it as 1000 ms better than the second. *)
Lemma first_match_counterexample :
  let first := timed_test "search" (Some 1000) in
  let second := timed_test "search" (Some 3000) in
  let pm := {| m_fields := ∅; m_tests := Some [first; second] |} in
  let test := timed_test "search" (Some 2000) in
  let module := {| m_fields := ∅; m_tests := Some [test] |} in
  first_match (test_name "Unknown Test" test) (module_tests pm) = Some first
  ∧ prev_tests_map (Some pm) !! test_name "Unknown Test" test = Some second
  ∧ duration_of first = PInt 1000 ∧ duration_of second = PInt 3000
  ∧ (∃ row, test_row_for test (Some first) = Ok row
       ∧ row_prev_time row = TimeSeconds 1
       ∧ cell_classification (row_time_diff row) = "worse")
  ∧ (∃ row, generate_test_list_html module (Some pm) = Ok (TestTable [row])
       ∧ row_prev_time row = TimeSeconds 3
       ∧ cell_classification (row_time_diff row) = "better"
       ∧ test_row_for test (Some first) ≠ Ok row).
Proof.
  intros first second pm test module.
  split; [vm_compute; reflexivity|]. split; [vm_compute; reflexivity|].
  split; [vm_compute; reflexivity|]. split; [vm_compute; reflexivity|]. split.
  - eexists. repeat split; vm_compute; reflexivity.
  - eexists. split; [vm_compute; reflexivity|].
    repeat split; try (vm_compute; reflexivity). vm_compute. discriminate.
Qed.

(** ** The differ, per module *)

Lemma comparison_html_nonempty tp tf ts d :
  comparison_html tp tf ts (Some d) ≠ EmptyString.
Proof. unfold comparison_html. discriminate. Qed.

(** C7. For every current module whose name is not a key of the previous
    run's module map, no module delta is produced and the comparison block
    of its card is the empty string; a block is never empty when a delta
    exists, a delta of zeros included. *)
Theorem no_previous_module_no_comparison
    (module : module_dict) (prev_map : gmap pyval module_dict) (module_name : pyval) :
  module_name_of module = Ok module_name →
  prev_map !! module_name = None →
  (∀ tests_passed tests_failed tests_skipped,
     module_comparison tests_passed tests_failed tests_skipped
       (prev_map !! module_name) = Ok None
     ∧ comparison_html tests_passed tests_failed tests_skipped None = EmptyString)
  ∧ (∀ card, module_card_for module prev_map = Ok card →
       card_delta card = None ∧ card_comparison_html card = EmptyString)
  ∧ (∀ tests_passed tests_failed tests_skipped d,
       comparison_html tests_passed tests_failed tests_skipped (Some d)
       ≠ EmptyString).
Proof.
  intros Hname Hprev. split; [|split].
  - intros tp tf ts. by rewrite Hprev.
  - intros card. unfold module_card_for. rewrite Hname. cbn [mbind result_bind].
    destruct (status_class _ _ _) as [status|]; [|done]. cbn [mbind result_bind].
    rewrite Hprev. cbn [module_comparison mbind result_bind].
    destruct module_name; try done. cbn [mbind result_bind].
    destruct (generate_test_list_html module None) as [tests|]; [|done].
    cbn [mbind result_bind]. by intros [= <-].
  - intros. apply comparison_html_nonempty.
Qed.

(** A module of the current run, and a previous run that has another one. *)
Lemma no_previous_module_no_comparison_witness :
  let module :=
    parsed_module {| row_fields := {[ "module_name" := PStr "payments" ]};
                     row_tests := [ {[ "name" := PStr "pay"; "status" := PStr "passed" ]} ] |} in
  let previous :=
    parsed_prev_module {| row_fields := {[ "module_name" := PStr "login" ]};
                          row_tests := [ {[ "name" := PStr "pay"; "status" := PStr "passed" ]} ] |} in
  let prev_map := prev_map_of (Some [previous]) in
  ∃ card, module_card_for module prev_map = Ok card
    ∧ card_delta card = None ∧ card_comparison_html card = EmptyString.
Proof.
  intros module previous prev_map.
  destruct (no_previous_module_no_comparison module prev_map (PStr "payments"))
    as (_ & H & _); [vm_compute; reflexivity | vm_compute; reflexivity |].
  eexists. split; [vm_compute; reflexivity|]. apply H. vm_compute. reflexivity.
Defined.

End DifferProps.

(** ** The range of the floats *)

Module RangeProps.
Import FloatProps.

Local Open Scope Q_scope.

Lemma pow2_ge_1 n : (0 <= n)%Z → 1 <= pow2 n.
Proof.
  intros Hn. rewrite <- pow2_inject by done.
  change 1 with (inject_Z 1). rewrite <- Zle_Qle.
  pose proof (Z.pow_pos_nonneg 2 n). lia.
Qed.

Lemma pow2_le a b : (a <= b)%Z → pow2 a <= pow2 b.
Proof.
  intros H. replace b with (a + (b - a))%Z by lia. rewrite pow2_add.
  pose proof (pow2_pos a). pose proof (pow2_ge_1 (b - a) ltac:(lia)). nra.
Qed.

Lemma pow2_lt_inv a b : pow2 a < pow2 b → (a < b)%Z.
Proof.
  intros H. destruct (Z_lt_le_dec a b) as [|Hle]; [done|].
  apply pow2_le in Hle. lra.
Qed.

Lemma floor_log2_lower x k : 0 < x → pow2 k <= x → (k <= floor_log2 x)%Z.
Proof.
  intros Hx Hk. destruct (floor_log2_spec x Hx) as [_ Hup].
  assert (k < floor_log2 x + 1)%Z; [|lia].
  apply pow2_lt_inv. lra.
Qed.

Lemma floor_log2_upper x k : 0 < x → x < pow2 k → (floor_log2 x < k)%Z.
Proof.
  intros Hx Hk. destruct (floor_log2_spec x Hx) as [Hlo _].
  apply pow2_lt_inv. lra.
Qed.

(** Where the result is normal, the rounding is that of [fl_round]. *)
Lemma b64_round_normal x : pow2 (-1022) <= Qabs x → b64_round x = fl_round x.
Proof.
  intros Hx. unfold b64_round, fl_round.
  destruct (Qeq_bool x 0) eqn:E; [done|].
  assert (Hpos : 0 < Qabs x). { pose proof (pow2_pos (-1022)). lra. }
  pose proof (floor_log2_lower _ _ Hpos Hx).
  by rewrite Z.max_l by lia.
Qed.

Lemma b64_round_0 x : x == 0 → b64_round x = 0.
Proof. intros H. unfold b64_round. apply Qeq_bool_iff in H. by rewrite H. Qed.

(** The rounding moves a number by at most half a unit in the last
    place. *)
Lemma b64_round_err x k :
  Qabs x < pow2 k → (-1021 <= k)%Z →
  Qabs (b64_round x - x) <= pow2 (k - 53) * (1 # 2).
Proof.
  intros Hx Hk. unfold b64_round.
  destruct (Qeq_bool x 0) eqn:E.
  { apply Qeq_bool_iff in E.
    assert (H0 : 0 - x == 0) by (rewrite E; ring).
    rewrite H0. pose proof (pow2_pos (k - 53)). change (Qabs 0) with 0. lra. }
  assert (Hne : ¬ x == 0). { rewrite <- Qeq_bool_iff. congruence. }
  rewrite Qred_correct.
  pose proof (Qabs_pos_lt x Hne) as Hax.
  pose proof (floor_log2_upper _ _ Hax Hx) as Hfl.
  set (e := Z.max (floor_log2 (Qabs x) - 52) (-1074)).
  assert (He : (e <= k - 53)%Z) by (unfold e; lia).
  pose proof (pow2_pos e) as Hpe.
  pose proof (pow2_le _ _ He) as Hle.
  pose proof (Qround_half_even_err (x / pow2 e)) as Hr.
  set (m := inject_Z (Qround_half_even (x / pow2 e))) in *.
  assert (Hy : x == (x / pow2 e) * pow2 e) by (field; lra).
  set (y := x / pow2 e) in *.
  assert (Hd : m * pow2 e - x == (m - y) * pow2 e) by (rewrite Hy at 1; ring).
  rewrite Hd, Qabs_Qmult, (Qabs_pos (pow2 e)) by lra.
  set (a := Qabs (m - y)) in *.
  pose proof (Qabs_nonneg (m - y)). fold a in H. nra.
Qed.

Lemma Qabs_le_add x y : Qabs x <= Qabs y + Qabs (x - y).
Proof.
  assert (H : Qabs x == Qabs (y + (x - y))) by (apply Qabs_wd; ring).
  rewrite H. apply Qabs_triangle.
Qed.

Lemma Qabs_ge_sub x y : Qabs y - Qabs (x - y) <= Qabs x.
Proof.
  pose proof (Qabs_le_add y x) as H.
  assert (H' : Qabs (y - x) == Qabs (x - y)).
  { rewrite <- (Qabs_opp (y - x)). apply Qabs_wd. ring. }
  lra.
Qed.

(** Below [2^1023] nothing overflows. *)
Lemma to_float_finite x : Qabs x < pow2 1023 → to_float x = FFinite (b64_round x).
Proof.
  intros Hx. unfold to_float.
  pose proof (b64_round_err x 1023 Hx ltac:(lia)) as He.
  pose proof (Qabs_le_add (b64_round x) x) as Ht.
  assert (H1 : pow2 (1023 - 53) <= pow2 1023) by (apply pow2_le; lia).
  assert (H2 : pow2 1024 == 2 * pow2 1023) by (rewrite <- pow2_succ; reflexivity).
  pose proof (pow2_pos (1023 - 53)).
  destruct (Qle_bool (pow2 1024) (Qabs (b64_round x))) eqn:E; [|done].
  apply Qle_bool_iff in E. lra.
Qed.

Lemma to_float_normal x :
  x == 0 ∨ pow2 (-1022) <= Qabs x → Qabs x < pow2 1023 →
  to_float x = FFinite (fl_round x).
Proof.
  intros [H0|Hn] Hx; rewrite (to_float_finite x Hx).
  - by rewrite (b64_round_0 x H0), (fl_round_0 x H0).
  - by rewrite (b64_round_normal x Hn).
Qed.

End RangeProps.

(** ** Floats and the grid of binary64 *)

Module GridProps.
Import FloatProps RangeProps TimingSpec.

Local Open Scope Q_scope.

Lemma Qabs_inject_Z z : Qabs (inject_Z z) = inject_Z (Z.abs z).
Proof. reflexivity. Qed.

Lemma pow2_opp n : pow2 n * pow2 (- n) == 1.
Proof. rewrite <- pow2_add. by replace (n + - n)%Z with 0%Z by lia. Qed.

Lemma Qround_half_even_comp x y : x == y → Qround_half_even x = Qround_half_even y.
Proof.
  intros H. unfold Qround_half_even.
  rewrite (Qfloor_comp _ _ H).
  assert (Hc : (x - inject_Z (Qfloor y) ?= 1 # 2) = (y - inject_Z (Qfloor y) ?= 1 # 2)).
  { by rewrite H. }
  by rewrite Hc.
Qed.

Lemma on_grid_sub a b : on_grid a → on_grid b → on_grid (a - b).
Proof.
  intros [k Hk] [l Hl]. exists (k - l)%Z.
  rewrite Hk, Hl. unfold Zminus. rewrite inject_Z_plus, inject_Z_opp. ring.
Qed.

Lemma on_grid_scaled (m e : Z) : (-1074 <= e)%Z → on_grid (inject_Z m * pow2 e).
Proof.
  intros He. exists (m * 2 ^ (e + 1074))%Z.
  rewrite inject_Z_mult, pow2_inject by lia.
  rewrite <- Qmult_assoc, <- pow2_add.
  by replace (e + 1074 + -1074)%Z with e by lia.
Qed.

Lemma on_grid_Z z : on_grid (inject_Z z).
Proof.
  destruct (on_grid_scaled z 0 ltac:(lia)) as [k Hk]. exists k.
  rewrite <- Hk. change (pow2 0) with 1. ring.
Qed.

Lemma b64_round_on_grid x : on_grid (b64_round x).
Proof.
  unfold b64_round. destruct (Qeq_bool x 0).
  - exists 0%Z. ring.
  - destruct (on_grid_scaled
                (Qround_half_even
                   (x / pow2 (Z.max (floor_log2 (Qabs x) - 52) (-1074))))
                (Z.max (floor_log2 (Qabs x) - 52) (-1074)) ltac:(lia)) as [k Hk].
    exists k. by rewrite Qred_correct.
Qed.

Lemma is_binary64_on_grid q : is_binary64 q → on_grid q.
Proof.
  unfold is_binary64, to_float.
  destruct (Qle_bool _ _); [done|]. intros [= Hq].
  rewrite <- Hq. apply b64_round_on_grid.
Qed.

(** Rounding keeps the sign: a value on the grid is not rounded to zero. *)
Lemma b64_round_sign x :
  on_grid x →
  (0 < x → 0 < b64_round x) ∧ (x < 0 → b64_round x < 0).
Proof.
  intros [k Hk].
  assert (Hmain : ¬ x == 0 →
            let e := Z.max (floor_log2 (Qabs x) - 52) (-1074) in
            1 <= Qabs (x / pow2 e)).
  { intros Hne e. pose proof (Qabs_pos_lt x Hne) as Hax.
    pose proof (pow2_pos e) as Hpe.
    assert (Hq : Qabs (x / pow2 e) == Qabs x / pow2 e).
    { unfold Qdiv. rewrite Qabs_Qmult, (Qabs_pos (/ pow2 e)); [reflexivity|].
      apply Qlt_le_weak, Qinv_lt_0_compat, Hpe. }
    rewrite Hq. apply Qle_shift_div_l; [done|]. rewrite Qmult_1_l.
    destruct (Z_le_gt_dec (-1074) (floor_log2 (Qabs x) - 52)) as [Hn|Hs].
    - destruct (floor_log2_spec _ Hax) as [Hlo _].
      assert (He : e = (floor_log2 (Qabs x) - 52)%Z) by (unfold e; lia).
      eapply Qle_trans; [|exact Hlo]. apply pow2_le. lia.
    - assert (He : e = (-1074)%Z) by (unfold e; lia).
      rewrite He, Hk, Qabs_Qmult, (Qabs_pos (pow2 (-1074)))
        by (apply Qlt_le_weak, pow2_pos).
      assert (Hk0 : k ≠ 0%Z).
      { intros ->. apply Hne. rewrite Hk. ring. }
      assert (1 <= Qabs (inject_Z k)).
      { rewrite Qabs_inject_Z. change 1 with (inject_Z 1). rewrite <- Zle_Qle. lia. }
      pose proof (pow2_pos (-1074)). nra. }
  assert (Hsign : ¬ x == 0 →
            let e := Z.max (floor_log2 (Qabs x) - 52) (-1074) in
            let m := inject_Z (Qround_half_even (x / pow2 e)) in
            (0 < x → 0 < m * pow2 e) ∧ (x < 0 → m * pow2 e < 0)).
  { intros Hne e m. specialize (Hmain Hne). cbv zeta in Hmain. fold e in Hmain.
    pose proof (pow2_pos e) as Hpe.
    pose proof (Qround_half_even_err (x / pow2 e)) as Hr. fold m in Hr.
    apply Qabs_Qle_condition in Hr.
    assert (Hy : x == (x / pow2 e) * pow2 e) by (field; lra).
    set (y := x / pow2 e) in *.
    split; intros Hx.
    - assert (Hy0 : 0 < y) by nra.
      assert (Hay : Qabs y == y) by (apply Qabs_pos; lra).
      assert (Hm : 0 < m) by lra. nra.
    - assert (Hy0 : y < 0) by nra.
      assert (Hay : Qabs y == - y) by (apply Qabs_neg; lra).
      assert (Hm : m < 0) by lra. nra. }
  unfold b64_round. destruct (Qeq_bool x 0) eqn:E.
  { apply Qeq_bool_iff in E. split; intros; lra. }
  assert (Hne : ¬ x == 0). { rewrite <- Qeq_bool_iff. congruence. }
  rewrite Qred_correct. by apply Hsign.
Qed.

Lemma Qle_bool_false x y : Qle_bool x y = false ↔ y < x.
Proof.
  split.
  - intros H. apply Qnot_le_lt. rewrite <- Qle_bool_iff. congruence.
  - intros H. destruct (Qle_bool x y) eqn:E; [|done].
    apply Qle_bool_iff in E. lra.
Qed.

Lemma Qle_bool_true x y : Qle_bool x y = true ↔ x <= y.
Proof. apply Qle_bool_iff. Qed.

(** The sign of a rounded difference is the sign of the difference. *)
Lemma to_float_sign x :
  on_grid x →
  float_gt0 (to_float x) = negb (Qle_bool x 0)
  ∧ float_lt0 (to_float x) = negb (Qle_bool 0 x).
Proof.
  intros Hx. destruct (b64_round_sign x Hx) as [Hpos Hneg].
  unfold to_float.
  destruct (Qle_bool (pow2 1024) (Qabs (b64_round x))) eqn:E.
  - apply Qle_bool_iff in E. cbn [float_gt0 float_lt0]. unfold is_negative.
    rewrite negb_involutive.
    assert (Hne : ¬ x == 0).
    { intros H0. rewrite (b64_round_0 x H0) in E. pose proof (pow2_pos 1024).
      change (Qabs 0) with 0 in E. lra. }
    split; [|done].
    destruct (Qle_bool 0 x) eqn:E1, (Qle_bool x 0) eqn:E2; try done.
    + apply Qle_bool_iff in E1, E2. destruct Hne. lra.
    + apply Qle_bool_false in E1, E2. lra.
  - cbn [float_gt0 float_lt0]. split; f_equal.
    + destruct (Qle_bool x 0) eqn:E1.
      * apply Qle_bool_iff in E1. apply Qle_bool_iff.
        destruct (Qeq_dec x 0) as [H0|H0].
        -- rewrite (b64_round_0 x H0). lra.
        -- apply Qlt_le_weak, Hneg. lra.
      * apply Qle_bool_false in E1. apply Qle_bool_false. by apply Hpos.
    + destruct (Qle_bool 0 x) eqn:E1.
      * apply Qle_bool_iff in E1. apply Qle_bool_iff.
        destruct (Qeq_dec x 0) as [H0|H0].
        -- rewrite (b64_round_0 x H0). lra.
        -- apply Qlt_le_weak, Hpos. lra.
      * apply Qle_bool_false in E1. apply Qle_bool_false. by apply Hneg.
Qed.

Lemma Qred_inject_Z z : Qred (inject_Z z) = inject_Z z.
Proof.
  unfold Qred, inject_Z.
  pose proof (Z.ggcd_gcd z 1) as Hg.
  pose proof (Z.ggcd_correct_divisors z 1) as Hd.
  destruct (Z.ggcd z 1) as [g [aa bb]]. cbn [fst snd] in *.
  rewrite Z.gcd_1_r in Hg. subst g. destruct Hd as [Ha Hb].
  rewrite Z.mul_1_l in Ha, Hb. by subst.
Qed.

(** An integer below [2^53] is a float. *)
Lemma b64_round_Z z : (Z.abs z < 2 ^ 53)%Z → b64_round (inject_Z z) = inject_Z z.
Proof.
  intros Hz. unfold b64_round.
  destruct (Qeq_bool (inject_Z z) 0) eqn:E.
  { apply Qeq_bool_iff in E. unfold Qeq in E. simpl in E.
    assert (z = 0%Z) as -> by lia. reflexivity. }
  assert (Hne : ¬ inject_Z z == 0). { rewrite <- Qeq_bool_iff. congruence. }
  pose proof (Qabs_pos_lt _ Hne) as Hax.
  assert (Hup : Qabs (inject_Z z) < pow2 53).
  { rewrite Qabs_inject_Z, <- pow2_inject by lia. rewrite <- Zlt_Qlt. lia. }
  pose proof (floor_log2_upper _ _ Hax Hup) as Hfl.
  set (e := Z.max (floor_log2 (Qabs (inject_Z z)) - 52) (-1074)).
  assert (He : (-1074 <= e <= 0)%Z) by (unfold e; lia).
  assert (Hy : inject_Z z / pow2 e == inject_Z (z * 2 ^ (- e))).
  { rewrite inject_Z_mult, pow2_inject by lia.
    unfold Qdiv, pow2. by rewrite Qpower_opp. }
  rewrite (Qround_half_even_comp _ _ Hy), Qround_half_even_Z.
  rewrite <- (Qred_inject_Z z).
  apply Qred_complete.
  rewrite inject_Z_mult, pow2_inject by lia.
  pose proof (pow2_opp e). rewrite <- Qmult_assoc, (Qmult_comm (pow2 (- e))), H. ring.
Qed.

Lemma float_of_Z_exact z :
  (Z.abs z < 2 ^ 53)%Z → float_of_Z z = Ok (FFinite (inject_Z z)).
Proof.
  intros Hz. unfold float_of_Z.
  rewrite to_float_finite.
  - by rewrite b64_round_Z.
  - rewrite Qabs_inject_Z, <- pow2_inject by lia. rewrite <- Zlt_Qlt.
    assert (2 ^ 53 < 2 ^ 1023)%Z by (apply Z.pow_lt_mono_r; lia). lia.
Qed.

End GridProps.

(** ** The differ, per test, on decoded JSON *)

Module TimingProps.
Import Fetch Timing TimingSpec FloatProps RangeProps GridProps.

Local Open Scope Q_scope.

Lemma inject_Z_lt_pow2 z n :
  (0 <= n)%Z → (Z.abs z < 2 ^ n)%Z → Qabs (inject_Z z) < pow2 n.
Proof.
  intros Hn Hz. rewrite Qabs_inject_Z, <- pow2_inject by done.
  by rewrite <- Zlt_Qlt.
Qed.

Lemma Qabs_div_Z (a b : Z) :
  (0 < b)%Z → Qabs (inject_Z a / inject_Z b) == inject_Z (Z.abs a) / inject_Z b.
Proof.
  intros Hb.
  assert (HbQ : 0 < inject_Z b).
  { change 0 with (inject_Z 0). by rewrite <- Zlt_Qlt. }
  unfold Qdiv. rewrite Qabs_Qmult, Qabs_inject_Z, (Qabs_pos (/ inject_Z b)).
  - reflexivity.
  - by apply Qlt_le_weak, Qinv_lt_0_compat.
Qed.

(** The quotient of two integers of at most a thousand bits is a normal
    float or zero, and nothing overflows. *)
Lemma quotient_in_range (a b : Z) :
  (0 < b < 2 ^ 1001)%Z → (Z.abs a < 2 ^ 1001)%Z →
  let x := inject_Z a / inject_Z b in
  (x == 0 ∨ pow2 (-1001) <= Qabs x) ∧ Qabs x < pow2 1001.
Proof.
  intros Hb Ha x.
  assert (HbQ : 0 < inject_Z b).
  { change 0 with (inject_Z 0). rewrite <- Zlt_Qlt. lia. }
  assert (HbQ1 : 1 <= inject_Z b).
  { change 1 with (inject_Z 1). rewrite <- Zle_Qle. lia. }
  assert (HbQ2 : inject_Z b < pow2 1001).
  { rewrite <- pow2_inject by lia. rewrite <- Zlt_Qlt. lia. }
  assert (HaQ : inject_Z (Z.abs a) < pow2 1001).
  { rewrite <- pow2_inject by lia. rewrite <- Zlt_Qlt. lia. }
  assert (Hx : Qabs x == inject_Z (Z.abs a) / inject_Z b) by (apply Qabs_div_Z; lia).
  assert (Hp : pow2 (-1001) * pow2 1001 == 1).
  { rewrite <- pow2_add. reflexivity. }
  pose proof (pow2_pos (-1001)) as Hp1. pose proof (pow2_pos 1001) as Hp2.
  split.
  - destruct (Z.eq_dec a 0%Z) as [->|Ha0].
    + left. unfold x, Qdiv. change (inject_Z 0) with 0. ring.
    + right. rewrite Hx. apply Qle_shift_div_l; [done|].
      assert (1 <= inject_Z (Z.abs a)).
      { change 1 with (inject_Z 1). rewrite <- Zle_Qle. lia. }
      nra.
  - rewrite Hx. apply Qlt_shift_div_r; [done|].
    assert (0 <= inject_Z (Z.abs a)).
    { change 0 with (inject_Z 0). rewrite <- Zle_Qle. lia. }
    nra.
Qed.

Lemma Z_truediv_normal (a b : Z) :
  (0 < b < 2 ^ 1001)%Z → (Z.abs a < 2 ^ 1001)%Z →
  Z_truediv a b = Ok (FFinite (int_truediv a b)).
Proof.
  intros Hb Ha. unfold Z_truediv, int_truediv.
  destruct (Z.eqb_spec b 0) as [|_]; [lia|].
  destruct (quotient_in_range a b Hb Ha) as [Hlo Hup].
  rewrite to_float_normal; [done| |].
  - destruct Hlo as [H0|Hn]; [by left|right].
    eapply Qle_trans; [|exact Hn]. apply pow2_le. lia.
  - eapply Qlt_le_trans; [exact Hup|]. apply pow2_le. lia.
Qed.

Lemma fl_round_bounds x :
  Qabs x * (1 # 2) <= Qabs (fl_round x) <= Qabs x * 2.
Proof.
  pose proof (fl_round_err x) as He. unfold half_ulp in He.
  pose proof (Qabs_le_add (fl_round x) x).
  pose proof (Qabs_ge_sub (fl_round x) x).
  pose proof (Qabs_nonneg x). split; lra.
Qed.

Lemma float_of_Z_100 : float_of_Z 100 = Ok (FFinite 100).
Proof. by rewrite float_of_Z_exact by (vm_compute; reflexivity). Qed.

Lemma float_of_Z_1000 : float_of_Z 1000 = Ok (FFinite 1000).
Proof. by rewrite float_of_Z_exact by (vm_compute; reflexivity). Qed.

(** The percentage of a quotient of integers of at most a thousand bits. *)
Lemma percent_normal (a b : Z) :
  (0 < b < 2 ^ 1001)%Z → (Z.abs a < 2 ^ 1001)%Z →
  float_mul_int (FFinite (int_truediv a b)) 100
  = Ok (FFinite (float_mul (int_truediv a b) (float_of_int 100))).
Proof.
  intros Hb Ha. unfold float_mul_int. rewrite float_of_Z_100.
  cbn [mbind result_bind fmul]. unfold float_mul. rewrite DifferProps.float_of_int_100.
  destruct (quotient_in_range a b Hb Ha) as [Hlo Hup].
  unfold int_truediv. set (x := inject_Z a / inject_Z b) in *.
  destruct (fl_round_bounds x) as [Hq1 Hq2].
  set (q := fl_round x) in *.
  assert (Hq : Qabs (q * 100) == Qabs q * 100).
  { rewrite Qabs_Qmult. reflexivity. }
  assert (Hp1 : pow2 (-1001) == 2 * pow2 (-1002)).
  { rewrite <- pow2_succ. reflexivity. }
  assert (Hp2 : pow2 (-1022) <= pow2 (-1002)) by (apply pow2_le; lia).
  assert (Hp3 : pow2 1023 == pow2 1001 * pow2 22).
  { rewrite <- pow2_add. reflexivity. }
  assert (Hp4 : pow2 22 == 4194304) by reflexivity.
  pose proof (pow2_pos (-1002)). pose proof (pow2_pos 1001).
  pose proof (Qabs_nonneg q).
  rewrite to_float_normal; [done| |].
  - destruct Hlo as [Hx0|Hn].
    + left. unfold q. rewrite (fl_round_0 x Hx0). ring.
    + right. rewrite Hq. nra.
  - rewrite Hq. nra.
Qed.


Lemma Qeq_bool_inject_Z z : Qeq_bool (inject_Z z) 0 = (z =? 0)%Z.
Proof. unfold Qeq_bool, inject_Z. cbn [Qnum Qden]. by rewrite !Z.mul_1_r. Qed.

Lemma Qle_bool_inject_Z_0 z : Qle_bool (inject_Z z) 0 = (z <=? 0)%Z.
Proof. unfold Qle_bool, inject_Z. cbn [Qnum Qden]. by rewrite !Z.mul_1_r. Qed.

Lemma Qle_bool_0_inject_Z z : Qle_bool 0 (inject_Z z) = (0 <=? z)%Z.
Proof. unfold Qle_bool, inject_Z. cbn [Qnum Qden]. by rewrite !Z.mul_1_r. Qed.

Lemma classification_of_Z (time_diff : Z) (pct : number) :
  cell_classification
    (if (0 <? time_diff)%Z then DiffWorse (NInt time_diff) pct
     else if (time_diff <? 0)%Z then DiffBetter (NInt time_diff) pct else DiffSame)
  = classification_of (inject_Z time_diff).
Proof.
  unfold classification_of.
  rewrite Qle_bool_inject_Z_0, Qle_bool_0_inject_Z.
  destruct (Z.ltb_spec 0 time_diff), (Z.leb_spec time_diff 0); try lia; try done.
  destruct (Z.ltb_spec time_diff 0), (Z.leb_spec 0 time_diff); try lia; done.
Qed.

Lemma duration_of_truthy test v :
  duration_of test = Ok v → jtruthy v = true → jtruthy test = true.
Proof.
  intros H Hv. destruct test as [| | | | | |entries]; try done.
  destruct entries; [|done]. injection H as <-. done.
Qed.

(** A duration that denotes a rational, as an operand. *)
Lemma denotes_as_number v q :
  denotes v q →
  ∃ n, as_number v = Ok n
       ∧ number_to_float n = Ok (FFinite q)
       ∧ on_grid q
       ∧ jtruthy v = negb (Qeq_bool q 0)
       ∧ num_gt0 n = negb (Qle_bool q 0)
       ∧ ((∃ z, n = NInt z) → is_int v).
Proof.
  destruct v as [| |z|[x| |]| | |]; try done; cbn [denotes].
  - intros [-> Hz]. exists (NInt z). split; [done|].
    split; [by apply float_of_Z_exact|]. split; [apply on_grid_Z|].
    split; [by rewrite Qeq_bool_inject_Z|].
    split; [|intros _; by exists z].
    cbn [num_gt0]. rewrite Qle_bool_inject_Z_0.
    destruct (Z.ltb_spec 0 z), (Z.leb_spec z 0); try lia; done.
  - intros [-> Hq]. exists (NFloat (FFinite q)). split; [done|]. split; [done|].
    split; [by apply is_binary64_on_grid|]. split; [done|]. split; [done|].
    by intros [z [=]].
Qed.

Lemma seconds_denotes v q :
  denotes v q → seconds v = Ok (TimeSeconds (to_float (q / 1000))).
Proof.
  destruct v as [| |z|[x| |]| | |]; try done; cbn [denotes].
  - intros [-> Hz]. unfold seconds.
    cbn [as_number mbind result_bind num_truediv]. unfold Z_truediv.
    cbn [Z.eqb]. change (inject_Z 1000) with 1000.
    rewrite to_float_finite; [done|].
    pose proof (inject_Z_lt_pow2 z 53 ltac:(lia) Hz) as Hb.
    assert (Hq : Qabs (inject_Z z / 1000) == Qabs (inject_Z z) * (1 # 1000)).
    { unfold Qdiv. rewrite Qabs_Qmult. reflexivity. }
    assert (pow2 53 <= pow2 1023) by (apply pow2_le; lia).
    pose proof (Qabs_nonneg (inject_Z z)). rewrite Hq. lra.
  - intros [-> Hq]. unfold seconds.
    cbn [as_number mbind result_bind num_truediv number_to_float].
    by rewrite float_of_Z_1000.
Qed.

(** Between integers of at most a thousand bits the differ of [Html],
    which leaves the exponent range out, and this one compute the same
    cells. *)
Lemma seconds_integer (ms : Z) :
  (Z.abs ms < 2 ^ 1000)%Z →
  seconds (JInt ms) = of_time_cell <$> Html.seconds (PInt ms).
Proof.
  intros Hms.
  assert (Hpow : (2 ^ 1001 = 2 * 2 ^ 1000)%Z) by (vm_compute; reflexivity).
  assert (H1000 : (1000 < 2 ^ 1000)%Z) by (vm_compute; reflexivity).
  remember (2 ^ 1000)%Z as B eqn:HB. clear HB.
  unfold seconds. cbn [as_number mbind result_bind num_truediv].
  by rewrite Z_truediv_normal by lia.
Qed.

Lemma time_diff_html_integers (d pd : Z) :
  d ≠ 0%Z → (0 < pd)%Z → (Z.abs d < 2 ^ 1000)%Z → (pd < 2 ^ 1000)%Z →
  time_diff_html (JInt d) (JInt pd)
  = of_time_diff_cell <$> Html.time_diff_html (PInt d) (PInt pd).
Proof.
  intros Hd Hpd Hdb Hpdb.
  rewrite DifferProps.time_diff_html_ints by lia.
  assert (Hpow : (2 ^ 1001 = 2 * 2 ^ 1000)%Z) by (vm_compute; reflexivity).
  assert (H1000 : (1000 < 2 ^ 1000)%Z) by (vm_compute; reflexivity).
  remember (2 ^ 1000)%Z as B eqn:HB. clear HB.
  unfold time_diff_html. cbn [jtruthy].
  destruct (Z.eqb_spec d 0) as [|_]; [lia|].
  destruct (Z.eqb_spec pd 0) as [|_]; [lia|]. cbn [negb andb].
  cbn [as_number mbind result_bind num_sub num_abs num_truediv num_gt0 num_lt0].
  rewrite Z_truediv_normal by lia. cbn [mbind result_bind].
  destruct (Z.ltb_spec 0 pd) as [_|]; [|lia].
  rewrite Z_truediv_normal by lia. cbn [mbind result_bind].
  rewrite percent_normal by lia. cbn [mbind result_bind fmap result_fmap].
  destruct (0 <? d - pd)%Z; [reflexivity|].
  destruct (d - pd <? 0)%Z; reflexivity.
Qed.

(** C4, as the code has it. For a matched pair of tests whose current and
    previous durations are both numbers different from zero, the previous
    one positive, the row carries [time_diff = duration - prev_duration]
    and the binary64 value of [(time_diff / prev_duration) * 100], and is
    classified worse, better or same by the sign of the difference of the
    two durations.  Between two integers below [2^1000] in magnitude the
    difference is exact and the percentage is within [2^-51] (relatively)
    of [100 * time_diff / prev_duration]; as soon as one duration is a
    float (the other a float too, or an integer below [2^53]) the
    difference is rounded to a float.  A previous duration that is zero or
    missing, or no previous test, gives the not-applicable cells without
    any division, and so does a current duration of zero;
    1200 ms against 1000 ms gives 200, 20.0 and worse. *)
Theorem test_delta_of_nonzero_durations (duration prev_test prev_duration : json) :
  duration_of prev_test = Ok prev_duration →
  (∀ d pd : Z,
     duration = JInt d → prev_duration = JInt pd →
     d ≠ 0%Z → (0 < pd)%Z → (Z.abs d < 2 ^ 1000)%Z → (pd < 2 ^ 1000)%Z →
     let time_diff := (d - pd)%Z in
     let percent_change :=
       float_mul (int_truediv time_diff pd) (float_of_int 100) in
     ∃ cell,
       prev_columns duration (Some prev_test)
       = Ok (TimeSeconds (FFinite (int_truediv pd 1000)), cell)
       ∧ cell = (if (0 <? time_diff)%Z
                 then DiffWorse (NInt time_diff) (NFloat (FFinite percent_change))
                 else if (time_diff <? 0)%Z
                 then DiffBetter (NInt time_diff) (NFloat (FFinite percent_change))
                 else DiffSame)
       ∧ cell_classification cell = classification_of (inject_Z d - inject_Z pd)
       ∧ Qabs (percent_change - 100 * inject_Z time_diff / inject_Z pd)
         <= Qabs (100 * inject_Z time_diff / inject_Z pd) * (1 # 2251799813685248))
  ∧ (∀ a b : Q,
       denotes duration a → denotes prev_duration b →
       ¬ (is_int duration ∧ is_int prev_duration) →
       ¬ a == 0 → 0 < b →
       let time_diff := to_float (a - b) in
       let percent_change := fmul (fdiv time_diff (FFinite b)) (FFinite 100) in
       ∃ cell,
         prev_columns duration (Some prev_test)
         = Ok (TimeSeconds (to_float (b / 1000)), cell)
         ∧ cell = (if float_gt0 time_diff
                   then DiffWorse (NFloat time_diff) (NFloat percent_change)
                   else if float_lt0 time_diff
                   then DiffBetter (NFloat time_diff) (NFloat percent_change)
                   else DiffSame)
         ∧ cell_classification cell = classification_of (a - b))
  ∧ (jtruthy prev_duration = false →
     prev_columns duration (Some prev_test) = Ok (TimeNA, DiffNA))
  ∧ (jtruthy duration = false →
     time_diff_html duration prev_duration = Ok DiffNA)
  ∧ prev_columns duration None = Ok (TimeNA, DiffNA)
  ∧ prev_columns (JInt 1200) (Some (timed_test "login works" (Some (JInt 1000))))
    = Ok (TimeSeconds (FFinite 1), DiffWorse (NInt 200) (NFloat (FFinite 20))).
Proof.
  intros Hprev. split; [|split; [|split; [|split; [|split]]]].
  - intros d pd -> -> Hd Hpd Hdb Hpdb time_diff percent_change.
    assert (Hpow : (2 ^ 1001 = 2 * 2 ^ 1000)%Z) by (vm_compute; reflexivity).
    assert (H1000 : (1000 < 2 ^ 1000)%Z) by (vm_compute; reflexivity).
    remember (2 ^ 1000)%Z as B eqn:HB. clear HB.
    eexists. split; [|split; [reflexivity|split]].
    + unfold prev_columns.
      rewrite (duration_of_truthy _ _ Hprev), Hprev.
      2:{ cbn [jtruthy]. destruct (Z.eqb_spec pd 0); [lia|done]. }
      cbn [mbind result_bind jtruthy].
      destruct (Z.eqb_spec pd 0) as [|_]; [lia|]. cbn [negb].
      unfold seconds. cbn [as_number mbind result_bind num_truediv].
      rewrite Z_truediv_normal by lia. cbn [mbind result_bind].
      unfold time_diff_html. cbn [jtruthy].
      destruct (Z.eqb_spec d 0) as [|_]; [lia|].
      destruct (Z.eqb_spec pd 0) as [|_]; [lia|]. cbn [negb andb].
      cbn [as_number mbind result_bind num_sub num_abs num_truediv num_gt0 num_lt0].
      rewrite Z_truediv_normal by lia. cbn [mbind result_bind].
      destruct (Z.ltb_spec 0 pd) as [_|]; [|lia].
      rewrite Z_truediv_normal by lia. cbn [mbind result_bind].
      rewrite percent_normal by lia. cbn [mbind result_bind].
      fold time_diff. fold percent_change.
      destruct (0 <? time_diff)%Z; [reflexivity|].
      destruct (time_diff <? 0)%Z; reflexivity.
    + rewrite classification_of_Z. f_equal. unfold time_diff.
      unfold Zminus. by rewrite inject_Z_plus, inject_Z_opp.
    + apply DifferProps.percent_change_err.
  - intros a b Ha Hb Hkind Ha0 Hb0 time_diff percent_change.
    destruct (denotes_as_number _ _ Ha) as (nd & Hnd & Hfd & Hga & Hta & _ & Hia).
    destruct (denotes_as_number _ _ Hb) as (npd & Hnpd & Hfpd & Hgb & Htb & Hgt & Hib).
    assert (Ea : Qeq_bool a 0 = false).
    { destruct (Qeq_bool a 0) eqn:E; [|done]. by apply Qeq_bool_iff in E. }
    assert (Eb : Qeq_bool b 0 = false).
    { destruct (Qeq_bool b 0) eqn:E; [|done]. apply Qeq_bool_iff in E. lra. }
    assert (Eb' : Qle_bool b 0 = false) by (by apply Qle_bool_false).
    rewrite Ea in Hta. rewrite Eb in Htb. rewrite Eb' in Hgt. cbn [negb] in *.
    assert (Hsub : num_sub nd npd = Ok (NFloat time_diff)).
    { destruct nd as [z|x], npd as [z'|y];
        cbn [num_sub number_to_float mbind result_bind] in *.
      - destruct Hkind. split; [apply Hia|apply Hib]; by eexists.
      - rewrite Hfd. by injection Hfpd as ->.
      - injection Hfd as ->. by rewrite Hfpd.
      - injection Hfd as ->. by injection Hfpd as ->. }
    eexists. split; [|split; [reflexivity|]].
    + unfold prev_columns.
      rewrite (duration_of_truthy _ _ Hprev Htb), Hprev.
      cbn [mbind result_bind]. rewrite Htb.
      rewrite (seconds_denotes _ _ Hb). cbn [mbind result_bind].
      unfold time_diff_html. rewrite Hta, Htb. cbn [andb].
      rewrite Hnd, Hnpd. cbn [mbind result_bind]. rewrite Hsub.
      cbn [mbind result_bind].
      assert (Habs : num_truediv (num_abs (NFloat time_diff)) (NInt 1000)
                     = Ok (fdiv (fabs time_diff) (FFinite 1000))).
      { cbn [num_abs num_truediv number_to_float mbind result_bind].
        by rewrite float_of_Z_1000. }
      rewrite Habs. cbn [mbind result_bind]. rewrite Hgt.
      assert (Hdiv : num_truediv (NFloat time_diff) npd
                     = Ok (fdiv time_diff (FFinite b))).
      { destruct npd; cbn [num_truediv number_to_float mbind result_bind] in *;
          rewrite ?Hfpd; cbn [mbind result_bind];
          try (injection Hfpd as ->);
          unfold float_truediv; cbn [is_zero]; by rewrite Eb. }
      rewrite Hdiv. cbn [mbind result_bind]. unfold float_mul_int.
      rewrite float_of_Z_100. cbn [mbind result_bind num_gt0 num_lt0].
      fold percent_change.
      destruct (float_gt0 time_diff); [reflexivity|].
      destruct (float_lt0 time_diff); reflexivity.
    + destruct (to_float_sign (a - b) (on_grid_sub _ _ Hga Hgb)) as [Hg Hl].
      fold time_diff in Hg, Hl. rewrite Hg, Hl. unfold classification_of.
      destruct (Qle_bool (a - b) 0); [|done].
      by destruct (Qle_bool 0 (a - b)).
  - intros Hfalse. unfold prev_columns.
    destruct (jtruthy prev_test); [|done].
    rewrite Hprev. cbn [mbind result_bind]. by rewrite Hfalse.
  - intros Hfalse. unfold time_diff_html. by rewrite Hfalse.
  - reflexivity.
  - vm_compute. reflexivity.
Qed.


(** The example of the specification, 1200 ms now and 1000 ms before, and
    the same test timed in fractions of a millisecond. *)
Lemma test_delta_of_nonzero_durations_witness :
  (∃ cell,
     prev_columns (JInt 1200) (Some (timed_test "login works" (Some (JInt 1000))))
     = Ok (TimeSeconds (FFinite 1), cell)
     ∧ cell = DiffWorse (NInt 200) (NFloat (FFinite 20))
     ∧ cell_classification cell = "worse")
  ∧ (∃ cell,
       prev_columns (JFloat (FFinite (2401 # 2)))
         (Some (timed_test "login works" (Some (JFloat (FFinite (4001 # 4))))))
       = Ok (TimeSeconds (to_float ((4001 # 4) / 1000)), cell)
       ∧ cell_classification cell = "worse").
Proof.
  split.
  - destruct (test_delta_of_nonzero_durations (JInt 1200)
                (timed_test "login works" (Some (JInt 1000))) (JInt 1000) eq_refl)
      as (H & _).
    destruct (H 1200%Z 1000%Z eq_refl eq_refl)
      as (cell & Hcols & Hcell & Hclass & _);
      [discriminate | reflexivity | vm_compute; reflexivity
      | vm_compute; reflexivity |].
    exists cell. split; [exact Hcols|]. split.
    + rewrite Hcell. vm_compute. reflexivity.
    + rewrite Hclass. vm_compute. reflexivity.
  - destruct (test_delta_of_nonzero_durations (JFloat (FFinite (2401 # 2)))
                (timed_test "login works" (Some (JFloat (FFinite (4001 # 4)))))
                (JFloat (FFinite (4001 # 4))) eq_refl)
      as (_ & H & _).
    destruct (H (2401 # 2) (4001 # 4)) as (cell & Hcols & _ & Hclass).
    + split; [reflexivity|vm_compute; reflexivity].
    + split; [reflexivity|vm_compute; reflexivity].
    + by intros [[z [=]] _].
    + discriminate.
    + reflexivity.
    + exists cell. split; [exact Hcols|].
      rewrite Hclass. vm_compute. reflexivity.
Defined.

(** C4, as the specification states it, fails: a current duration of 0 ms
    is available, and against a previous 1000 ms the claim computes a delta
    of -1000 and classifies the pair as better; the code shows no
    comparison for it.  And two durations beyond the range of a float have
    no row at all: the division that formats the time raises. *)
Lemma zero_current_duration_counterexample :
  let prev_test := timed_test "login works" (Some (JInt 1000)) in
  duration_of (timed_test "login works" (Some (JInt 0))) = Ok (JInt 0)
  ∧ duration_of prev_test = Ok (JInt 1000)
  ∧ classification_of (inject_Z 0 - inject_Z 1000) = "better"
  ∧ prev_columns (JInt 0) (Some prev_test) = Ok (TimeSeconds (FFinite 1), DiffNA)
  ∧ cell_classification DiffNA ≠ classification_of (inject_Z 0 - inject_Z 1000)
  ∧ (∃ row, test_row_for (timed_test "login works" (Some (JInt 0))) (Some prev_test)
            = Ok row
            ∧ row_current_time row = TimeNA ∧ row_time_diff row = DiffNA)
  ∧ prev_columns (JInt (2 * 10 ^ 400))
      (Some (timed_test "login works" (Some (JInt (10 ^ 400)))))
    = Raise OverflowError.
Proof.
  intros prev_test.
  split; [reflexivity|]. split; [reflexivity|]. split; [reflexivity|].
  split; [vm_compute; reflexivity|]. split; [vm_compute; discriminate|].
  split; [|vm_compute; reflexivity].
  eexists. split; [vm_compute; reflexivity|]. split; reflexivity.
Qed.

(** The columns of a row are those of [prev_columns] at the duration of
    the test. *)
Lemma test_row_for_columns test prev_test row :
  test_row_for test prev_test = Ok row →
  ∃ duration, duration_of test = Ok duration
              ∧ prev_columns duration prev_test
                = Ok (row_prev_time row, row_time_diff row).
Proof.
  unfold test_row_for. intros H.
  destruct (jget test "title" _) as [title|]; [|done]. cbn [mbind result_bind] in H.
  destruct (jget test "name" _) as [name|]; [|done]. cbn [mbind result_bind] in H.
  destruct (jget test "status" _) as [status|]; [|done]. cbn [mbind result_bind] in H.
  destruct (jget test "priority" _) as [priority|]; [|done].
  cbn [mbind result_bind] in H.
  destruct (duration_of test) as [duration|]; [|done]. cbn [mbind result_bind] in H.
  destruct (if jtruthy duration then _ else _) as [current|]; [|done].
  cbn [mbind result_bind] in H.
  destruct (hashable name); [|done]. cbn [mbind result_bind] in H.
  destruct (prev_columns duration prev_test) as [[prev_time diff]|] eqn:Ecols;
    [|done].
  cbn [mbind result_bind] in H. injection H as <-. by exists duration.
Qed.

End TimingProps.

(** ** Delivery never invalidates the artifact *)

Module DeliveryProps.

Section Combinators.
Context {A B : Type}.

Lemma wb_ret (a : A) : well_behaved (mret a : M A).
Proof. intros w. split; [done|]. intros code. discriminate. Qed.

Lemma wb_raise (e : exn) : is_Exception e = true → well_behaved (raise e : M A).
Proof.
  intros He w. split; [done|]. intros code [= ->]. discriminate.
Qed.

Lemma wb_bind (m : M A) (f : A → M B) :
  well_behaved m → (∀ a, well_behaved (f a)) → well_behaved (m ≫= f).
Proof.
  intros Hm Hf w. unfold mbind, M_bind.
  destruct (Hm w) as [Hfiles Hexit].
  destruct (m w) as [[a|e] w'] eqn:E; simpl in *.
  - destruct (Hf a w') as [Hfiles' Hexit']. split; [congruence|done].
  - split; [done|]. intros code [= ->]. by apply (Hexit code).
Qed.

Lemma wb_try_except (body : M A) (handler : exn → M A) :
  well_behaved body → (∀ e, well_behaved (handler e)) →
  well_behaved (try_except body handler).
Proof.
  intros Hb Hh w. unfold try_except.
  destruct (Hb w) as [Hfiles Hexit].
  destruct (body w) as [[a|e] w'] eqn:E; simpl in *.
  - split; [done|]. intros code. discriminate.
  - destruct (is_Exception e) eqn:Ee.
    + destruct (Hh e w') as [Hfiles' Hexit']. split; [congruence|done].
    + destruct e; try discriminate. exfalso. by apply (Hexit code).
Qed.

(** A handler that returns makes the guarded block return: every
    [Exception] of a well-behaved body is caught. *)
Lemma returns_try_except (body : M A) (handler : exn → M A) :
  well_behaved body → (∀ e, returns (handler e)) →
  returns (try_except body handler).
Proof.
  intros Hb Hh w. unfold try_except.
  destruct (Hb w) as [Hfiles Hexit].
  destruct (body w) as [[a|e] w'] eqn:E; simpl in *.
  - by exists a, w'.
  - destruct (is_Exception e) eqn:Ee.
    + destruct (Hh e w') as (a & w'' & -> & Hfiles'). exists a, w''.
      split; [done|congruence].
    + destruct e; try discriminate. exfalso. by apply (Hexit code).
Qed.

Lemma returns_bind (m : M A) (f : A → M B) :
  returns m → (∀ a, returns (f a)) → returns (m ≫= f).
Proof.
  intros Hm Hf w. unfold mbind, M_bind.
  destruct (Hm w) as (a & w' & -> & Hfiles).
  destruct (Hf a w') as (b & w'' & -> & Hfiles').
  exists b, w''. split; [done|congruence].
Qed.

End Combinators.

Lemma wb_print line : well_behaved (print line).
Proof. intros w. split; [done|]. intros code. discriminate. Qed.

Lemma returns_print line : returns (print line).
Proof. intros w. by eexists _, _. Qed.

Lemma wb_open_rb path : well_behaved (open_rb path).
Proof.
  intros w. unfold open_rb. case_bool_decide; (split; [done|]); intros code; discriminate.
Qed.

Lemma wb_response_json {J} (r : response J) : well_behaved (response_json r).
Proof.
  unfold response_json. destruct (resp_json r); [apply wb_ret|by apply wb_raise].
Qed.

(** The reducer raises nothing but [TypeError]. *)
Lemma py_sum_from_raises acc l e : py_sum_from acc l = Raise e → e = TypeError.
Proof.
  revert acc. induction l as [|[] l IH]; intros acc; simpl; try congruence.
  apply IH.
Qed.

Lemma summarize_raises records e : summarize records = Raise e → e = TypeError.
Proof.
  unfold summarize, sum_field, py_sum.
  repeat (match goal with
          | |- context [py_sum_from 0 ?l] =>
              let E := fresh "E" in
              destruct (py_sum_from 0 l) eqn:E;
              [cbn [mbind result_bind]
              |apply py_sum_from_raises in E; cbn [mbind result_bind]; congruence]
          end).
  discriminate.
Qed.

Lemma wb_lift_summarize records : well_behaved (lift (summarize records)).
Proof.
  intros w. split; [done|]. intros code H. simpl in H.
  apply summarize_raises in H. discriminate.
Qed.

(** Reading the permalink raises nothing but [AttributeError], the search
    through the messages nothing but [TypeError]. *)
Lemma wb_lift_upload_permalink reply : well_behaved (lift (upload_permalink reply)).
Proof.
  intros w. split; [done|]. intros code. unfold lift, upload_permalink. simpl.
  by destruct (upload_file reply).
Qed.

Lemma find_message_raises cron_run_id messages e :
  Html.find_message cron_run_id messages = Raise e → e = TypeError.
Proof.
  induction messages as [|msg rest IH]; simpl; [done|].
  destruct (Html.msg_text msg); simpl; try congruence.
  by destruct (_ && _).
Qed.

Lemma wb_lift_find_message cron_run_id messages :
  well_behaved (lift (Html.find_message cron_run_id messages)).
Proof.
  intros w. split; [done|]. intros code H. simpl in H.
  apply find_message_raises in H. discriminate.
Qed.

(** Well-behavedness of a composite computation, from its parts;
    [wb_known] proves the procedures already dealt with. *)
Ltac wb_known := fail.
Ltac wb :=
  repeat first
    [ wb_known
    | apply wb_print
    | apply wb_ret
    | apply wb_open_rb
    | apply wb_response_json
    | apply wb_lift_summarize
    | apply wb_lift_upload_permalink
    | apply wb_lift_find_message
    | (apply wb_raise; reflexivity)
    | assumption
    | match goal with
      | |- well_behaved (if ?b then _ else _) => destruct b
      | |- well_behaved (match ?o with Some _ => _ | None => _ end) => destruct o
      | |- well_behaved (try_except _ _) => apply wb_try_except; [|intros ?]
      | |- well_behaved (_ ≫= _) => apply wb_bind; [|intros ?]
      end ].

Lemma wb_html_init env_token env_channel :
  well_behaved (Html.SlackNotifier_init env_token env_channel).
Proof. unfold Html.SlackNotifier_init. wb. Qed.

Lemma wb_pdf_init env_token env_channel :
  well_behaved (Pdf.SlackNotifier_init env_token env_channel).
Proof. unfold Pdf.SlackNotifier_init. wb. Qed.

Lemma wb_upload_html requests_post self html_path cron_run_id thread_ts :
  well_behaved requests_post →
  well_behaved (Html.upload_html_to_slack_thread requests_post self
                  html_path cron_run_id thread_ts).
Proof. intros Hpost. unfold Html.upload_html_to_slack_thread. wb. Qed.

Lemma wb_find_pdf_message_ts requests_get self cron_run_id :
  well_behaved requests_get →
  well_behaved (Html.find_pdf_message_ts requests_get self cron_run_id).
Proof. intros Hget. unfold Html.find_pdf_message_ts. wb. Qed.

Lemma wb_send_pdf requests_post self pdf_path cron_run_id summary environment :
  well_behaved requests_post →
  well_behaved (Pdf.send_pdf_notification requests_post self pdf_path
                  cron_run_id summary environment).
Proof.
  intros Hpost. unfold Pdf.send_pdf_notification, Pdf.upload_file_to_slack. wb.
Qed.

Ltac wb_known ::=
  first [ apply wb_html_init
        | apply wb_pdf_init
        | (apply wb_upload_html; assumption)
        | (apply wb_find_pdf_message_ts; assumption)
        | (apply wb_send_pdf; assumption) ].

Lemma print_then_exit line code w :
  ∃ w', (_ ← print line; sys_exit code : M unit) w = (Raise (SystemExit code), w')
        ∧ files w' = files w ∧ last_line w' line.
Proof.
  eexists. split; [reflexivity|]. split; [done|].
  unfold last_line. simpl. apply last_snoc.
Qed.

(** C9. Once the report generator has returned the path of a file it
    wrote, whatever the delivery to the chat does (its HTTP calls may return
    any response or raise any exception, but remove no file and do not
    terminate the interpreter), [main] of either generator leaves the file
    on disk, prints the path line last and exits with status 0. *)
Theorem delivery_failure_keeps_artifact_and_exit_zero :
  (∀ requests_post requests_get generate_html_report
     env_token env_channel env_cron_run_id argv cron_run_id output_path w0 w1,
     well_behaved requests_post → well_behaved requests_get →
     match argv with _ :: arg :: _ => Some arg | _ => env_cron_run_id end
       = Some cron_run_id →
     cron_run_id ≠ EmptyString →
     generate_html_report cron_run_id w0 = (Ok (Some output_path), w1) →
     output_path ≠ EmptyString → output_path ∈ files w1 →
     ∃ w2, Html.main requests_post requests_get generate_html_report
             env_token env_channel env_cron_run_id argv w0
           = (Raise (SystemExit 0), w2)
         ∧ exit_code (Raise (SystemExit 0) : result unit) = 0
         ∧ output_path ∈ files w2
         ∧ last_line w2 ("HTML_OUTPUT_PATH:" +:+ output_path))
  ∧ (∀ requests_post generate_pdf_report fetch_report_data
       env_token env_channel env_cron_run_id argv cron_run_id output_path w0 w1,
       well_behaved requests_post →
       (∀ id, well_behaved (fetch_report_data id)) →
       match argv with _ :: arg :: _ => Some arg | _ => env_cron_run_id end
         = Some cron_run_id →
       cron_run_id ≠ EmptyString →
       generate_pdf_report cron_run_id w0 = (Ok (Some output_path), w1) →
       output_path ≠ EmptyString → output_path ∈ files w1 →
       ∃ w2, Pdf.main requests_post generate_pdf_report fetch_report_data
               env_token env_channel env_cron_run_id argv w0
             = (Raise (SystemExit 0), w2)
           ∧ exit_code (Raise (SystemExit 0) : result unit) = 0
           ∧ output_path ∈ files w2
           ∧ last_line w2 ("PDF_OUTPUT_PATH:" +:+ output_path)).
Proof.
  split.
  - intros requests_post requests_get generate env_token env_channel env_id
      argv cron_run_id output_path w0 w1 Hpost Hget Hargv Hid Hgen Hpath Hfile.
    unfold Html.main. rewrite Hargv.
    assert (Hid' : str_truthy cron_run_id = true).
    { unfold str_truthy. by rewrite bool_decide_eq_false_2. }
    assert (Hpath' : opt_truthy (Some output_path) = true).
    { unfold opt_truthy, str_truthy. by rewrite bool_decide_eq_false_2. }
    rewrite Hid'. unfold try_except at 1. unfold mbind at 1, M_bind at 1.
    rewrite Hgen, Hpath'. cbn [default from_option]. unfold id.
    unfold mbind at 1, M_bind at 1. cbn [print].
    set (w1' := {| stdout := _; files := files w1 |}).
    unfold mbind at 1, M_bind at 1.
    match goal with
    | |- context [try_except ?body ?handler w1'] =>
        destruct (returns_try_except body handler) with (w := w1')
          as ([] & w' & -> & Hfiles)
    end.
    { wb. }
    { intros e. apply returns_bind; [apply returns_print|].
      intros _. apply returns_print. }
    destruct (print_then_exit ("HTML_OUTPUT_PATH:" +:+ output_path) 0 w')
      as (w2 & -> & Hfiles2 & Hlast).
    cbn [is_Exception]. exists w2. repeat split; [|done].
    rewrite Hfiles2, Hfiles. done.
  - intros requests_post generate fetch env_token env_channel env_id
      argv cron_run_id output_path w0 w1 Hpost Hfetch Hargv Hid Hgen Hpath Hfile.
    unfold Pdf.main. rewrite Hargv.
    assert (Hid' : str_truthy cron_run_id = true).
    { unfold str_truthy. by rewrite bool_decide_eq_false_2. }
    assert (Hpath' : opt_truthy (Some output_path) = true).
    { unfold opt_truthy, str_truthy. by rewrite bool_decide_eq_false_2. }
    rewrite Hid'. unfold try_except at 1. unfold mbind at 1, M_bind at 1.
    rewrite Hgen, Hpath'. cbn [default from_option]. unfold id.
    unfold mbind at 1, M_bind at 1. cbn [print].
    set (w1' := {| stdout := _; files := files w1 |}).
    unfold mbind at 1, M_bind at 1.
    match goal with
    | |- context [try_except ?body ?handler w1'] =>
        destruct (returns_try_except body handler) with (w := w1')
          as ([] & w' & -> & Hfiles)
    end.
    { apply wb_bind; [apply wb_print|]. intros _.
      apply wb_bind; [apply Hfetch|]. intros [[|record rest]|]; try apply wb_print.
      unfold Pdf.calculate_summary. wb. }
    { intros e. apply returns_bind; [apply returns_print|].
      intros _. apply returns_print. }
    destruct (print_then_exit ("PDF_OUTPUT_PATH:" +:+ output_path) 0 w')
      as (w2 & -> & Hfiles2 & Hlast).
    cbn [is_Exception]. exists w2. repeat split; [|done].
    rewrite Hfiles2, Hfiles. done.
Qed.

(** A run in which the network is down: both HTTP calls raise. *)
Lemma delivery_failure_keeps_artifact_and_exit_zero_witness :
  let post_down : M (response upload_json) := raise RequestException in
  let get_down : M (response Html.history_json) := raise RequestException in
  let generate : string → M (option string) := λ cron_run_id w,
    (Ok (Some "reports/test-execution-report-run-1.html"),
     {| stdout := stdout w;
        files := {[ "reports/test-execution-report-run-1.html" ]} ∪ files w |}) in
  ∃ w2, Html.main post_down get_down generate
          (Some "xoxb-token") None None ["html-report-generator.py"; "run-1"]
          {| stdout := []; files := ∅ |}
        = (Raise (SystemExit 0), w2)
      ∧ "reports/test-execution-report-run-1.html" ∈ files w2
      ∧ last_line w2 "HTML_OUTPUT_PATH:reports/test-execution-report-run-1.html".
Proof.
  intros post_down get_down generate.
  destruct delivery_failure_keeps_artifact_and_exit_zero as [H _].
  destruct (H post_down get_down generate (Some "xoxb-token") None None
              ["html-report-generator.py"; "run-1"] "run-1"
              "reports/test-execution-report-run-1.html"
              {| stdout := []; files := ∅ |}
              {| stdout := [];
                 files := {[ "reports/test-execution-report-run-1.html" ]} ∪ ∅ |})
    as (w2 & Hrun & _ & Hfile & Hlast).
  - by apply wb_raise.
  - by apply wb_raise.
  - reflexivity.
  - discriminate.
  - reflexivity.
  - discriminate.
  - simpl. set_solver.
  - exists w2. by repeat split.
Defined.

(** What such a run prints. *)
Example network_down_output :
  let post_down : M (response upload_json) := raise RequestException in
  let get_down : M (response Html.history_json) := raise RequestException in
  let generate : string → M (option string) := λ cron_run_id w,
    (Ok (Some "reports/r.html"),
     {| stdout := stdout w; files := {[ "reports/r.html" ]} ∪ files w |}) in
  stdout (Html.main post_down get_down generate
            (Some "xoxb-token") None None ["html-report-generator.py"; "run-1"]
            {| stdout := []; files := ∅ |}).2
  = [ "✅ HTML report generated successfully: reports/r.html";
      "🔍 Searching for PDF message with CRON_RUN_ID: run-1";
      "❌ Exception finding PDF message: RequestException";
      "📤 Uploading HTML report to Slack channel: xyne-automation";
      "❌ Exception uploading to Slack: RequestException";
      "⚠️ Failed to upload HTML report to Slack, but generation was successful";
      "HTML_OUTPUT_PATH:reports/r.html" ].
Proof. vm_compute. reflexivity. Qed.

End DeliveryProps.

(** ** The [.env] loader *)

Module EnvProps.
Import Env.

Section Strip.
Variable chars : N → bool.

Lemma lstrip_all (ws s : str) :
  Forall (λ c, chars c = true) ws → lstrip chars (ws ++ s) = lstrip chars s.
Proof. induction 1 as [|c ws Hc _ IH]; simpl; [done|]. by rewrite Hc. Qed.

Lemma lstrip_all_nil (ws : str) :
  Forall (λ c, chars c = true) ws → lstrip chars ws = [].
Proof. intros H. rewrite <-(app_nil_r ws). by rewrite lstrip_all. Qed.

Lemma lstrip_clean (s : str) :
  (∀ c, head s = Some c → chars c = false) → lstrip chars s = s.
Proof. destruct s as [|c s]; simpl; [done|]. intros H. by rewrite (H c). Qed.

Lemma lstrip_split (s : str) :
  ∃ ws, Forall (λ c, chars c = true) ws ∧ s = ws ++ lstrip chars s
        ∧ ∀ c, head (lstrip chars s) = Some c → chars c = false.
Proof.
  induction s as [|c s (ws & Hws & Hs & Hc)]; simpl.
  - exists []. by repeat split.
  - destruct (chars c) eqn:E.
    + exists (c :: ws). repeat split; [by constructor | simpl; by f_equal | done].
    + exists []. repeat split; [done|]. simpl. by intros ? [= <-].
Qed.

Lemma rstrip_all (s ws : str) :
  Forall (λ c, chars c = true) ws → rstrip chars (s ++ ws) = rstrip chars s.
Proof.
  intros H. unfold rstrip. rewrite reverse_app, lstrip_all; [done|].
  by apply Forall_reverse.
Qed.

Lemma rstrip_clean (s : str) :
  (∀ c, last s = Some c → chars c = false) → rstrip chars s = s.
Proof.
  intros H. unfold rstrip. rewrite lstrip_clean, reverse_involutive; [done|].
  intros c. rewrite head_reverse. apply H.
Qed.

Lemma rstrip_split (s : str) :
  ∃ ws, Forall (λ c, chars c = true) ws ∧ s = rstrip chars s ++ ws
        ∧ ∀ c, last (rstrip chars s) = Some c → chars c = false.
Proof.
  destruct (lstrip_split (reverse s)) as (ws & Hws & Hs & Hc).
  exists (reverse ws). repeat split.
  - by apply Forall_reverse.
  - unfold rstrip. rewrite <-reverse_app, <-Hs. by rewrite reverse_involutive.
  - intros c. unfold rstrip. rewrite last_reverse. apply Hc.
Qed.

(** What [strip] returns has none of the characters at either end, and
    the string is what [strip] returns between two runs of them. *)
Lemma strip_split (s : str) :
  ∃ ws1 ws2,
    Forall (λ c, chars c = true) ws1 ∧ Forall (λ c, chars c = true) ws2
    ∧ s = ws1 ++ strip chars s ++ ws2
    ∧ (∀ c, head (strip chars s) = Some c → chars c = false)
    ∧ (∀ c, last (strip chars s) = Some c → chars c = false).
Proof.
  destruct (lstrip_split s) as (ws1 & Hws1 & Hs1 & Hc1).
  destruct (rstrip_split (lstrip chars s)) as (ws2 & Hws2 & Hs2 & Hc2).
  exists ws1, ws2. unfold strip. repeat split; try done.
  - by rewrite <-Hs2.
  - intros c Hc. destruct (rstrip chars (lstrip chars s)) as [|c' r] eqn:E; [done|].
    simpl in Hc. injection Hc as ->. apply Hc1. by rewrite Hs2.
Qed.

Lemma strip_clean (ws1 s ws2 : str) :
  Forall (λ c, chars c = true) ws1 → Forall (λ c, chars c = true) ws2 →
  (∀ c, head s = Some c → chars c = false) →
  (∀ c, last s = Some c → chars c = false) →
  strip chars (ws1 ++ s ++ ws2) = s.
Proof.
  intros H1 H2 Hh Hl. unfold strip. rewrite lstrip_all by done.
  destruct s as [|c s].
  - simpl. by rewrite lstrip_all_nil.
  - rewrite lstrip_clean by (simpl; intros ? [= <-]; by apply Hh).
    rewrite rstrip_all by done. by apply rstrip_clean.
Qed.

Lemma strip_nil (s : str) :
  strip chars s = [] ↔ Forall (λ c, chars c = true) s.
Proof.
  split.
  - intros H. destruct (strip_split s) as (ws1 & ws2 & H1 & H2 & Hs & _).
    rewrite Hs, H. simpl. by apply Forall_app.
  - intros H. unfold strip. by rewrite lstrip_all_nil.
Qed.

End Strip.

Lemma split_once_spec sep (s : str) :
  sep ∈ s →
  ∃ key value, split_once sep s = (key, value)
               ∧ s = key ++ sep :: value ∧ sep ∉ key.
Proof.
  induction s as [|c s IH]; [by intros ?%elem_of_nil|].
  intros Hin. simpl. destruct (N.eqb_spec c sep) as [->|Hne].
  - exists [], s. repeat split. apply not_elem_of_nil.
  - apply elem_of_cons in Hin as [->|Hin]; [done|].
    destruct (IH Hin) as (key & value & -> & -> & Hk).
    exists (c :: key), value. repeat split.
    intros [->|?]%elem_of_cons; [done|by apply Hk].
Qed.

Lemma split_once_app sep (key value : str) :
  sep ∉ key → split_once sep (key ++ sep :: value) = (key, value).
Proof.
  induction key as [|c key IH]; simpl; intros Hk.
  - by rewrite N.eqb_refl.
  - apply not_elem_of_cons in Hk as [Hc Hk].
    destruct (N.eqb_spec c sep) as [->|_]; [done|]. by rewrite IH.
Qed.

Lemma eq_not_space : is_space 61 = false.
Proof. reflexivity. Qed.

Lemma quote_not_space c : is_quote c = true → is_space c = false.
Proof.
  unfold is_quote. rewrite orb_true_iff, !N.eqb_eq. by intros [->| ->].
Qed.


Lemma last_from (s1 s2 : str) (P : N → Prop) :
  (∀ c, last s2 = Some c → P c) →
  (s2 = [] → ∀ c, last s1 = Some c → P c) →
  ∀ c, last (s1 ++ s2) = Some c → P c.
Proof.
  intros H2 H1 c. rewrite last_app. destruct (last s2) as [c'|] eqn:E.
  - intros [= <-]. by apply H2.
  - apply last_None in E. by apply H1.
Qed.

Lemma last_all (s : str) (P : N → Prop) :
  Forall P s → ∀ c, last s = Some c → P c.
Proof.
  intros H c [s' ->]%last_Some. apply Forall_app in H as [_ H].
  by inversion H.
Qed.

(** X1. Writing [key=value] into the file, with white space around the
    line and any quote characters around the value, makes the loader
    assign exactly [value] to [key]: for a key without ['='] that does not
    begin with white space or ['#'], and a value that neither begins nor
    ends with a quote character (nor ends with white space when it is
    unquoted). *)
Theorem assignment_round_trip (ws1 ws2 q1 q2 key value : str) :
  Forall (λ c, is_space c = true) ws1 → Forall (λ c, is_space c = true) ws2 →
  Forall (λ c, is_quote c = true) q1 → Forall (λ c, is_quote c = true) q2 →
  61%N ∉ key →
  (∀ c, head key = Some c → is_space c = false ∧ c ≠ 35%N) →
  (∀ c, head value = Some c → is_quote c = false) →
  (∀ c, last value = Some c → is_quote c = false ∧ (q2 = [] → is_space c = false)) →
  assignment (ws1 ++ (key ++ 61%N :: q1 ++ value ++ q2) ++ ws2) = Some (key, value).
Proof.
  intros Hws1 Hws2 Hq1 Hq2 Hkey Hhead Hvh Hvl. unfold assignment.
  rewrite strip_clean; try done.
  - assert (Hne : key ++ 61%N :: q1 ++ value ++ q2 ≠ []) by by destruct key.
    rewrite bool_decide_eq_false_2 by done.
    assert (Hc : startswith 35 (key ++ 61%N :: q1 ++ value ++ q2) = false).
    { destruct key as [|c key]; [done|]. simpl. apply N.eqb_neq.
      by apply (Hhead c). }
    rewrite Hc. rewrite bool_decide_eq_true_2
      by (apply elem_of_app; right; apply elem_of_cons; by left).
    cbn [negb andb]. rewrite split_once_app by done.
    rewrite (strip_clean is_quote q1 value q2); try done.
    intros c Hl. by apply Hvl.
  - intros c. rewrite head_app. destruct (head key) as [c'|] eqn:E.
    + intros [= <-]. by apply (Hhead c').
    + simpl. by intros [= <-].
  - intros c. rewrite last_app_cons.
    change (61%N :: q1 ++ value ++ q2) with ([61%N] ++ q1 ++ value ++ q2).
    rewrite !app_assoc. revert c.
    apply (last_from _ q2 (λ c, is_space c = false)).
    { apply last_all. eapply Forall_impl; [exact Hq2|].
      intros c. apply quote_not_space. }
    intros ->. apply (last_from _ value (λ c, is_space c = false)).
    { intros c Hl. by apply Hvl. }
    intros _. apply (last_from _ q1 (λ c, is_space c = false)).
    { apply last_all. eapply Forall_impl; [exact Hq1|].
      intros c. apply quote_not_space. }
    intros _ c. simpl. by intros [= <-].
Qed.

(** The line [  API_KEY='abc=1'  ] assigns [abc=1] to [API_KEY]. *)
Lemma assignment_round_trip_witness :
  assignment (of_string "  API_KEY='abc=1'  ")
  = Some (of_string "API_KEY", of_string "abc=1").
Proof.
  apply (assignment_round_trip (of_string "  ") (of_string "  ")
           (of_string "'") (of_string "'") (of_string "API_KEY") (of_string "abc=1")).
  - by repeat constructor.
  - by repeat constructor.
  - by repeat constructor.
  - by repeat constructor.
  - vm_compute. intros H. by repeat (apply elem_of_cons in H as [H|H]; [done|]);
      apply elem_of_nil in H.
  - intros c [= <-]. by split.
  - by intros c [= <-].
  - intros c [= <-]. by split.
Defined.

(** X2. Whatever the loader assigns comes from the line as follows: without
    its surrounding white space the line is [key], ['='], and [value]
    between two runs of quote characters; [key] is everything before the
    first ['='], kept as written, and [value] neither begins nor ends with
    a quote character. *)
Theorem assignment_sound (line key value : str) :
  assignment line = Some (key, value) →
  ∃ q1 q2,
    Forall (λ c, is_quote c = true) q1 ∧ Forall (λ c, is_quote c = true) q2
    ∧ strip is_space line = key ++ 61%N :: q1 ++ value ++ q2
    ∧ (61%N ∉ key)
    ∧ head key ≠ Some 35%N
    ∧ (∀ c, head value = Some c → is_quote c = false)
    ∧ (∀ c, last value = Some c → is_quote c = false).
Proof.
  unfold assignment. set (s := strip is_space line).
  destruct (bool_decide (s = [])) eqn:E1; [done|].
  destruct (startswith 35 s) eqn:E2; [done|].
  destruct (bool_decide (61%N ∈ s)) eqn:E3; [|done]. cbn [negb andb].
  apply bool_decide_eq_true in E3.
  destruct (split_once_spec 61 s E3) as (k & v & -> & Hs & Hk).
  intros [= <- <-].
  destruct (strip_split is_quote v) as (q1 & q2 & Hq1 & Hq2 & Hv & Hh & Hl).
  exists q1, q2. repeat split; try done.
  - by rewrite Hs, Hv at 1.
  - rewrite Hs in E2. destruct k as [|c k]; [done|]. simpl in E2 |- *.
    apply N.eqb_neq in E2. by intros [= ->].
Qed.

Lemma assignment_sound_witness :
  ∃ q1 q2,
    strip is_space (of_string " A = 'x' ")
    = of_string "A " ++ 61%N :: q1 ++ of_string " 'x" ++ q2.
Proof.
  destruct (assignment_sound (of_string " A = 'x' ") (of_string "A ") (of_string " 'x"))
    as (q1 & q2 & _ & _ & H & _); [vm_compute; reflexivity|].
  by exists q1, q2.
Defined.

Lemma elem_of_strip_space (c : N) (line : str) :
  is_space c = false → c ∈ strip is_space line ↔ c ∈ line.
Proof.
  intros Hc. destruct (strip_split is_space line) as (ws1 & ws2 & H1 & H2 & Hs & _).
  rewrite Hs at 2. rewrite !elem_of_app.
  assert (∀ ws, Forall (λ c, is_space c = true) ws → c ∉ ws) as Hn.
  { intros ws Hws Hin. rewrite Forall_forall in Hws. apply Hws in Hin. congruence. }
  split; [auto|]. intros [?|[?|?]]; [by destruct (Hn ws1)|done|by destruct (Hn ws2)].
Qed.

(** X3. The lines that assign nothing are exactly the blank lines, the
    lines whose first character after the leading white space is ['#'],
    and the lines without ['=']. *)
Theorem assignment_ignored (line : str) :
  assignment line = None
  ↔ Forall (λ c, is_space c = true) line
    ∨ head (strip is_space line) = Some 35%N
    ∨ 61%N ∉ line.
Proof.
  unfold assignment. rewrite <-(strip_nil is_space line).
  rewrite <-(elem_of_strip_space 61 line) by done.
  set (s := strip is_space line).
  destruct (decide (s = [])) as [E1|E1].
  { rewrite bool_decide_eq_true_2 by done. simpl. split; auto. }
  rewrite bool_decide_eq_false_2 by done.
  destruct (startswith 35 s) eqn:E2.
  { simpl. split; [|done]. intros _. right; left.
    destruct s as [|c s]; [done|]. simpl in *. by apply N.eqb_eq in E2 as ->. }
  destruct (decide (61%N ∈ s)) as [E3|E3].
  - rewrite bool_decide_eq_true_2 by done. cbn [negb andb].
    destruct (split_once 61 s). split; [done|].
    intros [?|[H|?]]; [done| |done].
    destruct s as [|c s]; [done|]. simpl in *. injection H as ->. done.
  - rewrite bool_decide_eq_false_2 by done. simpl. split; auto.
Qed.

Section Loading.
Variable refused : str → str → option exn.

Lemma load_env_file_cons line lines environ :
  load_env_file refused (line :: lines) environ
  = match assignment line with
    | Some (key, value) =>
        match refused key value with
        | Some e => Raise e
        | None => load_env_file refused lines (<[key := value]> environ)
        end
    | None => load_env_file refused lines environ
    end.
Proof.
  simpl. destruct (assignment line) as [[key value]|]; [|done].
  unfold environ_setitem. by destruct (refused key value).
Qed.

Lemma load_env_file_last_assigned lines environ environ' name :
  load_env_file refused lines environ = Ok environ' →
  environ' !! name = match last_assigned name lines with
                     | Some value => Some value
                     | None => environ !! name
                     end.
Proof.
  revert environ. induction lines as [|line lines IH]; intros environ.
  { by intros [= <-]. }
  rewrite load_env_file_cons. simpl.
  destruct (assignment line) as [[key value]|].
  - destruct (refused key value); [done|]. intros H%IH. rewrite H.
    destruct (last_assigned name lines); [done|].
    case_bool_decide as Hk.
    + subst. by rewrite lookup_insert_eq.
    + by rewrite lookup_insert_ne.
  - intros H%IH. rewrite H. by destruct (last_assigned name lines).
Qed.

Lemma load_env_file_accepted lines environ :
  (∀ line key value,
     line ∈ lines → assignment line = Some (key, value) → refused key value = None) →
  ∃ environ', load_env_file refused lines environ = Ok environ'.
Proof.
  revert environ. induction lines as [|line lines IH]; intros environ Hok.
  { by eexists. }
  rewrite load_env_file_cons.
  destruct (assignment line) as [[key value]|] eqn:E.
  - rewrite (Hok line key value) by (done || by left).
    apply IH. intros l k v Hl. apply Hok. by right.
  - apply IH. intros l k v Hl. apply Hok. by right.
Qed.

Lemma last_assigned_None name lines :
  last_assigned name lines = None
  ↔ ∀ line value, line ∈ lines → assignment line ≠ Some (name, value).
Proof.
  induction lines as [|line lines IH]; simpl.
  { split; [|done]. by intros _ ? ? ?%elem_of_nil. }
  destruct (last_assigned name lines) as [v|].
  - split; [done|]. intros H. exfalso.
    assert (Some v = None) as [=]. apply IH. intros l v' Hl. apply H. by right.
  - destruct (assignment line) as [[key value]|] eqn:E.
    + case_bool_decide as Hk.
      * subst. split; [done|]. intros H. destruct (H line value); [by left|done].
      * split; [|done]. intros _ l v [->|Hl]%elem_of_cons.
        -- rewrite E. by intros [= ? ?].
        -- by apply IH.
    + split; [|done]. intros _ l v [->|Hl]%elem_of_cons.
      * by rewrite E.
      * by apply IH.
Qed.

Lemma last_assigned_app name before after :
  last_assigned name (before ++ after)
  = match last_assigned name after with
    | Some value => Some value
    | None => last_assigned name before
    end.
Proof.
  induction before as [|line before IH]; simpl.
  { by destruct (last_assigned name after). }
  rewrite IH. by destruct (last_assigned name after).
Qed.

(** X4. When the platform accepts every assignment, loading succeeds, and
    afterwards a variable that no line assigns has the value it had, and a
    variable that lines assign has the value of the last of them, whatever
    it was before and whatever earlier lines gave it. *)
Theorem load_env_file_last_wins (lines : list str) (environ : gmap str str) :
  (∀ line key value,
     line ∈ lines → assignment line = Some (key, value) → refused key value = None) →
  ∃ environ',
    load_env_file refused lines environ = Ok environ'
    ∧ (∀ name,
         (∀ line value, line ∈ lines → assignment line ≠ Some (name, value)) →
         environ' !! name = environ !! name)
    ∧ (∀ before line after name value,
         lines = before ++ line :: after →
         assignment line = Some (name, value) →
         (∀ line' value', line' ∈ after → assignment line' ≠ Some (name, value')) →
         environ' !! name = Some value).
Proof.
  intros Hok. destruct (load_env_file_accepted lines environ Hok) as [environ' H].
  exists environ'. split; [done|]. split.
  - intros name Hn. rewrite (load_env_file_last_assigned _ _ _ name H).
    apply last_assigned_None in Hn. by rewrite Hn.
  - intros before line after name value -> Hl Hafter.
    rewrite (load_env_file_last_assigned _ _ _ name H).
    rewrite last_assigned_app. simpl.
    apply last_assigned_None in Hafter. rewrite Hafter, Hl.
    by rewrite bool_decide_eq_true_2.
Qed.

(** X5. Loading is idempotent: loading the same lines again changes
    nothing. *)
Theorem load_env_file_idempotent (lines : list str) (environ environ' : gmap str str) :
  load_env_file refused lines environ = Ok environ' →
  load_env_file refused lines environ' = Ok environ'.
Proof.
  intros H.
  assert (Hok : ∀ line key value,
            line ∈ lines → assignment line = Some (key, value) →
            refused key value = None).
  { clear -H. revert environ H. induction lines as [|l lines IH]; intros environ H.
    { by intros ? ? ? ?%elem_of_nil. }
    rewrite load_env_file_cons in H. intros line key value [->|Hl]%elem_of_cons E.
    - rewrite E in H. by destruct (refused key value).
    - destruct (assignment l) as [[k v]|].
      + destruct (refused k v); [done|]. by apply (IH _ H line).
      + by apply (IH _ H line). }
  destruct (load_env_file_accepted lines environ' Hok) as [environ'' H'].
  rewrite H'. f_equal. apply map_eq. intros name.
  rewrite (load_env_file_last_assigned _ _ _ name H').
  rewrite (load_env_file_last_assigned _ _ _ name H).
  by destruct (last_assigned name lines).
Qed.

(** The first assignment that the platform refuses ends the loading
    with the platform's exception; the lines after it are not read. *)
Theorem load_env_file_refused (before after : list str) (line key value : str)
    (e : exn) (environ : gmap str str) :
  (∀ line' key' value',
     line' ∈ before → assignment line' = Some (key', value') →
     refused key' value' = None) →
  assignment line = Some (key, value) →
  refused key value = Some e →
  load_env_file refused (before ++ line :: after) environ = Raise e.
Proof.
  revert environ. induction before as [|l before IH]; intros environ Hok Hl He.
  - simpl app. rewrite load_env_file_cons, Hl, He. done.
  - simpl app. rewrite load_env_file_cons.
    destruct (assignment l) as [[k v]|] eqn:E.
    + rewrite (Hok l k v) by (done || by left).
      apply IH; [|done..]. intros ? ? ? ?. apply Hok. by right.
    + apply IH; [|done..]. intros ? ? ? ?. apply Hok. by right.
Qed.

End Loading.

(** A platform that refuses the empty name. *)
Lemma load_env_file_last_wins_witness :
  let refused (key value : str) :=
    if bool_decide (key = []) then Some OSError else None in
  let lines := [of_string "A=1"; of_string "# A=5"; of_string "A='2'"; of_string "B"] in
  let environ : gmap str str :=
    {[ of_string "A" := of_string "0"; of_string "B" := of_string "b" ]} in
  ∃ environ',
    load_env_file refused lines environ = Ok environ'
    ∧ environ' !! of_string "A" = Some (of_string "2")
    ∧ environ' !! of_string "B" = Some (of_string "b").
Proof.
  intros refused lines environ.
  destruct (load_env_file_last_wins refused lines environ)
    as (environ' & H & Hframe & Hlast).
  { intros line key value Hin Ha.
    repeat (apply elem_of_cons in Hin as [->|Hin]);
      [vm_compute in Ha;
       first [discriminate Ha | injection Ha as <- <-; reflexivity]..
      |by apply elem_of_nil in Hin]. }
  exists environ'. split; [exact H|]. split.
  - apply (Hlast [of_string "A=1"; of_string "# A=5"] (of_string "A='2'")
             [of_string "B"]); [reflexivity|vm_compute; reflexivity|].
    intros line' value' Hin.
    apply elem_of_cons in Hin as [->|Hin]; [|by apply elem_of_nil in Hin].
    vm_compute. discriminate.
  - rewrite (Hframe (of_string "B")); [vm_compute; reflexivity|].
    intros line value Hin.
    repeat (apply elem_of_cons in Hin as [->|Hin]);
      [vm_compute; intros [=]..|by apply elem_of_nil in Hin].
Defined.

Lemma load_env_file_idempotent_witness :
  let refused (key value : str) :=
    if bool_decide (key = []) then Some OSError else None in
  let lines := [of_string "A=1"; of_string "B=x"; of_string "A=2"] in
  let environ' : gmap str str :=
    {[ of_string "A" := of_string "2"; of_string "B" := of_string "x" ]} in
  load_env_file refused lines environ' = Ok environ'.
Proof.
  intros refused lines environ'.
  apply (load_env_file_idempotent refused lines ∅ environ').
  vm_compute. reflexivity.
Defined.

(** A line that begins with ['='] names the empty variable. *)
Lemma load_env_file_refused_witness :
  let refused (key value : str) :=
    if bool_decide (key = []) then Some OSError else None in
  load_env_file refused [of_string "A=1"; of_string "=x"; of_string "B=2"] ∅
  = Raise OSError.
Proof.
  intros refused.
  apply (load_env_file_refused refused [of_string "A=1"] [of_string "B=2"]
           (of_string "=x") [] (of_string "x")).
  - intros line' key' value' Hin Ha.
    apply elem_of_cons in Hin as [->|Hin]; [|by apply elem_of_nil in Hin].
    vm_compute in Ha. by injection Ha as <- <-.
  - vm_compute. reflexivity.
  - reflexivity.
Defined.

End EnvProps.

(** ** The module cards and the run totals of fetched data *)

Module CardProps.
Import Html AggregatorSpec AggregatorProps.

Lemma count_if_all {A} (f : A → bool) (l : list A) :
  count_if f l = len l ↔ Forall (λ x, f x = true) l.
Proof.
  unfold len. induction l as [|x l IH]; simpl length; simpl count_if.
  - split; [constructor|done].
  - pose proof (count_if_le_len f l) as Hle. unfold len in Hle.
    rewrite Forall_cons, <-IH. destruct (f x); split.
    + intros ?. split; [done|lia].
    + intros [_ ?]. lia.
    + lia.
    + intros [? _]. done.
Qed.

Lemma count_if_none {A} (f : A → bool) (l : list A) :
  count_if f l = 0 ↔ Forall (λ x, f x = false) l.
Proof.
  induction l as [|x l IH]; simpl count_if.
  - split; [constructor|done].
  - pose proof (count_if_nonneg f l) as Hle.
    rewrite Forall_cons, <-IH. destruct (f x); split.
    + lia.
    + intros [? _]. done.
    + intros ?. split; [done|lia].
    + intros [_ ?]. lia.
Qed.

Lemma count_if_some {A} (f : A → bool) (l : list A) :
  0 < count_if f l ↔ Exists (λ x, f x = true) l.
Proof.
  pose proof (count_if_nonneg f l) as Hle.
  pose proof (count_if_none f l) as Hn.
  rewrite Exists_exists. split.
  - intros H. destruct (decide (Forall (λ x, f x = false) l)) as [Hf|Hf].
    + apply Hn in Hf. lia.
    + apply not_Forall_Exists in Hf; [|intros x; apply _].
      apply Exists_exists in Hf as (x & Hx & Hfx). exists x. split; [done|].
      simpl in Hfx. by destruct (f x).
  - intros (x & Hx & Hfx). destruct (decide (count_if f l = 0)) as [E|E]; [|lia].
    apply Hn in E. rewrite Forall_forall in E. rewrite (E x Hx) in Hfx. done.
Qed.

Lemma py_eq_int (a b : Z) : py_eq (PInt a) (PInt b) = (a =? b).
Proof.
  unfold py_eq. destruct (Z.eqb_spec a b) as [->|Hne].
  - by rewrite bool_decide_eq_true_2.
  - rewrite bool_decide_eq_false_2; [done|]. by intros [= ?].
Qed.

(** X6. The status icon of a module built by [fetch_current_run_data] is
    "passed" exactly when every test of the module has the status
    'passed' (an empty module included), "failed" exactly when some test has
    the status 'failed', and "partial" otherwise. *)
Theorem fetched_status_icon (row : module_row) :
  let fields := m_fields (parsed_module row) in
  let tests := row_tests row in
  ∃ icon,
    status_class (get_or fields "test_cases_run" (PInt 0))
                 (get_or fields "test_cases_passed" (PInt 0))
                 (get_or fields "test_cases_failed" (PInt 0)) = Ok icon
    ∧ (icon = "passed" ↔ Forall (λ t, status_is "passed" t = true) tests)
    ∧ (icon = "failed" ↔ Exists (λ t, status_is "failed" t = true) tests)
    ∧ (icon = "partial" ↔
         ¬ Forall (λ t, status_is "passed" t = true) tests
         ∧ ¬ Exists (λ t, status_is "failed" t = true) tests).
Proof.
  intros fields tests.
  change (get_or fields "test_cases_run" (PInt 0)) with (PInt (test_cases_run tests)).
  change (get_or fields "test_cases_passed" (PInt 0)) with (PInt (test_cases_passed tests)).
  change (get_or fields "test_cases_failed" (PInt 0)) with (PInt (test_cases_failed tests)).
  unfold status_class, py_gt. rewrite !py_eq_int.
  pose proof (count_if_all (status_is "passed") tests) as Hall.
  pose proof (count_if_some (status_is "failed") tests) as Hsome.
  pose proof (count_if_nonneg (status_is "failed") tests) as Hnn.
  pose proof (status_counts_sum tests) as Hsum.
  pose proof (count_if_nonneg (status_is "skipped") tests) as Hs.
  pose proof (count_if_nonneg (λ t, negb (recognized_status t)) tests) as Hu.
  unfold test_cases_run, test_cases_passed, test_cases_failed, test_cases_skipped,
    unknown_count in *.
  set (run := len tests) in *. set (p := count_if (status_is "passed") tests) in *.
  set (f := count_if (status_is "failed") tests) in *.
  destruct (Z.eqb_spec f 0) as [Hf0|Hf0], (Z.eqb_spec p run) as [Hpr|Hpr];
    cbn [andb mbind result_bind]; destruct (Z.ltb_spec 0 f) as [Hf|Hf]; try lia.
  - exists "passed". repeat split; try done.
    + intros _. by apply Hall.
    + intros Ex. apply Hsome in Ex. lia.
    + intros [Nall _]. destruct Nall. by apply Hall.
  - exists "partial". repeat split; try done.
    + intros All. by apply Hall in All.
    + intros Ex. apply Hsome in Ex. lia.
    + intros All. by apply Hall in All.
    + intros Ex. apply Hsome in Ex. lia.
  - exists "failed". repeat split; try done.
    + intros All. apply Hall in All. lia.
    + intros _. by apply Hsome.
    + intros [_ Nex]. destruct Nex. by apply Hsome.
Qed.


Lemma fetched_totals_sum (rows : list module_row) :
  let total (count : list dict → Z) :=
    foldr Z.add 0 (map (λ row, count (row_tests row)) rows) in
  total test_cases_passed + total test_cases_failed + total test_cases_skipped
  + total unknown_count = total test_cases_run
  ∧ 0 ≤ total test_cases_passed ∧ 0 ≤ total test_cases_failed
  ∧ 0 ≤ total test_cases_skipped ∧ 0 ≤ total unknown_count
  ∧ (total unknown_count = 0
     ↔ Forall (λ row, Forall (λ t, recognized_status t = true) (row_tests row)) rows).
Proof.
  induction rows as [|row rows IH]; cbn zeta in *; cbn [map foldr].
  { repeat split; try lia. constructor. }
  destruct IH as (Hsum & Hp & Hf & Hs & Hu & Hiff).
  pose proof (status_counts_sum (row_tests row)) as Hrow.
  pose proof (count_if_nonneg (status_is "passed") (row_tests row)).
  pose proof (count_if_nonneg (status_is "failed") (row_tests row)).
  pose proof (count_if_nonneg (status_is "skipped") (row_tests row)).
  pose proof (count_if_nonneg (λ t, negb (recognized_status t)) (row_tests row)) as Hu0.
  pose proof (count_if_none (λ t, negb (recognized_status t)) (row_tests row)) as Hnone.
  unfold test_cases_passed, test_cases_failed, test_cases_skipped, unknown_count in *.
  repeat split; try lia.
  - intros Hzero. constructor.
    + assert (count_if (λ t, negb (recognized_status t)) (row_tests row) = 0) as E by lia.
      apply Hnone in E. eapply Forall_impl; [exact E|].
      intros t. simpl. by destruct (recognized_status t).
    + apply Hiff. lia.
  - intros Hall. apply Forall_cons in Hall as [Hrec Hrest].
    apply Hiff in Hrest.
    assert (count_if (λ t, negb (recognized_status t)) (row_tests row) = 0) as E.
    { apply Hnone. eapply Forall_impl; [exact Hrec|]. intros t. simpl. by intros ->. }
    lia.
Qed.

(** X7. The overall statistics of the modules that [fetch_current_run_data]
    builds are always defined; passed, failed and skipped are not negative
    and add up to at most the total number of tests, and to exactly the
    total when every test of every module has one of the three statuses. *)
Theorem fetched_run_totals (rows : list module_row) :
  ∃ s, overall_stats (fetch_current_run_data rows) = Ok s
    ∧ total_modules s = len rows
    ∧ 0 ≤ total_passed s ∧ 0 ≤ total_failed s ∧ 0 ≤ total_skipped s
    ∧ total_passed s + total_failed s + total_skipped s ≤ total_tests s
    ∧ (total_passed s + total_failed s + total_skipped s = total_tests s
       ↔ Forall (λ row, Forall (λ t, recognized_status t = true) (row_tests row)) rows).
Proof.
  unfold overall_stats, summarize.
  rewrite (SummaryProps.sum_field_fetched "test_cases_run" test_cases_run) by done.
  rewrite (SummaryProps.sum_field_fetched "test_cases_passed" test_cases_passed) by done.
  rewrite (SummaryProps.sum_field_fetched "test_cases_failed" test_cases_failed) by done.
  rewrite (SummaryProps.sum_field_fetched "test_cases_skipped" test_cases_skipped) by done.
  eexists. split; [reflexivity|]. cbn [total_modules total_tests total_passed
    total_failed total_skipped mbind result_bind].
  destruct (fetched_totals_sum rows) as (Hsum & Hp & Hf & Hs & Hu & Hiff).
  cbn zeta in *. split.
  { unfold len, fetch_current_run_data. by rewrite !length_map. }
  repeat split; try lia.
  - intros E. apply Hiff. lia.
  - intros Hall. apply Hiff in Hall. lia.
Qed.

End CardProps.

(** ** The pass rate as a percentage *)

Module PassRateRange.
Import PassRateProps.

(** X8. For a run with at least one test and no more passed tests than
    tests, the pass rate lies between 0 and 100; it is 100 when every test
    passed and 0 when none did. *)
Theorem pass_rate_range (p t : Z) :
  0 ≤ p ≤ t → 0 < t → p < 2 ^ 43 →
  0 ≤ pass_rate_of p t ≤ 100
  ∧ (p = t → pass_rate_of p t = 100)
  ∧ (p = 0 → pass_rate_of p t = 0).
Proof.
  intros Hp Ht Hb.
  pose proof (pass_rate_of_nearest p t (proj1 Hp) Ht Hb) as H.
  repeat split; try intros ->; nia.
Qed.

Lemma pass_rate_range_witness :
  0 ≤ pass_rate_of 23 40 ≤ 100 ∧ pass_rate_of 40 40 = 100 ∧ pass_rate_of 0 40 = 0.
Proof.
  destruct (pass_rate_range 23 40) as (H & _ & _); [lia..|].
  destruct (pass_rate_range 40 40) as (_ & H100 & _); [lia..|].
  destruct (pass_rate_range 0 40) as (_ & _ & H0); [lia..|].
  split; [exact H|]. split; [by apply H100|by apply H0].
Defined.

(** X9. Rounding hides small shares: the pass rate is 100 as soon as
    fewer than one test in 200 did not pass, failures notwithstanding, and
    0 as soon as fewer than one test in 200 passed. *)
Theorem pass_rate_hides_small_shares (p t : Z) :
  0 ≤ p ≤ t → 0 < t → p < 2 ^ 43 →
  (200 * (t - p) < t → pass_rate_of p t = 100)
  ∧ (200 * p < t → pass_rate_of p t = 0).
Proof.
  intros Hp Ht Hb.
  pose proof (pass_rate_of_nearest p t (proj1 Hp) Ht Hb) as H.
  split; intros Hs; nia.
Qed.

(** One failure among 201 tests: the report shows 100%. *)
Lemma pass_rate_hides_small_shares_witness :
  pass_rate_of 200 201 = 100 ∧ pass_rate_of 1 201 = 0.
Proof.
  split.
  - apply (pass_rate_hides_small_shares 200 201); lia.
  - apply (pass_rate_hides_small_shares 1 201); lia.
Defined.

(** X10. With the number of tests fixed, the pass rate does not decrease
    when more tests pass. *)
Theorem pass_rate_monotone (p p' t : Z) :
  0 ≤ p ≤ p' → 0 < t → p' < 2 ^ 43 →
  pass_rate_of p t ≤ pass_rate_of p' t.
Proof.
  intros Hp Ht Hb.
  destruct (decide (p = p')) as [->|Hne]; [lia|].
  pose proof (pass_rate_of_nearest p t ltac:(lia) Ht ltac:(lia)) as H.
  pose proof (pass_rate_of_nearest p' t ltac:(lia) Ht Hb) as H'.
  nia.
Qed.

Lemma pass_rate_monotone_witness : pass_rate_of 22 40 ≤ pass_rate_of 23 40.
Proof. apply pass_rate_monotone; lia. Defined.

End PassRateRange.

(** ** The test table and the document as a whole *)

Module ReportProps.
Import Html DifferSpec DifferProps ReportSpec.

Lemma mapM_Ok {A B} (f : A → result B) (l : list A) (rs : list B) :
  mapM f l = Ok rs ↔ Forall2 (λ x r, f x = Ok r) l rs.
Proof.
  revert rs. induction l as [|x l IH]; intros rs; simpl.
  - split; [intros [= <-]; constructor|by inversion 1].
  - destruct (f x) as [r|e] eqn:E; simpl.
    + destruct (mapM f l) as [rs'|e'] eqn:E'; simpl.
      * split.
        -- intros [= <-]. constructor; [done|]. by apply IH.
        -- inversion 1 as [|? r' ? rs'' Hr Hrs]; subst.
           apply IH in Hrs. rewrite E in Hr.
           injection Hr as ->. by injection Hrs as ->.
      * split; [done|]. inversion 1 as [|? r' ? rs'' Hr Hrs]; subst.
        apply IH in Hrs. congruence.
    + split; [done|]. inversion 1; congruence.
Qed.


Lemma mapM_raises {A B} (f : A → result B) (l : list A) (x : A) :
  x ∈ l → raises (f x) → raises (mapM f l).
Proof.
  intros Hin [e He]. induction l as [|y l IH]; [by apply elem_of_nil in Hin|].
  simpl. apply elem_of_cons in Hin as [<-|Hin].
  - rewrite He. by eexists.
  - destruct (f y); [|by eexists]. simpl.
    destruct (IH Hin) as [e' ->]. by eexists.
Qed.

Lemma test_row_for_fields test prev_test row :
  test_row_for test prev_test = Ok row →
  row_test_name row = test_name "Unknown Test" test
  ∧ row_status row = get_or test "status" (PStr "unknown")
  ∧ row_priority row = get_or test "priority" (PStr "medium").
Proof.
  unfold test_row_for.
  destruct (if truthy (duration_of test) then seconds (duration_of test) else Ok TimeNA);
    [|done]. simpl.
  destruct (prev_columns (duration_of test) prev_test); [|done]. simpl.
  by intros [= <-].
Qed.

Lemma rows_of_tests (prev : dict → option dict) (tests : list dict) (rows : list test_row) :
  Forall2 (λ test row, test_row_for test (prev test) = Ok row) tests rows →
  row_test_name <$> rows = test_name "Unknown Test" <$> tests
  ∧ row_status <$> rows = (λ t, get_or t "status" (PStr "unknown")) <$> tests
  ∧ row_priority <$> rows = (λ t, get_or t "priority" (PStr "medium")) <$> tests.
Proof.
  induction 1 as [|x r l rs' Hr _ IH]; [done|].
  rewrite !fmap_cons. destruct IH as (-> & -> & ->).
  apply test_row_for_fields in Hr as (-> & -> & ->). done.
Qed.

(** X11. The test table of a module has the "no test data" notice exactly
    when the module has no tests; otherwise it has one row per test of the
    current module, in the order of the tests, each with the test's name
    (or 'Unknown Test'), status (or 'unknown') and priority (or 'medium'):
    the tests of the previous module contribute no rows. *)
Theorem test_table_rows (module : module_dict) (prev_module : option module_dict) :
  (generate_test_list_html module prev_module = Ok NoTestData
   ↔ module_tests module = [])
  ∧ ∀ rows,
      generate_test_list_html module prev_module = Ok (TestTable rows) →
      row_test_name <$> rows = test_name "Unknown Test" <$> module_tests module
      ∧ row_status <$> rows
        = (λ t, get_or t "status" (PStr "unknown")) <$> module_tests module
      ∧ row_priority <$> rows
        = (λ t, get_or t "priority" (PStr "medium")) <$> module_tests module.
Proof.
  unfold generate_test_list_html.
  destruct (module_tests module) as [|t tests] eqn:E.
  { split; [done|]. intros rows [=]. }
  set (f := λ test, test_row_for test _).
  split.
  { split; [|intros [=]]. destruct (mapM f (t :: tests)); simpl; [by intros [=]|done]. }
  intros rows. destruct (mapM f (t :: tests)) as [rs|] eqn:Em; simpl; [|done].
  intros [= <-]. apply mapM_Ok in Em. by apply (rows_of_tests _ _ _ Em).
Qed.


(** Two tests, the second one without a name. *)
Lemma test_table_rows_witness :
  let module := {| m_fields := ∅;
                   m_tests := Some [timed_test "opens" (Some 1200);
                                    {[ "status" := PStr "failed" ]}] |} in
  ∃ rows,
    generate_test_list_html module None = Ok (TestTable rows)
    ∧ row_test_name <$> rows = [PStr "opens"; PStr "Unknown Test"]
    ∧ row_status <$> rows = [PStr "unknown"; PStr "failed"].
Proof.
  intros module.
  destruct (generate_test_list_html module None) as [[|rows]|] eqn:E;
    [vm_compute in E; discriminate E| |vm_compute in E; discriminate E].
  exists rows. split; [reflexivity|].
  destruct (test_table_rows module None) as [_ H].
  destruct (H rows E) as (Hnames & Hstatus & _). by rewrite Hnames, Hstatus.
Defined.



(** X12. A current test that has neither a name nor a title is looked up
    under 'Unknown Test', whereas a previous test without them is stored
    under the empty name: unless a previous test is literally called
    'Unknown Test', the nameless test has no previous time and no time
    difference, even against a previous run of the same nameless test. *)
Theorem nameless_test_is_never_matched (test : dict) (pm : module_dict) :
  test !! "name" = None → test !! "title" = None →
  Forall (λ pt, test_name EmptyString pt ≠ PStr "Unknown Test") (module_tests pm) →
  prev_tests_map (Some pm) !! test_name "Unknown Test" test = None
  ∧ prev_columns (duration_of test)
      (prev_tests_map (Some pm) !! test_name "Unknown Test" test)
    = Ok (TimeNA, DiffNA).
Proof.
  intros Hn Ht Hprev.
  assert (prev_tests_map (Some pm) !! test_name "Unknown Test" test = None) as ->.
  { destruct (prev_tests_map (Some pm) !! _) as [pt|] eqn:E; [|done].
    exfalso. destruct (module_truthy pm) eqn:Em.
    - rewrite prev_tests_map_lookup in E by done. unfold last_match in E.
      rewrite first_match_None in E; [done|].
      intros t Hin. rewrite elem_of_reverse in Hin. rewrite Forall_forall in Hprev.
      unfold test_name at 2, get_or. rewrite Hn, Ht. simpl. by apply Hprev.
    - unfold prev_tests_map in E. by rewrite Em in E. }
  done.
Qed.

(** The same test, nameless in both runs, 1200 ms now and 1000 ms before. *)
Lemma nameless_test_is_never_matched_witness :
  let test : dict := {[ "status" := PStr "passed"; "duration_ms" := PInt 1200 ]} in
  let prev : dict := {[ "status" := PStr "passed"; "duration_ms" := PInt 1000 ]} in
  let pm := {| m_fields := ∅; m_tests := Some [prev] |} in
  prev_columns (duration_of test)
    (prev_tests_map (Some pm) !! test_name "Unknown Test" test)
  = Ok (TimeNA, DiffNA).
Proof.
  intros test prev pm.
  apply (nameless_test_is_never_matched test pm); [reflexivity..|].
  repeat constructor. vm_compute. discriminate.
Defined.


Lemma foldl_insert_last {A} (key : A → pyval) (after : list A) (m : gmap pyval A) name y :
  m !! name = Some y → Forall (λ x, key x ≠ name) after →
  foldl (λ acc x, <[key x := x]> acc) m after !! name = Some y.
Proof.
  intros Hm Hafter. revert m Hm.
  induction Hafter as [|x l Hx _ IH]; intros m Hm; simpl; [done|].
  apply IH. by rewrite lookup_insert_ne.
Qed.

Lemma foldl_insert_none {A} (key : A → pyval) (l : list A) (m : gmap pyval A) name :
  m !! name = None → Forall (λ x, key x ≠ name) l →
  foldl (λ acc x, <[key x := x]> acc) m l !! name = None.
Proof.
  intros Hm Hl. revert m Hm.
  induction Hl as [|x l Hx _ IH]; intros m Hm; simpl; [done|].
  apply IH. by rewrite lookup_insert_ne.
Qed.

(** X13. When several modules of the previous run carry the same name,
    the comparison uses the last of them; a module of the current run
    whose name no previous module carries has no counterpart. *)
Theorem prev_map_last_module_wins (before after : list module_dict)
    (m : module_dict) (name : pyval) :
  get (m_fields m) "module_name" = name →
  Forall (λ m', get (m_fields m') "module_name" ≠ name) after →
  prev_map_of (Some (before ++ m :: after)) !! name = Some m
  ∧ (Forall (λ m', get (m_fields m') "module_name" ≠ name) before →
     prev_map_of (Some (before ++ after)) !! name = None).
Proof.
  intros Hm Hafter. split.
  - assert (prev_map_of (Some (before ++ m :: after))
            = foldl (λ prev_map module,
                       <[get (m_fields module) "module_name" := module]> prev_map)
                ∅ (before ++ m :: after)) as ->.
    { unfold prev_map_of. by destruct before. }
    rewrite foldl_app. simpl.
    apply (foldl_insert_last (λ m', get (m_fields m') "module_name")); [|done].
    rewrite <-Hm. apply lookup_insert_eq.
  - intros Hbefore.
    assert (prev_map_of (Some (before ++ after))
            = foldl (λ prev_map module,
                       <[get (m_fields module) "module_name" := module]> prev_map)
                ∅ (before ++ after)) as ->.
    { unfold prev_map_of. by destruct (before ++ after). }
    apply (foldl_insert_none (λ m', get (m_fields m') "module_name")); [done|].
    by apply Forall_app.
Qed.

(** Two previous modules called "login": the second one is compared. *)
Lemma prev_map_last_module_wins_witness :
  let first := {| m_fields := {[ "module_name" := PStr "login";
                                 "test_cases_passed" := PInt 1 ]};
                  m_tests := Some [] |} in
  let second := {| m_fields := {[ "module_name" := PStr "login";
                                  "test_cases_passed" := PInt 5 ]};
                   m_tests := Some [] |} in
  prev_map_of (Some [first; second]) !! PStr "login" = Some second.
Proof.
  intros first second.
  by apply (prev_map_last_module_wins [first] [] second (PStr "login")).
Defined.


Lemma bind_raises {A B} (m : result A) (f : A → result B) :
  raises m → raises (m ≫= f).
Proof. intros [e ->]. by exists e. Qed.

Lemma bind_raises_later {A B} (m : result A) (f : A → result B) :
  (∀ a, raises (f a)) → raises (m ≫= f).
Proof. intros H. destruct m as [a|e]; [apply H|by exists e]. Qed.

Lemma test_row_for_bad_duration test prev_test s :
  duration_of test = PStr s → s ≠ EmptyString →
  test_row_for test prev_test = Raise TypeError.
Proof.
  intros Hd Hs. unfold test_row_for. rewrite Hd. unfold truthy.
  by rewrite bool_decide_eq_false_2.
Qed.

Lemma module_card_for_bad_test module prev_map test s :
  test ∈ module_tests module → duration_of test = PStr s → s ≠ EmptyString →
  raises (module_card_for module prev_map).
Proof.
  intros Hin Hd Hs. unfold module_card_for.
  do 4 (apply bind_raises_later; intros ?). apply bind_raises.
  unfold generate_test_list_html.
  destruct (module_tests module) as [|t tests] eqn:E; [by apply elem_of_nil in Hin|].
  apply bind_raises. apply (mapM_raises _ _ test Hin).
  exists TypeError. by apply (test_row_for_bad_duration _ _ s).
Qed.

Lemma module_card_for_bad_name module prev_map :
  (∀ name, get (m_fields module) "module_name" ≠ PStr name) →
  raises (module_card_for module prev_map).
Proof.
  intros Hname. unfold module_card_for, module_name_of.
  destruct (m_fields module !! "module_name") as [v|] eqn:E; [|by exists KeyError].
  cbn [mbind result_bind].
  do 2 (apply bind_raises_later; intros ?). apply bind_raises.
  destruct v as [|z|name]; [by exists AttributeError..|].
  destruct (Hname name). unfold get. by rewrite E.
Qed.

(** X14. One malformed entry costs the whole document: [create_html]
    raises as soon as some module has no string for a name, or some test of
    some module has a non-empty string for a duration, whatever the other
    modules and tests are. *)
Theorem create_html_malformed (modules : list module_dict)
    (prev_map : gmap pyval module_dict) (module : module_dict) :
  module ∈ modules →
  (∀ name, get (m_fields module) "module_name" ≠ PStr name)
  ∨ (∃ test s, test ∈ module_tests module
               ∧ duration_of test = PStr s ∧ s ≠ EmptyString) →
  raises (create_html modules prev_map).
Proof.
  intros Hin Hbad. unfold create_html.
  apply bind_raises_later. intros stats. apply bind_raises.
  apply (mapM_raises _ _ module Hin).
  destruct Hbad as [Hname|(test & s & Ht & Hd & Hs)].
  - by apply module_card_for_bad_name.
  - by apply (module_card_for_bad_test _ _ test s).
Qed.

(** A well-formed module next to one whose only test took "1.2s". *)
Lemma create_html_malformed_witness :
  let good := parsed_module
    {| row_fields := {[ "module_name" := PStr "login" ]};
       row_tests := [timed_test "opens" (Some 1200)] |} in
  let bad := parsed_module
    {| row_fields := {[ "module_name" := PStr "search" ]};
       row_tests := [{[ "name" := PStr "finds"; "duration" := PStr "1.2s" ]}] |} in
  raises (create_html [good; bad] ∅).
Proof.
  intros good bad.
  apply (create_html_malformed [good; bad] ∅ bad).
  - right. by left.
  - right. exists {[ "name" := PStr "finds"; "duration" := PStr "1.2s" ]}, "1.2s".
    split; [by left|]. split; [reflexivity|discriminate].
Defined.














(** The rows of a table none of which shows a previous time. *)
Lemma rows_without_previous (tests : list dict) (rows : list test_row) :
  Forall2 (λ test row, test_row_for test None = Ok row) tests rows →
  Forall (λ row, row_prev_time row = TimeNA ∧ row_time_diff row = DiffNA) rows.
Proof.
  induction 1 as [|test row tests rows Hrow _ IH]; constructor; [|done].
  unfold test_row_for in Hrow.
  destruct (if truthy (duration_of test) then seconds (duration_of test) else Ok TimeNA);
    [|done].
  simpl in Hrow. by injection Hrow as <-.
Qed.

(** X16. Without a previous run the document compares nothing: whenever
    [create_html] returns with an empty comparison map, no card has a
    comparison block and every row of every test table shows N/A for the
    previous time and for the time difference. *)
Theorem first_run_compares_nothing (modules : list module_dict) (report : html_report) :
  create_html modules (prev_map_of None) = Ok report →
  Forall (λ card,
            card_delta card = None
            ∧ card_comparison_html card = EmptyString
            ∧ ∀ rows, card_test_list card = TestTable rows →
                Forall (λ row, row_prev_time row = TimeNA
                               ∧ row_time_diff row = DiffNA) rows)
    (report_cards report).
Proof.
  unfold create_html, prev_map_of.
  destruct (overall_stats modules); [|done]. cbn [mbind result_bind].
  destruct (mapM _ modules) as [cards|] eqn:E; [|done]. cbn [mbind result_bind].
  intros [= <-]. cbn [report_cards]. apply mapM_Ok in E.
  induction E as [|module card ms cs Hcard _ IH]; constructor; [|done].
  clear IH. unfold module_card_for in Hcard.
  destruct (module_name_of module) as [name|]; [|done]. cbn [mbind result_bind] in Hcard.
  destruct (status_class _ _ _); [|done]. cbn [mbind result_bind] in Hcard.
  rewrite lookup_empty in Hcard. cbn [module_comparison mbind result_bind] in Hcard.
  destruct (match name with PStr _ => Ok () | _ => Raise AttributeError end); [|done].
  cbn [mbind result_bind] in Hcard.
  destruct (generate_test_list_html module None) as [table|] eqn:Et; [|done].
  cbn [mbind result_bind] in Hcard. injection Hcard as <-.
  cbn [card_delta card_comparison_html card_test_list comparison_html].
  split; [done|]. split; [done|].
  intros rows ->. unfold generate_test_list_html in Et.
  destruct (module_tests module) as [|t tests]; [done|].
  destruct (mapM _ (t :: tests)) as [rs|] eqn:Em; [|done].
  cbn [mbind result_bind] in Et. injection Et as <-.
  apply mapM_Ok in Em. apply (rows_without_previous (t :: tests)).
  eapply Forall2_impl; [exact Em|]. intros test row. simpl.
  by rewrite lookup_empty.
Qed.

Lemma first_run_compares_nothing_witness :
  let login := parsed_module
    {| row_fields := {[ "module_name" := PStr "login" ]};
       row_tests := [timed_test "opens" (Some 1200)] |} in
  ∃ report,
    create_html [login] (prev_map_of None) = Ok report
    ∧ Forall (λ card, card_delta card = None) (report_cards report).
Proof.
  intros login.
  destruct (create_html [login] (prev_map_of None)) as [report|] eqn:E;
    [|vm_compute in E; discriminate E].
  exists report. split; [reflexivity|].
  eapply Forall_impl; [exact (first_run_compares_nothing [login] report E)|].
  by intros card (? & _).
Defined.

End ReportProps.

(** ** The process entries: exit status and what is sent *)

Module EntryProps.
Import DeliveryProps EntrySpec.

Lemma str_truthy_true s : s ≠ EmptyString → str_truthy s = true.
Proof. intros H. unfold str_truthy. by rewrite bool_decide_eq_false_2. Qed.

(** The guarded delivery steps of the two [main]s return. *)
Ltac delivery_returns world Hfetch :=
  match goal with
  | |- context [try_except ?body ?handler world] =>
      let Hfiles := fresh "Hfiles" in
      destruct (returns_try_except body handler) with (w := world)
        as ([] & ? & -> & Hfiles);
      [ first
          [ solve [wb]
          | apply wb_bind; [apply wb_print|]; intros _;
            apply wb_bind; [apply Hfetch|]; intros [[|? ?]|]; try apply wb_print;
            unfold Pdf.calculate_summary; solve [wb] ]
      | intros ?; apply returns_bind; [apply returns_print|];
        intros _; apply returns_print
      | ]
  end.

(** X17. The exit status of either [main] is 0 when a non-empty run id is
    given and the generator returns a non-empty path, and 1 in every other
    case: no run id, an empty one, no path, or an exception of the
    generator; the outcome of the delivery never changes it.  The first
    command-line argument is the run id even when it is empty and
    [CRON_RUN_ID] is set. *)
Theorem main_exit_status :
  (∀ requests_post requests_get generate_html_report
     env_token env_channel env_cron_run_id argv w,
     well_behaved requests_post → well_behaved requests_get →
     (∀ id code, (generate_html_report id w).1 ≠ Raise (SystemExit code)) →
     exit_code (Html.main requests_post requests_get generate_html_report
                  env_token env_channel env_cron_run_id argv w).1
     = expected_status
         (match argv with _ :: arg :: _ => Some arg | _ => env_cron_run_id end)
         (λ id, (generate_html_report id w).1))
  ∧ (∀ requests_post generate_pdf_report fetch_report_data
       env_token env_channel env_cron_run_id argv w,
       well_behaved requests_post →
       (∀ id, well_behaved (fetch_report_data id)) →
       (∀ id code, (generate_pdf_report id w).1 ≠ Raise (SystemExit code)) →
       exit_code (Pdf.main requests_post generate_pdf_report fetch_report_data
                    env_token env_channel env_cron_run_id argv w).1
       = expected_status
           (match argv with _ :: arg :: _ => Some arg | _ => env_cron_run_id end)
           (λ id, (generate_pdf_report id w).1)).
Proof.
  split.
  - intros requests_post requests_get generate env_token env_channel env_id
      argv w Hpost Hget Hgen.
    unfold Html.main, expected_status.
    destruct (match argv with _ :: arg :: _ => Some arg | _ => env_id end)
      as [id|]; [|reflexivity].
    destruct (str_truthy id); [|reflexivity].
    unfold try_except at 1. unfold mbind at 1, M_bind at 1.
    specialize (Hgen id).
    destruct (generate id w) as [[path|e] w1]; simpl in Hgen |- *.
    + destruct (opt_truthy path); [|reflexivity].
      unfold mbind at 1, M_bind at 1. cbn [print].
      set (w1' := {| stdout := _; files := files w1 |}).
      unfold mbind at 1, M_bind at 1.
      delivery_returns w1' Hget. reflexivity.
    + destruct e; try reflexivity. by destruct (Hgen code).
  - intros requests_post generate fetch env_token env_channel env_id
      argv w Hpost Hfetch Hgen.
    unfold Pdf.main, expected_status.
    destruct (match argv with _ :: arg :: _ => Some arg | _ => env_id end)
      as [id|]; [|reflexivity].
    destruct (str_truthy id); [|reflexivity].
    unfold try_except at 1. unfold mbind at 1, M_bind at 1.
    specialize (Hgen id).
    destruct (generate id w) as [[path|e] w1]; simpl in Hgen |- *.
    + destruct (opt_truthy path); [|reflexivity].
      unfold mbind at 1, M_bind at 1. cbn [print].
      set (w1' := {| stdout := _; files := files w1 |}).
      unfold mbind at 1, M_bind at 1.
      delivery_returns w1' Hfetch. reflexivity.
    + destruct e; try reflexivity. by destruct (Hgen code).
Qed.


(** A generator that finds no data, and one that writes the report. *)
Lemma main_exit_status_witness :
  let down : M (response upload_json) := raise RequestException in
  let none : string → M (option string) := λ _, mret None in
  let writes : string → M (option string) := λ _, mret (Some "reports/r.pdf") in
  exit_code (Pdf.main down none (λ _, mret None) None None (Some "run-1")
               ["pdf-report-generator.py"] {| stdout := []; files := ∅ |}).1 = 1
  ∧ exit_code (Pdf.main down writes (λ _, mret None) None None (Some "run-1")
                 ["pdf-report-generator.py"] {| stdout := []; files := ∅ |}).1 = 0
  ∧ exit_code (Pdf.main down writes (λ _, mret None) None None (Some "run-1")
                 ["pdf-report-generator.py"; EmptyString]
                 {| stdout := []; files := ∅ |}).1 = 1.
Proof.
  intros down none writes.
  destruct main_exit_status as [_ H].
  split; [|split].
  - rewrite H; [reflexivity|by apply wb_raise|intros; apply wb_ret|discriminate].
  - rewrite H; [reflexivity|by apply wb_raise|intros; apply wb_ret|discriminate].
  - rewrite H; [reflexivity|by apply wb_raise|intros; apply wb_ret|discriminate].
Defined.

Lemma bind_ext {A B} (m m' : M A) (f f' : A → M B) w :
  m w = m' w →
  (∀ a w', m w = (Ok a, w') → f a w' = f' a w') →
  (m ≫= f) w = (m' ≫= f') w.
Proof.
  intros Hm Hf. unfold mbind, M_bind. rewrite <-Hm.
  destruct (m w) as [[a|e] w']; [by apply Hf|done].
Qed.

Lemma try_except_ext {A} (body body' : M A) (handler : exn → M A) w :
  body w = body' w → try_except body handler w = try_except body' handler w.
Proof. intros H. unfold try_except. by rewrite H. Qed.

Lemma html_init_disabled env_token env_channel self w w' :
  opt_truthy env_token = false →
  Html.SlackNotifier_init env_token env_channel w = (Ok self, w') →
  Html.is_enabled self = false.
Proof.
  intros Ht. unfold Html.SlackNotifier_init. cbn [Html.is_enabled].
  rewrite Ht. by intros [= <- _].
Qed.

Lemma pdf_init_disabled env_token env_channel self w w' :
  opt_truthy env_token = false →
  Pdf.SlackNotifier_init env_token env_channel w = (Ok self, w') →
  Pdf.is_enabled self = false.
Proof.
  intros Ht. unfold Pdf.SlackNotifier_init. cbn [Pdf.is_enabled].
  rewrite Ht. by intros [= <- _].
Qed.

(** X18. Without a bot token (none, or an empty one) neither [main] sends
    anything: the run does not depend on the HTTP calls at all, and in
    particular is the same whatever they would do. *)
Theorem no_token_no_request :
  (∀ requests_post requests_post' requests_get requests_get' generate_html_report
     env_token env_channel env_cron_run_id argv w,
     opt_truthy env_token = false →
     Html.main requests_post requests_get generate_html_report
       env_token env_channel env_cron_run_id argv w
     = Html.main requests_post' requests_get' generate_html_report
         env_token env_channel env_cron_run_id argv w)
  ∧ (∀ requests_post requests_post' generate_pdf_report fetch_report_data
       env_token env_channel env_cron_run_id argv w,
       opt_truthy env_token = false →
       Pdf.main requests_post generate_pdf_report fetch_report_data
         env_token env_channel env_cron_run_id argv w
       = Pdf.main requests_post' generate_pdf_report fetch_report_data
           env_token env_channel env_cron_run_id argv w).
Proof.
  split.
  - intros post post' get get' generate env_token env_channel env_id argv w Htoken.
    unfold Html.main. apply try_except_ext.
    destruct (match argv with _ :: arg :: _ => Some arg | _ => env_id end)
      as [id|]; [|reflexivity].
    destruct (str_truthy id); [|reflexivity].
    apply bind_ext; [reflexivity|]. intros path w1 _.
    destruct (opt_truthy path); [|reflexivity].
    apply bind_ext; [reflexivity|]. intros _ w2 _.
    apply bind_ext; [|reflexivity]. apply try_except_ext.
    apply bind_ext; [reflexivity|]. intros self w3 Hself.
    apply html_init_disabled in Hself; [|done].
    unfold Html.find_pdf_message_ts, Html.upload_html_to_slack_thread.
    by rewrite Hself.
  - intros post post' generate fetch env_token env_channel env_id argv w Htoken.
    unfold Pdf.main. apply try_except_ext.
    destruct (match argv with _ :: arg :: _ => Some arg | _ => env_id end)
      as [id|]; [|reflexivity].
    destruct (str_truthy id); [|reflexivity].
    apply bind_ext; [reflexivity|]. intros path w1 _.
    destruct (opt_truthy path); [|reflexivity].
    apply bind_ext; [reflexivity|]. intros _ w2 _.
    apply bind_ext; [|reflexivity]. apply try_except_ext.
    apply bind_ext; [reflexivity|]. intros _ w3 _.
    apply bind_ext; [reflexivity|]. intros [[|record rest]|] w4 _; try reflexivity.
    apply bind_ext; [reflexivity|]. intros summary w5 _.
    apply bind_ext; [reflexivity|]. intros self w6 Hself.
    apply pdf_init_disabled in Hself; [|done].
    unfold Pdf.send_pdf_notification. by rewrite Hself.
Qed.

(** An empty token, a network that is down and one that answers. *)
Lemma no_token_no_request_witness :
  let down : M (response upload_json) := raise RequestException in
  let up : M (response upload_json) :=
    mret {| resp_ok := true; resp_status_code := 200; resp_text := "ok";
            resp_json := Some {| upload_ok := true; upload_error := EmptyString;
                                 upload_file := FileDict (Some "https://files/1") |} |} in
  let writes : string → M (option string) := λ _, mret (Some "reports/r.pdf") in
  let fetch : string → M (option (list dict)) :=
    λ _, mret (Some [{[ "test_cases_run" := PInt 1 ]}]) in
  Pdf.main down writes fetch (Some EmptyString) None None
    ["pdf-report-generator.py"; "run-1"] {| stdout := []; files := ∅ |}
  = Pdf.main up writes fetch (Some EmptyString) None None
      ["pdf-report-generator.py"; "run-1"] {| stdout := []; files := ∅ |}.
Proof.
  intros down up writes fetch.
  destruct no_token_no_request as [_ H]. by apply H.
Defined.


Lemma text_matches_passed_over cron_run_id msg :
  passed_over cron_run_id msg →
  Html.text_matches cron_run_id (Html.msg_text msg) = Ok false.
Proof. intros (text & -> & Htext). simpl. by rewrite Htext. Qed.

Lemma text_matches_sought cron_run_id msg :
  sought cron_run_id msg →
  Html.text_matches cron_run_id (Html.msg_text msg) = Ok true.
Proof. intros (text & -> & Htext). simpl. by rewrite Htext. Qed.

Lemma text_matches_without_text cron_run_id msg :
  without_text msg →
  Html.text_matches cron_run_id (Html.msg_text msg) = Raise TypeError.
Proof. intros H. destruct (Html.msg_text msg) eqn:E; try done. by destruct (H s). Qed.

Lemma find_message_first cron_run_id (before after : list Html.message) msg :
  Forall (passed_over cron_run_id) before →
  Html.find_message cron_run_id (before ++ msg :: after)
  = (found ← Html.text_matches cron_run_id (Html.msg_text msg);
     if (found : bool) then Ok (Some msg)
     else Html.find_message cron_run_id after).
Proof.
  intros Hbefore. induction Hbefore as [|m l Hm _ IH]; [done|].
  cbn [app Html.find_message]. by rewrite (text_matches_passed_over _ _ Hm).
Qed.

Lemma find_message_none cron_run_id (messages : list Html.message) :
  Forall (passed_over cron_run_id) messages →
  Html.find_message cron_run_id messages = Ok None.
Proof.
  induction 1 as [|m l Hm _ IH]; [done|].
  cbn [Html.find_message]. by rewrite (text_matches_passed_over _ _ Hm).
Qed.

(** The search once the history has been delivered. *)
Lemma find_pdf_message_ts_delivered requests_get (self : Html.SlackNotifier)
    (cron_run_id : string) (reply : response Html.history_json)
    (history : Html.history_json) (w : world) :
  Html.is_enabled self = true →
  (∀ w', requests_get w' = (Ok reply, w')) →
  resp_ok reply = true → resp_json reply = Some history →
  Html.history_ok history = true →
  let searching :=
    {| stdout := stdout w ++ ["🔍 Searching for PDF message with CRON_RUN_ID: "
                              +:+ cron_run_id];
       files := files w |} in
  Html.find_pdf_message_ts requests_get self cron_run_id w
  = match Html.find_message cron_run_id (Html.history_messages history) with
    | Ok (Some msg) =>
        (Ok (Html.msg_ts msg),
         {| stdout := stdout searching
                      ++ ["✅ Found PDF message at timestamp: "
                          +:+ default "None" (Html.msg_ts msg)];
            files := files w |})
    | Ok None =>
        (Ok None,
         {| stdout := stdout searching
                      ++ ["⚠️ PDF message not found in recent messages"];
            files := files w |})
    | Raise e =>
        if is_Exception e
        then (Ok None,
              {| stdout := stdout searching
                           ++ ["❌ Exception finding PDF message: " +:+ exn_str e];
                 files := files w |})
        else (Raise e, searching)
    end.
Proof.
  intros Hself Hget Hok Hjson Hhist searching.
  unfold Html.find_pdf_message_ts. rewrite Hself. cbn [negb].
  unfold try_except, mbind at 1, M_bind at 1. cbn [print]. fold searching.
  unfold mbind at 1, M_bind at 1. rewrite Hget, Hok.
  unfold mbind at 1, M_bind at 1, response_json. rewrite Hjson.
  cbn [mret M_ret]. rewrite Hhist.
  unfold mbind at 1, M_bind at 1, lift.
  destruct (Html.find_message cron_run_id (Html.history_messages history))
    as [[msg|]|e]; reflexivity.
Qed.

(** X19. When the channel history is delivered and the texts of its
    messages are strings, the report is threaded under the first message,
    in the order of the reply, whose text contains both the run id and the
    word PDF, whatever follows it; when no message of the reply does, it
    goes to the channel.  A message whose text is null or a number ends the
    search where it stands: the exception is reported and the report goes
    to the channel, even when a later message is the one looked for. *)
Theorem thread_is_first_matching_message requests_get (self : Html.SlackNotifier)
    (cron_run_id : string) (reply : response Html.history_json)
    (history : Html.history_json) (w : world) :
  Html.is_enabled self = true →
  (∀ w', requests_get w' = (Ok reply, w')) →
  resp_ok reply = true → resp_json reply = Some history →
  Html.history_ok history = true →
  (∀ before msg after,
     Html.history_messages history = before ++ msg :: after →
     Forall (passed_over cron_run_id) before →
     (sought cron_run_id msg →
      (Html.find_pdf_message_ts requests_get self cron_run_id w).1
      = Ok (Html.msg_ts msg))
     ∧ (without_text msg →
        Html.find_pdf_message_ts requests_get self cron_run_id w
        = (Ok None,
           {| stdout := stdout w
                        ++ [ "🔍 Searching for PDF message with CRON_RUN_ID: "
                             +:+ cron_run_id;
                             "❌ Exception finding PDF message: TypeError" ];
              files := files w |})))
  ∧ (Forall (passed_over cron_run_id) (Html.history_messages history) →
     (Html.find_pdf_message_ts requests_get self cron_run_id w).1 = Ok None).
Proof.
  intros Hself Hget Hok Hjson Hhist.
  rewrite (find_pdf_message_ts_delivered _ _ _ _ _ _ Hself Hget Hok Hjson Hhist).
  split.
  - intros before msg after Hmsgs Hbefore.
    rewrite Hmsgs, (find_message_first _ _ _ _ Hbefore). split.
    + intros Hmsg. by rewrite (text_matches_sought _ _ Hmsg).
    + intros Hmsg. rewrite (text_matches_without_text _ _ Hmsg).
      cbn [mbind result_bind is_Exception exn_str stdout].
      by rewrite <-app_assoc.
  - intros Hnone. by rewrite (find_message_none _ _ Hnone).
Qed.

(** A history in which the second message is the one looked for, and the
    same history after a message whose text is null. *)
Lemma thread_is_first_matching_message_witness :
  let started := {| Html.msg_text := PStr "nightly run-7 started";
                    Html.msg_ts := Some "3.0" |} in
  let report := {| Html.msg_text := PStr "PDF Test Execution Report for run-7";
                   Html.msg_ts := Some "2.0" |} in
  let again := {| Html.msg_text := PStr "PDF again for run-7";
                  Html.msg_ts := Some "1.0" |} in
  let joined := {| Html.msg_text := PNone; Html.msg_ts := Some "4.0" |} in
  let reply messages :=
    {| resp_ok := true; resp_status_code := 200; resp_text := EmptyString;
       resp_json := Some {| Html.history_ok := true;
                            Html.history_error := EmptyString;
                            Html.history_messages := messages |} |} in
  let requests_get messages : M (response Html.history_json) :=
    mret (reply messages) in
  let self := {| Html.bot_token := Some "xoxb"; Html.channel_id := "C1";
                 Html.is_enabled := true |} in
  (Html.find_pdf_message_ts (requests_get [started; report; again]) self "run-7"
     {| stdout := []; files := ∅ |}).1 = Ok (Some "2.0")
  ∧ (Html.find_pdf_message_ts (requests_get [joined; started; report]) self "run-7"
       {| stdout := []; files := ∅ |}).1 = Ok None.
Proof.
  intros started report again joined reply requests_get self. split.
  - destruct (thread_is_first_matching_message (requests_get [started; report; again])
                self "run-7" (reply [started; report; again])
                {| Html.history_ok := true; Html.history_error := EmptyString;
                   Html.history_messages := [started; report; again] |}
                {| stdout := []; files := ∅ |}) as [H _];
      [reflexivity|reflexivity|reflexivity|reflexivity|reflexivity|].
    apply (H [started] report [again]).
    + reflexivity.
    + repeat constructor. by eexists.
    + by eexists.
  - destruct (thread_is_first_matching_message (requests_get [joined; started; report])
                self "run-7" (reply [joined; started; report])
                {| Html.history_ok := true; Html.history_error := EmptyString;
                   Html.history_messages := [joined; started; report] |}
                {| stdout := []; files := ∅ |}) as [H _];
      [reflexivity|reflexivity|reflexivity|reflexivity|reflexivity|].
    destruct (H [] joined [started; report]) as [_ H'];
      [reflexivity|constructor|].
    by rewrite H'.
Defined.

Lemma find_pdf_message_ts_returns requests_get self cron_run_id :
  well_behaved requests_get →
  returns (Html.find_pdf_message_ts requests_get self cron_run_id).
Proof.
  intros Hget. unfold Html.find_pdf_message_ts.
  destruct (negb (Html.is_enabled self)); [intros w; by eexists _, _|].
  apply returns_try_except; [wb|].
  intros e. apply returns_bind; [apply returns_print|]. intros _ w. by eexists _, _.
Qed.

Lemma bind_eval {A B} (m : M A) (f : A → M B) w a w' :
  m w = (Ok a, w') → (m ≫= f) w = f a w'.
Proof. intros H. unfold mbind, M_bind. by rewrite H. Qed.

Lemma bind_raise {A B} (m : M A) (f : A → M B) w e w' :
  m w = (Raise e, w') → (m ≫= f) w = (Raise e, w').
Proof. intros H. unfold mbind, M_bind. by rewrite H. Qed.

Lemma try_except_ok {A} (body : M A) (handler : exn → M A) w a w' :
  body w = (Ok a, w') → try_except body handler w = (Ok a, w').
Proof. intros H. unfold try_except. by rewrite H. Qed.

Lemma try_except_caught {A} (body : M A) (handler : exn → M A) w e w' :
  body w = (Raise e, w') → is_Exception e = true →
  try_except body handler w = handler e w'.
Proof. intros H He. unfold try_except. by rewrite H, He. Qed.

Lemma try_except_exit {A} (body : M A) (handler : exn → M A) w code w' :
  body w = (Raise (SystemExit code), w') →
  try_except body handler w = (Raise (SystemExit code), w').
Proof. intros H. unfold try_except. by rewrite H. Qed.

Lemma html_init_enabled env_token env_channel w :
  opt_truthy env_token = true →
  Html.SlackNotifier_init env_token env_channel w
  = (Ok {| Html.bot_token := env_token;
           Html.channel_id := default "xyne-automation" env_channel;
           Html.is_enabled := true |}, w).
Proof.
  intros Ht. unfold Html.SlackNotifier_init. cbn [Html.is_enabled].
  by rewrite Ht.
Qed.

(** The upload when Slack accepts the file: what it returns and prints,
    by the ['file'] entry of the reply. *)
Lemma upload_accepted requests_post (self : Html.SlackNotifier)
    (html_path cron_run_id : string) (thread_ts : option string)
    (reply : response upload_json) (result : upload_json) (w : world) :
  Html.is_enabled self = true → html_path ∈ files w →
  (∀ w', requests_post w' = (Ok reply, w')) →
  resp_ok reply = true → resp_json reply = Some result →
  upload_ok result = true →
  ∃ line,
    (∀ permalink,
       upload_permalink result = Ok permalink → opt_truthy permalink = false →
       Html.upload_html_to_slack_thread requests_post self html_path cron_run_id
         thread_ts w
       = (Ok (Html.Permalink permalink),
          {| stdout := stdout w
                       ++ [line; "✅ HTML report uploaded to Slack successfully"];
             files := files w |}))
    ∧ (upload_file result = FileOther →
       Html.upload_html_to_slack_thread requests_post self html_path cron_run_id
         thread_ts w
       = (Ok Html.UploadFalse,
          {| stdout := stdout w
                       ++ [line; "✅ HTML report uploaded to Slack successfully";
                           "❌ Exception uploading to Slack: AttributeError"];
             files := files w |})).
Proof.
  intros Hself Hfile Hpost Hok Hjson Hupload.
  unfold Html.upload_html_to_slack_thread. rewrite Hself. cbn [negb].
  set (line := if opt_truthy thread_ts then _ else _ : M ()).
  assert (Hline : ∃ l, ∀ w', line w' = (Ok (), {| stdout := stdout w' ++ [l];
                                                  files := files w' |})).
  { unfold line. destruct (opt_truthy thread_ts); by eexists. }
  destruct Hline as [l Hline]. exists l. split.
  - intros permalink Hlink Htruthy.
    apply try_except_ok.
    erewrite bind_eval
      by (unfold open_rb; by rewrite bool_decide_eq_true_2).
    erewrite bind_eval by apply Hline.
    erewrite bind_eval by apply Hpost.
    rewrite Hok.
    erewrite bind_eval by (unfold response_json; rewrite Hjson; reflexivity).
    rewrite Hupload.
    erewrite bind_eval by reflexivity.
    erewrite bind_eval by (unfold lift; rewrite Hlink; reflexivity).
    rewrite Htruthy.
    erewrite bind_eval by reflexivity.
    erewrite bind_eval by (unfold lift; rewrite Hlink; reflexivity).
    cbn [stdout files mret M_ret]. rewrite <-app_assoc. reflexivity.
  - intros Hother.
    erewrite try_except_caught; cycle 1.
    { erewrite bind_eval
          by (unfold open_rb; by rewrite bool_decide_eq_true_2).
        erewrite bind_eval by apply Hline.
        erewrite bind_eval by apply Hpost.
        rewrite Hok.
        erewrite bind_eval by (unfold response_json; rewrite Hjson; reflexivity).
        rewrite Hupload.
        erewrite bind_eval by reflexivity.
        apply bind_raise. unfold lift, upload_permalink. rewrite Hother. reflexivity. }
    { reflexivity. }
    cbn [exn_str]. erewrite bind_eval by reflexivity.
    cbn [stdout files mret M_ret]. rewrite <-!app_assoc. reflexivity.
Qed.

(** X20. [Html.main] takes the upload for successful only when the reply
    carries a non-empty permalink.  When Slack accepts the file but the
    reply has none (no ['file'] entry, or one without a permalink), the run
    prints the success line of the upload and then the failure line of
    [main]; when the ['file'] entry is no dictionary, the exception of
    reading it is printed between the two.  In both cases the run ends
    with the path line and exit status 0. *)
Theorem upload_without_permalink_is_reported_failed
    requests_post requests_get generate_html_report
    (env_token env_channel env_cron_run_id : option string) (argv : list string)
    (cron_run_id output_path : string) (reply : response upload_json)
    (result : upload_json) (w0 w1 : world) :
  well_behaved requests_get →
  opt_truthy env_token = true →
  match argv with _ :: arg :: _ => Some arg | _ => env_cron_run_id end
    = Some cron_run_id →
  cron_run_id ≠ EmptyString →
  generate_html_report cron_run_id w0 = (Ok (Some output_path), w1) →
  output_path ≠ EmptyString → output_path ∈ files w1 →
  (∀ w, requests_post w = (Ok reply, w)) →
  resp_ok reply = true → resp_json reply = Some result →
  upload_ok result = true →
  (∀ permalink,
     upload_permalink result = Ok permalink → opt_truthy permalink = false →
     ∃ w2 lines,
       Html.main requests_post requests_get generate_html_report
         env_token env_channel env_cron_run_id argv w0 = (Raise (SystemExit 0), w2)
       ∧ stdout w2
         = lines ++ [ "✅ HTML report uploaded to Slack successfully";
                      "⚠️ Failed to upload HTML report to Slack, but generation was successful";
                      "HTML_OUTPUT_PATH:" +:+ output_path ])
  ∧ (upload_file result = FileOther →
     ∃ w2 lines,
       Html.main requests_post requests_get generate_html_report
         env_token env_channel env_cron_run_id argv w0 = (Raise (SystemExit 0), w2)
       ∧ stdout w2
         = lines ++ [ "✅ HTML report uploaded to Slack successfully";
                      "❌ Exception uploading to Slack: AttributeError";
                      "⚠️ Failed to upload HTML report to Slack, but generation was successful";
                      "HTML_OUTPUT_PATH:" +:+ output_path ]).
Proof.
  intros Hget Htoken Hargv Hid Hgen Hpath Hfile Hpost Hok Hjson Hupload.
  set (w1' := {| stdout := stdout w1 ++
                   ["✅ HTML report generated successfully: " +:+ output_path];
                 files := files w1 |}).
  set (self := {| Html.bot_token := env_token;
                  Html.channel_id := default "xyne-automation" env_channel;
                  Html.is_enabled := true |}).
  destruct (find_pdf_message_ts_returns requests_get self cron_run_id Hget w1')
    as (ts & w' & Hfind & Hfiles).
  destruct (upload_accepted requests_post self output_path cron_run_id ts
              reply result w') as (line & Hnone & Hother); try done.
  { by rewrite Hfiles. }
  assert (Hrun : ∀ (slack_url : Html.upload_result) (w'' : world),
            Html.upload_html_to_slack_thread requests_post self output_path
              cron_run_id ts w' = (Ok slack_url, w'') →
            Html.upload_truthy slack_url = false →
            Html.main requests_post requests_get generate_html_report
              env_token env_channel env_cron_run_id argv w0
            = (Raise (SystemExit 0),
               {| stdout := (stdout w''
                             ++ ["⚠️ Failed to upload HTML report to Slack, but generation was successful"])
                            ++ ["HTML_OUTPUT_PATH:" +:+ output_path];
                  files := files w'' |})).
  { intros slack_url w'' Hup Hfalse.
    unfold Html.main. rewrite Hargv, (str_truthy_true _ Hid).
    apply try_except_exit.
    erewrite bind_eval by apply Hgen.
    cbn [opt_truthy]. rewrite (str_truthy_true _ Hpath).
    cbn [default from_option]. unfold id.
    erewrite bind_eval by reflexivity. fold w1'.
    erewrite bind_eval.
    2:{ apply try_except_ok.
        erewrite bind_eval by (by apply html_init_enabled).
        fold self. erewrite bind_eval by apply Hfind.
        erewrite bind_eval by apply Hup.
        rewrite Hfalse. reflexivity. }
    erewrite bind_eval by reflexivity. reflexivity. }
  split.
  - intros permalink Hlink Htruthy.
    eexists _, (stdout w' ++ [line]). split.
    + apply (Hrun _ _ (Hnone permalink Hlink Htruthy)). exact Htruthy.
    + cbn [stdout]. by rewrite <-!app_assoc.
  - intros Hfile_other.
    eexists _, (stdout w' ++ [line]). split.
    + by apply (Hrun _ _ (Hother Hfile_other)).
    + cbn [stdout]. by rewrite <-!app_assoc.
Qed.

(** The reply of a Slack that stores the file and names no link, and one
    whose ['file'] entry is null. *)
Lemma upload_without_permalink_is_reported_failed_witness :
  let reply file :=
    {| resp_ok := true; resp_status_code := 200; resp_text := EmptyString;
       resp_json := Some {| upload_ok := true; upload_error := EmptyString;
                            upload_file := file |} |} in
  let requests_post file : M (response upload_json) := mret (reply file) in
  let requests_get : M (response Html.history_json) := raise RequestException in
  let generate : string → M (option string) := λ cron_run_id w,
    (Ok (Some "reports/r.html"),
     {| stdout := stdout w; files := {[ "reports/r.html" ]} ∪ files w |}) in
  (∃ w2 lines,
     Html.main (requests_post (FileDict None)) requests_get generate
       (Some "xoxb-token") None None
       ["html-report-generator.py"; "run-1"] {| stdout := []; files := ∅ |}
     = (Raise (SystemExit 0), w2)
     ∧ stdout w2
       = lines ++ [ "✅ HTML report uploaded to Slack successfully";
                    "⚠️ Failed to upload HTML report to Slack, but generation was successful";
                    "HTML_OUTPUT_PATH:reports/r.html" ])
  ∧ (∃ w2 lines,
       Html.main (requests_post FileOther) requests_get generate
         (Some "xoxb-token") None None
         ["html-report-generator.py"; "run-1"] {| stdout := []; files := ∅ |}
       = (Raise (SystemExit 0), w2)
       ∧ stdout w2
         = lines ++ [ "✅ HTML report uploaded to Slack successfully";
                      "❌ Exception uploading to Slack: AttributeError";
                      "⚠️ Failed to upload HTML report to Slack, but generation was successful";
                      "HTML_OUTPUT_PATH:reports/r.html" ]).
Proof.
  intros reply requests_post requests_get generate. split.
  - destruct (upload_without_permalink_is_reported_failed
                (requests_post (FileDict None)) requests_get
                generate (Some "xoxb-token") None None
                ["html-report-generator.py"; "run-1"] "run-1" "reports/r.html"
                (reply (FileDict None))
                {| upload_ok := true; upload_error := EmptyString;
                   upload_file := FileDict None |}
                {| stdout := []; files := ∅ |}
                {| stdout := []; files := {[ "reports/r.html" ]} ∪ ∅ |})
      as [H _].
    + by apply wb_raise.
    + reflexivity.
    + reflexivity.
    + discriminate.
    + reflexivity.
    + discriminate.
    + simpl. set_solver.
    + reflexivity.
    + reflexivity.
    + reflexivity.
    + reflexivity.
    + by apply (H None).
  - destruct (upload_without_permalink_is_reported_failed
                (requests_post FileOther) requests_get
                generate (Some "xoxb-token") None None
                ["html-report-generator.py"; "run-1"] "run-1" "reports/r.html"
                (reply FileOther)
                {| upload_ok := true; upload_error := EmptyString;
                   upload_file := FileOther |}
                {| stdout := []; files := ∅ |}
                {| stdout := []; files := {[ "reports/r.html" ]} ∪ ∅ |})
      as [_ H].
    + by apply wb_raise.
    + reflexivity.
    + reflexivity.
    + discriminate.
    + reflexivity.
    + discriminate.
    + simpl. set_solver.
    + reflexivity.
    + reflexivity.
    + reflexivity.
    + reflexivity.
    + by apply H.
Defined.

End EntryProps.

(** ** The module table of the printable report *)

Module PdfTableProps.
Import PdfTable ReportSpec ReportProps.

Section Table.
Variable title_case : string → string.
Variable int_of_str : string → result Z.

Lemma data_row_length record row :
  data_row title_case record = Ok row → length row = 9%nat.
Proof.
  unfold data_row.
  destruct (get_or record "module_name" (PStr EmptyString)); try done.
  by intros [= <-].
Qed.

(** X21. Whenever the module table is built, it has the two header rows
    and one row per record, and every row, the headers included, has the
    nine cells for which column widths are given. *)
Theorem table_data_shape (records : list dict) (table : list (list cell)) :
  table_data title_case records = Ok table →
  length table = (2 + length records)%nat
  ∧ Forall (λ row, length row = length col_widths) table.
Proof.
  unfold table_data. destruct (mapM _ records) as [rows|] eqn:E; [|done].
  intros [= <-]. apply mapM_Ok in E. split.
  - simpl. by rewrite (Forall2_length _ _ _ E).
  - constructor; [done|]. constructor; [done|].
    clear -E. induction E as [|record row ? ? Hrow _ IH]; constructor; [|done].
    by apply data_row_length in Hrow.
Qed.

Lemma painted_row (i col row : Z) (name : colour) :
  0 ≤ col < 9 →
  painted col row
    [ {| bg_col := 0; bg_row := i; bg_colour := name |};
      {| bg_col := 2; bg_row := i; bg_colour := lightgreen |};
      {| bg_col := 3; bg_row := i; bg_colour := light_red |};
      {| bg_col := 4; bg_row := i; bg_colour := lightred |};
      {| bg_col := 5; bg_row := i; bg_colour := muted_orange |};
      {| bg_col := 6; bg_row := i; bg_colour := lightorange |};
      {| bg_col := 7; bg_row := i; bg_colour := muted_yellow |};
      {| bg_col := 1; bg_row := i; bg_colour := very_light_blue |};
      {| bg_col := 8; bg_row := i; bg_colour := very_light_blue |} ]
  = if i =? row then 1 else 0.
Proof.
  intros Hcol. unfold painted. cbn [count_if bg_col bg_row].
  assert (col = 0 ∨ col = 1 ∨ col = 2 ∨ col = 3 ∨ col = 4 ∨ col = 5
          ∨ col = 6 ∨ col = 7 ∨ col = 8) as Hc by lia.
  destruct (i =? row);
    repeat (destruct Hc as [->|Hc]; [reflexivity|]); by subst.
Qed.

Lemma backgrounds_from_spec (i : Z) (records : list dict) commands :
  backgrounds_from int_of_str i records = Ok commands →
  (∀ col row, 0 ≤ col < 9 →
     painted col row commands
     = if (i <=? row) && (row <? i + len records) then 1 else 0)
  ∧ Forall (λ b, 0 ≤ bg_col b < 9 ∧ i ≤ bg_row b < i + len records) commands.
Proof.
  revert i commands. induction records as [|record records IH]; intros i commands.
  { intros [= <-]. split; [|constructor]. intros col row _.
    change (len ([] : list dict)) with 0. change (painted col row []) with 0.
    destruct (Z.leb_spec i row), (Z.ltb_spec row (i + 0)); simpl; lia. }
  cbn [backgrounds_from]. unfold row_backgrounds.
  destruct (name_colour int_of_str record) as [name|]; [|done].
  cbn [mbind result_bind].
  destruct (backgrounds_from int_of_str (i + 1) records) as [rest|] eqn:E; [|done].
  cbn [mbind result_bind]. intros [= <-].
  destruct (IH _ _ E) as [Hpaint Hrange]. split.
  - intros col row Hcol.
    change (painted col row
              ([ {| bg_col := 0; bg_row := i; bg_colour := name |};
                 {| bg_col := 2; bg_row := i; bg_colour := lightgreen |};
                 {| bg_col := 3; bg_row := i; bg_colour := light_red |};
                 {| bg_col := 4; bg_row := i; bg_colour := lightred |};
                 {| bg_col := 5; bg_row := i; bg_colour := muted_orange |};
                 {| bg_col := 6; bg_row := i; bg_colour := lightorange |};
                 {| bg_col := 7; bg_row := i; bg_colour := muted_yellow |};
                 {| bg_col := 1; bg_row := i; bg_colour := very_light_blue |};
                 {| bg_col := 8; bg_row := i; bg_colour := very_light_blue |} ]
               ++ rest)
            = if (i <=? row) && (row <? i + len (record :: records)) then 1 else 0).
    unfold painted at 1. rewrite count_if_app.
    fold (painted col row rest). rewrite (Hpaint col row Hcol).
    pose proof (painted_row i col row name Hcol) as Hrow. unfold painted in Hrow.
    rewrite Hrow. unfold len. simpl length.
    destruct (Z.eqb_spec i row), (Z.leb_spec i row), (Z.leb_spec (i + 1) row),
      (Z.ltb_spec row (i + 1 + Z.of_nat (length records))),
      (Z.ltb_spec row (i + Z.of_nat (S (length records)))); simpl; lia.
  - unfold len in *. simpl length.
    do 9 (apply Forall_cons; split; [simpl; lia|]).
    eapply Forall_impl; [exact Hrange|]. simpl. intros b. lia.
Qed.

(** X22. Whenever the colours of the module table are computed, every
    cell of every data row is painted by exactly one [BACKGROUND] command
    of the loop, and the loop paints no cell of the two header rows and no
    cell outside the table. *)
Theorem backgrounds_cover_data_cells (records : list dict) (commands : list background) :
  backgrounds int_of_str records = Ok commands →
  (∀ col row, 0 ≤ col < 9 → 2 ≤ row < 2 + len records →
     painted col row commands = 1)
  ∧ Forall (λ b, 0 ≤ bg_col b < 9 ∧ 2 ≤ bg_row b < 2 + len records) commands.
Proof.
  intros H. apply backgrounds_from_spec in H as [Hpaint Hrange].
  split; [|done]. intros col row Hcol Hrow. rewrite (Hpaint col row Hcol).
  destruct (Z.leb_spec 2 row), (Z.ltb_spec row (2 + len records)); simpl; lia.
Qed.

(** X23. The module table does not show the number of failed tests: the
    row of a record and its colours are the same whatever the record has
    under ['test_cases_failed'], so that a record whose four priority
    counts are integers none of which is positive is painted like a clean
    one even when it counts failures. *)
Theorem failed_count_is_not_shown (record : dict) (failed : pyval) (i : Z) :
  data_row title_case (<["test_cases_failed" := failed]> record)
  = data_row title_case record
  ∧ row_backgrounds int_of_str i (<["test_cases_failed" := failed]> record)
    = row_backgrounds int_of_str i record
  ∧ ∀ highest high medium low : Z,
      get_or record "highest_priority_failed" (PInt 0) = PInt highest →
      get_or record "high_priority_failed" (PInt 0) = PInt high →
      get_or record "medium_priority_failed" (PInt 0) = PInt medium →
      get_or record "low_priority_failed" (PInt 0) = PInt low →
      highest ≤ 0 → high ≤ 0 → medium ≤ 0 → low ≤ 0 →
      name_colour int_of_str (<["test_cases_failed" := failed]> record)
      = Ok very_light_blue.
Proof.
  assert (∀ key dflt, key ≠ "test_cases_failed" →
            get_or (<["test_cases_failed" := failed]> record) key dflt
            = get_or record key dflt) as Hget.
  { intros key dflt Hkey. unfold get_or. by rewrite lookup_insert_ne. }
  assert (name_colour int_of_str (<["test_cases_failed" := failed]> record)
          = name_colour int_of_str record) as Hname.
  { unfold name_colour. by rewrite !Hget. }
  split; [|split].
  - unfold data_row, get. rewrite !Hget by done.
    by rewrite lookup_insert_ne.
  - unfold row_backgrounds. by rewrite Hname.
  - intros highest high medium low Hhh Hh Hm Hl ? ? ? ?.
    rewrite Hname. unfold name_colour. rewrite Hhh, Hh, Hm, Hl.
    cbn [py_int mbind result_bind].
    destruct (Z.ltb_spec 0 highest); [lia|]. destruct (Z.ltb_spec 0 high); [lia|].
    destruct (Z.ltb_spec 0 medium); [lia|]. destruct (Z.ltb_spec 0 low); [lia|].
    done.
Qed.

End Table.

(** Two records. *)
Lemma table_data_shape_witness :
  ∃ table,
    table_data (λ s, s) [ {[ "module_name" := PStr "login"; "test_cases_run" := PInt 3 ]};
                          {[ "module_name" := PStr "search" ]} ] = Ok table
    ∧ length table = 4%nat
    ∧ Forall (λ row, length row = 9%nat) table.
Proof.
  set (records := [ {[ "module_name" := PStr "login"; "test_cases_run" := PInt 3 ]};
                    {[ "module_name" := PStr "search" ]} ] : list dict).
  destruct (table_data (λ s, s) records) as [table|] eqn:E;
    [|vm_compute in E; discriminate E].
  exists table. split; [reflexivity|].
  exact (table_data_shape (λ s, s) records table E).
Defined.

Lemma backgrounds_cover_data_cells_witness :
  ∃ commands,
    backgrounds (λ _, Raise ValueError)
      [ {[ "module_name" := PStr "login"; "high_priority_failed" := PInt 1 ]};
        {[ "module_name" := PStr "search" ]} ] = Ok commands
    ∧ painted 0 3 commands = 1.
Proof.
  set (records := [ {[ "module_name" := PStr "login"; "high_priority_failed" := PInt 1 ]};
                    {[ "module_name" := PStr "search" ]} ] : list dict).
  destruct (backgrounds (λ _, Raise ValueError) records) as [commands|] eqn:E;
    [|vm_compute in E; discriminate E].
  exists commands. split; [reflexivity|].
  destruct (backgrounds_cover_data_cells (λ _, Raise ValueError) records commands E)
    as [H _].
  apply H; [lia|]. unfold len. simpl. lia.
Defined.

(** A module with five failures, none of a recognised priority. *)
Lemma failed_count_is_not_shown_witness :
  name_colour (λ _, Raise ValueError)
    (<["test_cases_failed" := PInt 5]> {[ "module_name" := PStr "login" ]})
  = Ok very_light_blue.
Proof.
  destruct (failed_count_is_not_shown (λ s, s) (λ _, Raise ValueError)
              {[ "module_name" := PStr "login" ]} (PInt 5) 2) as (_ & _ & H).
  apply (H 0 0 0 0); (reflexivity || lia).
Defined.

End PdfTableProps.

(** ** Element ids of the module cards *)

Module MarkupProps.
Import Markup.

Lemma module_id_cons c s :
  module_id (String c s)
  = String (if is_separator c then underscore else c) (module_id s).
Proof.
  unfold module_id, is_separator. simpl. f_equal.
  destruct (Ascii.eqb_spec c hyphen) as [->|H1]; [done|].
  destruct (Ascii.eqb_spec c space) as [->|H2]; [done|].
  destruct (Ascii.eqb_spec c underscore) as [->|H3]; done.
Qed.

(** X24. Two module names get the same element ids exactly when they are
    the same up to their separators, a hyphen, a space and an underscore
    counting as the same character; and the id of an id is the id itself. *)
Theorem module_id_collisions (name1 name2 : string) :
  (module_id name1 = module_id name2 ↔ same_up_to_separators name1 name2 = true)
  ∧ module_id (module_id name1) = module_id name1.
Proof.
  split.
  - revert name2. induction name1 as [|c1 s1 IH]; intros [|c2 s2]; try done.
    rewrite !module_id_cons. cbn [same_up_to_separators].
    rewrite andb_true_iff, <-IH. split.
    + intros [= Hc Hs]. split; [|done].
      destruct (is_separator c1) eqn:E1, (is_separator c2) eqn:E2; simpl.
      * apply orb_true_r.
      * subst c2. done.
      * subst c1. done.
      * subst. by rewrite Ascii.eqb_refl.
    + intros [Hc ->]. f_equal.
      apply orb_true_iff in Hc as [Hc|Hc].
      * by apply Ascii.eqb_eq in Hc as ->.
      * apply andb_true_iff in Hc as [-> ->]. done.
  - induction name1 as [|c s IH]; [done|].
    rewrite !module_id_cons, IH. f_equal.
    destruct (is_separator c) eqn:E; [done|]. by rewrite E.
Qed.

End MarkupProps.

(** ** The reducer on database rows *)

Module ReducerProps.
Import ReportSpec.

Lemma py_sum_from_defined acc (l : list pyval) :
  (∃ z, py_sum_from acc l = Ok z) ↔ Forall (λ v, ∃ z : Z, v = PInt z) l.
Proof.
  revert acc. induction l as [|v l IH]; intros acc; simpl.
  - split; [constructor|by eexists].
  - rewrite Forall_cons. destruct v as [|x|s].
    + split; [by intros [? [=]]|by intros [[? [=]] _]].
    + rewrite IH. split; [intros ?; split; [by eexists|done]|by intros [_ ?]].
    + split; [by intros [? [=]]|by intros [[? [=]] _]].
Qed.

Lemma sum_field_defined key (records : list dict) :
  (∃ z, sum_field key records = Ok z)
  ↔ Forall (λ r, ∃ z : Z, get_or r key (PInt 0) = PInt z) records.
Proof.
  unfold sum_field, py_sum. rewrite py_sum_from_defined.
  change (map ?f records) with (f <$> records). by rewrite Forall_fmap.
Qed.

Lemma py_sum_from_total acc key (records : list dict) :
  Forall (λ r, ∃ z : Z, get_or r key (PInt 0) = PInt z) records →
  py_sum_from acc (map (λ record, get_or record key (PInt 0)) records)
  = Ok (acc + total key records).
Proof.
  intros H. revert acc. unfold total.
  induction H as [|r rs [z Hz] _ IH]; intros acc; cbn [map fmap list_fmap foldr py_sum_from].
  - f_equal. lia.
  - rewrite Hz. cbn [py_sum_from]. rewrite IH. f_equal. lia.
Qed.

Lemma sum_field_total key (records : list dict) :
  Forall (λ r, ∃ z : Z, get_or r key (PInt 0) = PInt z) records →
  sum_field key records = Ok (total key records).
Proof. intros H. unfold sum_field, py_sum. by rewrite py_sum_from_total. Qed.

Lemma sum_field_raises key (records : list dict) e :
  sum_field key records = Raise e → e = TypeError.
Proof. unfold sum_field, py_sum. apply DeliveryProps.py_sum_from_raises. Qed.

Lemma sum_field_bad_count key (records : list dict) record :
  record ∈ records →
  (∀ z : Z, get_or record key (PInt 0) ≠ PInt z) →
  sum_field key records = Raise TypeError.
Proof.
  intros Hin Hbad.
  destruct (sum_field key records) as [z|e] eqn:E.
  - assert (Hall : Forall (λ r, ∃ z : Z, get_or r key (PInt 0) = PInt z) records).
    { apply sum_field_defined. by exists z. }
    rewrite Forall_forall in Hall. destruct (Hall record Hin) as [z' Hz'].
    by destruct (Hbad z').
  - by apply sum_field_raises in E as ->.
Qed.

(** X25. On records whose counts are integers, [calculate_summary]
    returns the number of records and the four sums, a missing count being
    0, provided that the passed tests are fewer than [2^1000] (beyond the
    range of a float the division of the pass rate raises).  A count that
    is present and null, or a string, makes it raise [TypeError], whatever
    the other records hold. *)
Theorem calculate_summary_on_counts (records : list dict) :
  (Forall counts_are_integers records →
   Z.abs (total "test_cases_passed" records) < 2 ^ 1000 →
   ∃ s, Pdf.calculate_summary records = Ok s
        ∧ total_modules s = len records
        ∧ total_tests s = total "test_cases_run" records
        ∧ total_passed s = total "test_cases_passed" records
        ∧ total_failed s = total "test_cases_failed" records
        ∧ total_skipped s = total "test_cases_skipped" records)
  ∧ (∀ record key v,
       record ∈ records →
       key ∈ ["test_cases_run"; "test_cases_passed"; "test_cases_failed";
              "test_cases_skipped"] →
       record !! key = Some v →
       (v = PNone ∨ ∃ text, v = PStr text) →
       Pdf.calculate_summary records = Raise TypeError).
Proof.
  unfold Pdf.calculate_summary, summarize. split.
  - intros H _.
    assert (Hkey : ∀ key, key ∈ ["test_cases_run"; "test_cases_passed";
                                  "test_cases_failed"; "test_cases_skipped"] →
                     sum_field key records = Ok (total key records)).
    { intros key Hkey. apply sum_field_total.
      eapply Forall_impl; [exact H|]. intros r Hr. by apply Hr. }
    rewrite !Hkey by set_solver. cbn [mbind result_bind]. by eexists.
  - intros record key v Hin Hkey Hv Hbad.
    assert (Hsum : sum_field key records = Raise TypeError).
    { apply (sum_field_bad_count key records record Hin).
      intros z. unfold get_or. rewrite Hv. simpl.
      destruct Hbad as [->|[text ->]]; discriminate. }
    destruct (sum_field "test_cases_run" records) as [?|e] eqn:E1;
      [|by apply sum_field_raises in E1 as ->].
    destruct (sum_field "test_cases_passed" records) as [?|e] eqn:E2;
      [|by apply sum_field_raises in E2 as ->].
    destruct (sum_field "test_cases_failed" records) as [?|e] eqn:E3;
      [|by apply sum_field_raises in E3 as ->].
    destruct (sum_field "test_cases_skipped" records) as [?|e] eqn:E4;
      [|by apply sum_field_raises in E4 as ->].
    repeat (apply elem_of_cons in Hkey as [->|Hkey]; [congruence|]).
    by apply elem_of_nil in Hkey.
Qed.

(** A row whose skipped count is null, next to a row without counts. *)
Lemma calculate_summary_on_counts_witness :
  Pdf.calculate_summary
    [ {[ "module_name" := PStr "login" ]};
      {[ "module_name" := PStr "search"; "test_cases_run" := PInt 2;
         "test_cases_skipped" := PNone ]} ]
  = Raise TypeError
  ∧ ∃ s, Pdf.calculate_summary
           [ {[ "module_name" := PStr "login"; "test_cases_run" := PInt 3;
                "test_cases_passed" := PInt 2 ]};
             {[ "module_name" := PStr "search"; "test_cases_run" := PInt 2 ]} ] = Ok s
         ∧ total_tests s = 5 ∧ total_passed s = 2.
Proof.
  split.
  - apply (proj2 (calculate_summary_on_counts _)
             {[ "module_name" := PStr "search"; "test_cases_run" := PInt 2;
                "test_cases_skipped" := PNone ]} "test_cases_skipped" PNone).
    + set_solver.
    + set_solver.
    + reflexivity.
    + by left.
  - destruct (proj1 (calculate_summary_on_counts
             [ {[ "module_name" := PStr "login"; "test_cases_run" := PInt 3;
                  "test_cases_passed" := PInt 2 ]};
               {[ "module_name" := PStr "search"; "test_cases_run" := PInt 2 ]} ]))
      as (s & Hs & _ & Htests & Hpassed & _).
    + repeat constructor; intros key Hkey;
        repeat (apply elem_of_cons in Hkey as [->|Hkey]; [by eexists|]);
        by apply elem_of_nil in Hkey.
    + vm_compute. reflexivity.
    + exists s. split; [exact Hs|]. split; [by rewrite Htests|by rewrite Hpassed].
Defined.

End ReducerProps.

(** ** Decoding the reply of the module query *)

Module FetchProps.
Import Fetch ReportSpec ReportProps.

Lemma assoc_list_to_map key (l : list (string * pyval)) :
  assoc key ((λ e, (e.1, of_pyval e.2)) <$> l)
  = of_pyval <$> (list_to_map l : dict) !! key.
Proof.
  induction l as [|[k v] l IH]; [done|].
  cbn [fmap list_fmap assoc fst snd list_to_map foldr].
  change (foldr (λ p, <[p.1:=p.2]>) ∅ l) with (list_to_map l : dict).
  cbn [uncurry fst snd]. destruct (String.eqb_spec k key) as [->|Hne].
  - by rewrite lookup_insert_eq.
  - by rewrite lookup_insert_ne.
Qed.

Lemma assoc_of_dict key (d : dict) :
  assoc key ((λ e, (e.1, of_pyval e.2)) <$> map_to_list d) = of_pyval <$> d !! key.
Proof. by rewrite assoc_list_to_map, list_to_map_to_list. Qed.

Lemma jget_of_dict (d : dict) key :
  jget (of_dict d) key JNull = Ok (of_pyval (get d key)).
Proof.
  unfold jget, of_dict, get. rewrite assoc_of_dict. by destruct (d !! key).
Qed.

Lemma is_str_of_pyval s v : is_str s (of_pyval v) = py_eq v (PStr s).
Proof.
  unfold py_eq. destruct v as [|z|s']; cbn [is_str of_pyval].
  - by rewrite bool_decide_eq_false_2.
  - by rewrite bool_decide_eq_false_2.
  - destruct (String.eqb_spec s' s) as [->|Hne].
    + by rewrite bool_decide_eq_true_2.
    + rewrite bool_decide_eq_false_2; [done|]. by intros [= ?].
Qed.

Lemma jcount_of_dicts (cond : json → result bool) (f : dict → bool) (tests : list dict) :
  (∀ t, cond (of_dict t) = Ok (f t)) →
  jcount cond (of_dict <$> tests) = Ok (count_if f tests).
Proof.
  intros H. induction tests as [|t tests IH]; [done|].
  cbn [fmap list_fmap jcount count_if].
  change (list_fmap _ _ of_dict tests) with (of_dict <$> tests).
  by rewrite H, IH.
Qed.

Lemma has_status_of_dict s t :
  has_status s (of_dict t) = Ok (Html.status_is s t).
Proof.
  unfold has_status, Html.status_is. rewrite jget_of_dict. simpl.
  by rewrite is_str_of_pyval.
Qed.

Lemma failed_with_priority_of_dict p t :
  failed_with_priority p (of_dict t) = Ok (Html.failed_with_priority p t).
Proof.
  unfold failed_with_priority, Html.failed_with_priority, Html.status_is.
  rewrite (jget_of_dict t "status"). cbn [mbind result_bind].
  rewrite is_str_of_pyval.
  destruct (py_eq (get t "status") (PStr "failed")); [|done].
  rewrite (jget_of_dict t "priority"). simpl. by rewrite is_str_of_pyval.
Qed.

Section Decode.
Variable json_loads : string → result json.

Lemma jget_of_row row key :
  key ≠ "run_data" →
  jget (of_row row) key JNull = Ok (of_pyval (get (Html.row_fields row) key)).
Proof.
  intros Hkey. unfold jget, of_row, get. cbn [assoc].
  destruct (String.eqb_spec "run_data" key) as [<-|_]; [done|].
  rewrite assoc_of_dict. by destruct (Html.row_fields row !! key).
Qed.

Lemma parse_module_of_row (row : Html.module_row) :
  parse_module json_loads (of_row row) = Ok (of_module (Html.parsed_module row)).
Proof.
  unfold parse_module.
  change (jget (of_row row) "run_data" (JObj []))
    with (Ok (JObj [("tests", JList (of_dict <$> Html.row_tests row))]) : result json).
  cbn [mbind result_bind jget assoc String.eqb Ascii.eqb Bool.eqb default from_option
       jlen jiter].
  unfold id, jlen, jiter. cbn [mbind result_bind].
  rewrite !(jcount_of_dicts _ _ _ (has_status_of_dict _)).
  rewrite !(jcount_of_dicts _ _ _ (failed_with_priority_of_dict _)).
  cbn [mbind result_bind].
  rewrite !jget_of_row by done. cbn [mbind result_bind].
  unfold of_module. unfold len. rewrite length_fmap. reflexivity.
Qed.

Lemma mapM_fmap_Ok {A B C} (f : B → result C) (g : A → B) (h : A → C) (l : list A) :
  (∀ x, f (g x) = Ok (h x)) → mapM f (g <$> l) = Ok (h <$> l).
Proof.
  intros H. induction l as [|x l IH]; [done|].
  cbn [fmap list_fmap mapM].
  change (list_fmap _ _ g l) with (g <$> l). rewrite H, IH. done.
Qed.

(** X26. Decoding the reply of the module query gives what the aggregator
    gives on its rows: for a reply whose rows carry scalar columns and a
    decoded [run_data] with a list of tests, [fetch_current_run_data]
    returns, row by row, the dictionary of counts, columns and tests that
    the row-level aggregator builds. *)
Theorem fetch_agrees_with_rows (rows : list Html.module_row) :
  fetch_current_run_data json_loads (JObj [("response", JList (of_row <$> rows))])
  = Ok (of_module <$> Html.fetch_current_run_data rows).
Proof.
  unfold fetch_current_run_data, parsed_modules.
  cbn [jget assoc String.eqb Ascii.eqb Bool.eqb default from_option mbind result_bind].
  unfold id. destruct rows as [|row rows]; [done|].
  cbn [fmap list_fmap jtruthy jlen mbind result_bind].
  change (list_fmap _ _ of_row rows) with (of_row <$> rows).
  assert ((0 <? len (of_row row :: (of_row <$> rows))) = true) as ->.
  { unfold len. simpl length. apply Z.ltb_lt. lia. }
  change (of_row row :: (of_row <$> rows)) with (of_row <$> (row :: rows)).
  rewrite (mapM_fmap_Ok _ _ (λ r, of_module (Html.parsed_module r)));
    [|apply parse_module_of_row].
  unfold Html.fetch_current_run_data. f_equal.
  change (map Html.parsed_module (row :: rows))
    with (Html.parsed_module <$> (row :: rows)).
  by rewrite <-list_fmap_compose.
Qed.

Variable execute_prev_query : json → result json.

Lemma parse_prev_module_of_row (row : Html.module_row) :
  parse_prev_module json_loads (of_row row)
  = Ok (of_prev_module (Html.parsed_prev_module row)).
Proof.
  unfold parse_prev_module.
  change (jget (of_row row) "run_data" (JObj []))
    with (Ok (JObj [("tests", JList (of_dict <$> Html.row_tests row))]) : result json).
  cbn [mbind result_bind jget assoc String.eqb Ascii.eqb Bool.eqb default from_option].
  unfold id, jlen, jiter. cbn [mbind result_bind].
  rewrite !(jcount_of_dicts _ _ _ (has_status_of_dict _)).
  cbn [mbind result_bind].
  rewrite !jget_of_row by done. cbn [mbind result_bind].
  unfold of_prev_module. unfold len. rewrite length_fmap. reflexivity.
Qed.

(** X27. The previous run is fetched only when the run names one, and is
    then decoded like the current one: when the first item of the reply
    has no [previous_run_id], or a null, empty or zero one,
    [fetch_previous_run_data] returns [None] whatever the second query
    would give; when it has one and the second query delivers rows with
    scalar columns and a decoded [run_data], it returns, row by row, the
    dictionary that the row-level aggregator builds for a previous
    module, and [None] when the second query delivers no rows. *)
Theorem fetch_previous_agrees_with_rows (entries : list (string * json))
    (others : list json) :
  let reply := JObj [("response", JList (JObj entries :: others))] in
  (jtruthy (default JNull (assoc "previous_run_id" entries)) = false →
   fetch_previous_run_data json_loads execute_prev_query reply = Ok None)
  ∧ ∀ (prev_run_id : json) (rows : list Html.module_row),
      assoc "previous_run_id" entries = Some prev_run_id →
      jtruthy prev_run_id = true →
      execute_prev_query prev_run_id
      = Ok (JObj [("response", JList (of_row <$> rows))]) →
      fetch_previous_run_data json_loads execute_prev_query reply
      = Ok (match rows with
            | [] => None
            | _ :: _ => Some (of_prev_module <$> (Html.parsed_prev_module <$> rows))
            end).
Proof.
  intros reply. unfold fetch_previous_run_data, previous_modules, reply.
  change (jget (JObj [("response", JList (JObj entries :: others))]) "response" JNull)
    with (Ok (JList (JObj entries :: others)) : result json).
  cbn [mbind result_bind].
  change (if jtruthy (JList (JObj entries :: others))
          then n ← jlen (JList (JObj entries :: others)); Ok (0 <? n)
          else Ok false)
    with (Ok true : result bool).
  cbn [mbind result_bind].
  change (jget (JObj entries) "previous_run_id" JNull)
    with (Ok (default JNull (assoc "previous_run_id" entries)) : result json).
  cbn [mbind result_bind]. split.
  - by intros ->.
  - intros prev_run_id rows -> Hid Hquery. cbn [default from_option]. unfold id.
    rewrite Hid, Hquery. cbn [negb mbind result_bind].
    change (jget (JObj [("response", JList (of_row <$> rows))]) "response" JNull)
      with (Ok (JList (of_row <$> rows)) : result json).
    cbn [mbind result_bind].
    destruct rows as [|row rows]; [done|].
    change (of_row <$> row :: rows) with (of_row row :: (of_row <$> rows)).
    change (if jtruthy (JList (of_row row :: (of_row <$> rows)))
            then n ← jlen (JList (of_row row :: (of_row <$> rows))); Ok (0 <? n)
            else Ok false)
      with (Ok true : result bool).
    cbn [mbind result_bind].
    change (of_row row :: (of_row <$> rows)) with (of_row <$> (row :: rows)).
    rewrite (mapM_fmap_Ok _ _ (λ r, of_prev_module (Html.parsed_prev_module r)));
      [|apply parse_prev_module_of_row].
    cbn [mbind result_bind]. do 2 f_equal.
    by rewrite <-list_fmap_compose.
Qed.

Lemma bind_Raise {A B} (m : result A) (f : A → result B) e :
  m ≫= f = Raise e → m = Raise e ∨ ∃ a, m = Ok a ∧ f a = Raise e.
Proof. destruct m as [a|e']; simpl; [right; by exists a|left; congruence]. Qed.

Lemma jget_raises x key dflt e : jget x key dflt = Raise e → is_Exception e = true.
Proof. destruct x; simpl; by intros [= <-]. Qed.

Lemma jlen_raises x e : jlen x = Raise e → is_Exception e = true.
Proof. destruct x; simpl; by intros [= <-]. Qed.

Lemma jiter_raises x e : jiter x = Raise e → is_Exception e = true.
Proof. destruct x; simpl; by intros [= <-]. Qed.

Lemma jcount_raises cond items e :
  (∀ t e', cond t = Raise e' → is_Exception e' = true) →
  jcount cond items = Raise e → is_Exception e = true.
Proof.
  intros Hcond. induction items as [|t items IH]; simpl; [done|].
  intros [H|(b & _ & [H|(n & _ & H)]%bind_Raise)]%bind_Raise;
    [by apply (Hcond t)|by apply IH|done].
Qed.

Lemma has_status_raises s t e : has_status s t = Raise e → is_Exception e = true.
Proof.
  unfold has_status. intros [H|(v & _ & H)]%bind_Raise; [|done].
  by apply jget_raises in H.
Qed.

Lemma failed_with_priority_raises p t e :
  failed_with_priority p t = Raise e → is_Exception e = true.
Proof.
  unfold failed_with_priority. intros [H|(v & _ & H)]%bind_Raise.
  - by apply jget_raises in H.
  - destruct (is_str "failed" v); [|done].
    apply bind_Raise in H as [H|(? & _ & H)]; [|done]. by apply jget_raises in H.
Qed.

Hypothesis json_loads_raises :
  ∀ s e, json_loads s = Raise e → is_Exception e = true.

Lemma parse_module_raises module e :
  parse_module json_loads module = Raise e → is_Exception e = true.
Proof.
  unfold parse_module.
  repeat (intros [H|(? & _ & H)]%bind_Raise; revert H;
          [ first [ apply jget_raises | apply jlen_raises | apply jiter_raises
                  | apply jcount_raises; first [apply has_status_raises
                                               | apply failed_with_priority_raises]
                  | idtac ]
          | ]); [|done].
  match goal with |- context [match ?x with _ => _ end] => destruct x end;
    first [done | apply json_loads_raises].
Qed.

Lemma mapM_Raise {A B} (f : A → result B) (l : list A) e :
  mapM f l = Raise e → ∃ x, x ∈ l ∧ f x = Raise e.
Proof.
  induction l as [|x l IH]; simpl; [done|].
  intros [H|(b & _ & [H|(n & _ & H)]%bind_Raise)]%bind_Raise.
  - exists x. split; [by left|done].
  - destruct (IH H) as (y & Hy & Hfy). exists y. split; [by right|done].
  - done.
Qed.

(** X28. One row that cannot be parsed empties the run: if, for a single
    row of the reply, the loop body raises (its [run_data] is null, for
    instance, because the column was), [fetch_current_run_data] returns the
    empty list, whatever the other rows are. *)
Theorem one_bad_row_empties_the_run (rows : list json) (row : json) :
  row ∈ rows → raises (parse_module json_loads row) →
  fetch_current_run_data json_loads (JObj [("response", JList rows)]) = Ok []
  ∧ ∀ entries, assoc "run_data" entries = Some JNull →
               parse_module json_loads (JObj entries) = Raise AttributeError.
Proof.
  intros Hin Hbad. split.
  - unfold fetch_current_run_data, parsed_modules.
    cbn [jget assoc String.eqb Ascii.eqb Bool.eqb default from_option mbind result_bind].
    unfold id. destruct rows as [|r rows]; [done|].
    cbn [jtruthy jlen mbind result_bind].
    assert ((0 <? len (r :: rows)) = true) as ->.
    { unfold len. simpl length. apply Z.ltb_lt. lia. }
    destruct (mapM_raises (parse_module json_loads) (r :: rows) row Hin Hbad)
      as [e He]. rewrite He.
    apply mapM_Raise in He as (x & _ & Hx).
    by rewrite (parse_module_raises x e Hx).
  - intros entries Hrun. unfold parse_module. cbn [jget]. by rewrite Hrun.
Qed.

End Decode.

(** A run that names its predecessor, and a predecessor with one module. *)
Lemma fetch_previous_agrees_with_rows_witness :
  let before := {| Html.row_fields := {[ "module_name" := PStr "login" ]};
                   Html.row_tests := [ {[ "status" := PStr "passed" ]} ] |} in
  let entries := [("previous_run_id", JStr "run-6"); ("repo_version", JStr "1.2")] in
  let execute_prev_query (prev_run_id : json) : result json :=
    Ok (JObj [("response", JList [of_row before])]) in
  fetch_previous_run_data (λ _, Raise ValueError) execute_prev_query
    (JObj [("response", JList [JObj entries])])
  = Ok (Some [of_prev_module (Html.parsed_prev_module before)]).
Proof.
  intros before entries execute_prev_query.
  destruct (fetch_previous_agrees_with_rows (λ _, Raise ValueError)
              execute_prev_query entries []) as [_ H].
  apply (H (JStr "run-6") [before]); reflexivity.
Defined.

(** Two rows, the second with a null [run_data]. *)
Lemma one_bad_row_empties_the_run_witness :
  let good := of_row {| Html.row_fields := {[ "module_name" := PStr "login" ]};
                        Html.row_tests := [ {[ "status" := PStr "passed" ]} ] |} in
  let bad := JObj [("module_name", JStr "search"); ("run_data", JNull)] in
  fetch_current_run_data (λ _, Raise ValueError)
    (JObj [("response", JList [good; bad])]) = Ok [].
Proof.
  intros good bad.
  apply (one_bad_row_empties_the_run (λ _, Raise ValueError)
           ltac:(by intros s e [= <-]) [good; bad] bad).
  - right. by left.
  - by exists AttributeError.
Defined.

End FetchProps.
